(** * Makeup.cpp (venus): overlay packing, cosmetic shapes and compositing

    A shallow embedding of [src/jni/venus/Makeup.cpp].

    - Integer pixel code ([pack], [blend], the copy-back loop of [applyBrow],
      [createEyeShadow]) is modelled over [Z], with the wrap-around of the
      C++ fixed-width types written out.
    - [cv::Mat] is a record of its size, its type tag and its row-major
      buffer; an element access outside the buffer and a failed [assert] are
      explicit outcomes of the [outcome] monad (assertions are taken as
      enabled).  Loops are iterated by [for_loop], which threads the mutated
      buffer.
    - [float] geometry ([createHeartShape], [createPolygon]) is modelled over
      the real numbers: [Point2f] coordinates are reals and the rounding of
      [float] arithmetic is abstracted away.
    - What the file uses but does not define is a parameter: the macro
      [USE_BGRA_LAYOUT], [venus::mix], [lerp], [Feature::COUNT], the
      [Feature] helpers, [distance], [catmullRomSpline], and the component
      division of [cv::Vec3i]. *)

From Stdlib Require Import ZArith Lia List Bool Reals Lra.
From stdpp Require Import base list.

Local Open Scope Z_scope.

(** ** Outcomes: a value, a failed [assert], or an access outside a buffer *)

Inductive outcome (A : Type) : Type :=
| Done (a : A)
| AssertionFailed
| OutOfBounds.

Arguments Done {A} a.
Arguments AssertionFailed {A}.
Arguments OutOfBounds {A}.

Definition bind {A B : Type} (m : outcome A) (k : A -> outcome B) : outcome B :=
  match m with
  | Done a => k a
  | AssertionFailed => AssertionFailed
  | OutOfBounds => OutOfBounds
  end.

Notation "x <- m ;; k" := (bind m (fun x => k))
  (at level 100, m at next level, right associativity).

(** [assert(b)] *)
Definition assert (b : bool) : outcome unit :=
  if b then Done tt else AssertionFailed.

(** [for (int i = lo; i < lo + n; ++i) body], threading the state [s]. *)
Fixpoint for_loop {St : Type} (n : nat) (lo : Z) (body : Z -> St -> outcome St) (s : St)
  : outcome St :=
  match n with
  | O => Done s
  | S n' => s' <- body lo s ;; for_loop n' (lo + 1) body s'
  end.

(** ** Fixed-width integers *)

Definition to_u8 (v : Z) : Z := v mod 256.
Definition to_u32 (v : Z) : Z := v mod 2 ^ 32.
Definition is_u8 (v : Z) : Prop := 0 <= v <= 255.

(** ** cv::Mat *)

Inductive Depth : Set := CV_8U | CV_8S | CV_16U | CV_16S | CV_32S | CV_32F | CV_64F.

Record MatType : Set := CV_MAKETYPE { depth : Depth; channels : Z }.

Definition CV_8UC1 := CV_MAKETYPE CV_8U 1.
Definition CV_8UC3 := CV_MAKETYPE CV_8U 3.
Definition CV_8UC4 := CV_MAKETYPE CV_8U 4.
Definition CV_32FC3 := CV_MAKETYPE CV_32F 3.
Definition CV_32FC4 := CV_MAKETYPE CV_32F 4.

Definition Depth_eqb (a b : Depth) : bool :=
  match a, b with
  | CV_8U, CV_8U | CV_8S, CV_8S | CV_16U, CV_16U | CV_16S, CV_16S
  | CV_32S, CV_32S | CV_32F, CV_32F | CV_64F, CV_64F => true
  | _, _ => false
  end.

Definition MatType_eqb (a b : MatType) : bool :=
  Depth_eqb (depth a) (depth b) && (channels a =? channels b).

(** A matrix whose elements (pixels) have type [A]; [data] is the row-major
    buffer, element [(r, c)] at index [r * cols + c]. *)
Record Mat (A : Type) : Type :=
  mkMat { rows : Z; cols : Z; type : MatType; data : list A }.

Arguments mkMat {A} rows cols type data.
Arguments rows {A} m.
Arguments cols {A} m.
Arguments type {A} m.
Arguments data {A} m.

Definition Mat_wf {A : Type} (m : Mat A) : Prop :=
  0 <= rows m /\ 0 <= cols m /\ Z.of_nat (length (data m)) = rows m * cols m.

(** Two matrices of one size and type. *)
Definition same_shape {A B : Type} (m : Mat A) (m0 : Mat B) : Prop :=
  rows m = rows m0 /\ cols m = cols m0 /\ type m = type m0.

Definition Mat_empty {A : Type} (m : Mat A) : bool :=
  (rows m <=? 0) || (cols m <=? 0).

Definition in_bounds {A : Type} (m : Mat A) (r c : Z) : bool :=
  (0 <=? r) && (r <? rows m) && (0 <=? c) && (c <? cols m).

(** [m.at<T>(r, c)] *)
Definition Mat_at {A : Type} (m : Mat A) (r c : Z) : outcome A :=
  if in_bounds m r c then
    match data m !! Z.to_nat (r * cols m + c) with
    | Some v => Done v
    | None => OutOfBounds
    end
  else OutOfBounds.

(** [m.at<T>(r, c) = v] *)
Definition Mat_set {A : Type} (m : Mat A) (r c : Z) (v : A) : outcome (Mat A) :=
  if in_bounds m r c then
    if decide (Z.to_nat (r * cols m + c) < length (data m))%nat then
      Done (mkMat (rows m) (cols m) (type m) (<[Z.to_nat (r * cols m + c) := v]> (data m)))
    else OutOfBounds
  else OutOfBounds.

(** [buf[i]] and [buf[i] = v] on the raw buffer. *)
Definition buf_get {A : Type} (buf : list A) (i : Z) : outcome A :=
  if 0 <=? i then
    match buf !! Z.to_nat i with
    | Some v => Done v
    | None => OutOfBounds
    end
  else OutOfBounds.

Definition buf_set {A : Type} (buf : list A) (i : Z) (v : A) : outcome (list A) :=
  if (0 <=? i) && (i <? Z.of_nat (length buf)) then Done (<[Z.to_nat i := v]> buf)
  else OutOfBounds.

(** ** Makeup::pack *)

(** The body of the loop of [pack] for one mask sample [m]; [color] is the
    packed [uint32_t], the arithmetic is unsigned 32-bit, [alpha] is a
    [uint8_t]. *)
Definition pack_alpha (color m : Z) : Z :=
  to_u8 (to_u32 (to_u32 (Z.shiftr color 24 * m) + 127) / 255).

Definition pack_pixel (USE_BGRA_LAYOUT : bool) (color m : Z) : Z :=
  let alpha := pack_alpha color m in
  if USE_BGRA_LAYOUT then
    Z.lor (Z.lor (Z.lor (Z.land (Z.shiftr color 16) 255) (Z.land color 65280))
                 (to_u32 (Z.shiftl (Z.land color 255) 16)))
          (to_u32 (Z.shiftl alpha 24))
  else
    Z.lor (Z.land color 16777215) (to_u32 (Z.shiftl alpha 24)).

(** [USE_BGRA_LAYOUT] is a macro of [venus/compiler.h]; it is a parameter
    here.  The freshly allocated image is modelled as zero-filled; the loop
    overwrites every element. *)
Definition pack (USE_BGRA_LAYOUT : bool) (mask : Mat Z) (color : Z) : outcome (Mat Z) :=
  _ <- assert (MatType_eqb (type mask) CV_8UC1) ;;
  let length := rows mask * cols mask in
  let mask_data := data mask in
  image_data <-
    for_loop (Z.to_nat length) 0
      (fun i image_data =>
         m <- buf_get mask_data i ;;
         buf_set image_data i (pack_pixel USE_BGRA_LAYOUT color m))
      (replicate (Z.to_nat length) 0) ;;
  Done (mkMat (rows mask) (cols mask) CV_8UC4 image_data).


Definition Mat_u8 (m : Mat Z) : Prop := Forall is_u8 (data m).

(** ** cv::Point2i and cv::Rect *)

Record Point2i : Set := mkPoint2i { ix : Z; iy : Z }.

Record Rect : Set := mkRect { rect_x : Z; rect_y : Z; width : Z; height : Z }.

(** [a & b] of OpenCV: the intersection, or the zero rectangle when the two
    do not overlap. *)
Definition rect_and (a b : Rect) : Rect :=
  let x1 := Z.max (rect_x a) (rect_x b) in
  let y1 := Z.max (rect_y a) (rect_y b) in
  let w := Z.min (rect_x a + width a) (rect_x b + width b) - x1 in
  let h := Z.min (rect_y a + height a) (rect_y b + height b) - y1 in
  if (w <=? 0) || (h <=? 0) then mkRect 0 0 0 0 else mkRect x1 y1 w h.

(** [rect.contains(pt)] *)
Definition contains (rect : Rect) (pt : Point2i) : bool :=
  (rect_x rect <=? ix pt) && (ix pt <? rect_x rect + width rect) &&
  (rect_y rect <=? iy pt) && (iy pt <? rect_y rect + height rect).

(** Membership in a rectangle, as a proposition. *)
Definition in_rect (rect : Rect) (r c : Z) : Prop :=
  rect_y rect <= r < rect_y rect + height rect /\
  rect_x rect <= c < rect_x rect + width rect.

(** ** Makeup::blend *)

Section Compositor.

(** The element type of the images ([cv::Vec4b], [cv::Vec3f], ...) and
    [venus::mix] of [venus/blend.h], which is not part of this file. *)
Variable Pixel : Type.
Variable mix : Pixel -> Pixel -> R -> Pixel.

(** The loop nest shared by the enabled [case]s of the rectangular blend;
    they differ only in the element type read through [at<T>]. *)
Definition blend_loop (src : Mat Pixel) (origin : Point2i) (amount : R)
    (rect : Rect) (result : Mat Pixel) : outcome (Mat Pixel) :=
  for_loop (Z.to_nat (height rect)) (rect_y rect)
    (fun r result =>
       for_loop (Z.to_nat (width rect)) (rect_x rect)
         (fun c result =>
            src_color <- Mat_at src (r - iy origin) (c - ix origin) ;;
            dst_color <- Mat_at result r c ;;
            Mat_set result r c (mix dst_color src_color amount))
         result)
    result.

(** [blend(result, dst, src, origin, amount)].  Whether or not [result]
    aliases [dst], the loop starts from the contents of [dst]; the final
    [result] is returned. *)
Definition blend (dst src : Mat Pixel) (origin : Point2i) (amount : R)
  : outcome (Mat Pixel) :=
  _ <- assert (negb (Mat_empty src) &&
               (MatType_eqb (type src) CV_8UC4 || MatType_eqb (type src) CV_32FC4)) ;;
  let result := dst in
  let rect_src := mkRect (ix origin) (iy origin) (cols src) (rows src) in
  let rect_dst := mkRect 0 0 (cols dst) (rows dst) in
  let rect := rect_and rect_dst rect_src in
  (* case CV_8UC3 and case CV_32FC3 are compiled out (#if 0) *)
  if MatType_eqb (type dst) CV_8UC4 then blend_loop src origin amount rect result
  else if MatType_eqb (type dst) CV_32FC4 then blend_loop src origin amount rect result
  else _ <- assert false ;; Done result.

(** The [switch] inside the loop of the masked blend. *)
Definition blend_masked_pixel (src : Mat Pixel) (amount : R) (dst_type : MatType)
    (r c src_r src_c : Z) (result : Mat Pixel) : outcome (Mat Pixel) :=
  let body :=
    src_color <- Mat_at src src_r src_c ;;
    dst_color <- Mat_at result r c ;;
    Mat_set result r c (mix dst_color src_color amount) in
  if MatType_eqb dst_type CV_8UC4 then body
  else if MatType_eqb dst_type CV_32FC3 then body
  else if MatType_eqb dst_type CV_32FC4 then body
  else _ <- assert false ;; Done result.

(** [blend(result, dst, src, mask, origin, amount)] *)
Definition blend_masked (dst src : Mat Pixel) (mask : Mat Z) (origin : Point2i)
    (amount : R) : outcome (Mat Pixel) :=
  _ <- assert ((channels (type src) =? channels (type dst)) &&
               Depth_eqb (depth (type src)) (depth (type dst))) ;;
  _ <- assert (MatType_eqb (type mask) CV_8UC1) ;;
  let result := dst in
  let rect_src := mkRect (ix origin) (iy origin) (cols src) (rows src) in
  let rect_dst := mkRect 0 0 (cols dst) (rows dst) in
  let rect := rect_and rect_dst rect_src in
  let rect_mask := mkRect 0 0 (cols mask) (rows mask) in
  let offset_x := (cols src - cols mask) ÷ 2 in
  let offset_y := (rows src - rows mask) ÷ 2 in
  for_loop (Z.to_nat (height rect)) (rect_y rect)
    (fun r result =>
       for_loop (Z.to_nat (width rect)) (rect_x rect)
         (fun c result =>
            let src_r := r - iy origin in
            let src_c := c - ix origin in
            let mask_position := mkPoint2i (src_c - offset_x) (src_r - offset_y) in
            if negb (contains rect_mask mask_position) then Done result
            else
              m <- Mat_at mask (iy mask_position) (ix mask_position) ;;
              if m =? 0 then Done result
              else blend_masked_pixel src amount (type dst) r c src_r src_c result)
         result)
    result.

End Compositor.

Arguments blend {Pixel} mix dst src origin amount.
Arguments blend_loop {Pixel} mix src origin amount rect result.
Arguments blend_masked {Pixel} mix dst src mask origin amount.
Arguments blend_masked_pixel {Pixel} mix src amount dst_type r c src_r src_c result.

(** Where pixel [(r, c)] of the destination falls in the mask: the
    [mask_position] of the masked blend. *)
Definition mask_position {Pixel : Type} (src : Mat Pixel) (mask : Mat Z) (origin : Point2i)
    (r c : Z) : Point2i :=
  mkPoint2i (c - ix origin - (cols src - cols mask) ÷ 2)
            (r - iy origin - (rows src - rows mask) ÷ 2).

Definition rect_mask (mask : Mat Z) : Rect := mkRect 0 0 (cols mask) (rows mask).

(** The gate of the masked blend at [(r, c)]: the mapped position is inside
    the mask and the mask sample there is not zero. *)
Definition gate_open {Pixel : Type} (src : Mat Pixel) (mask : Mat Z) (origin : Point2i)
    (r c : Z) : bool :=
  let pos := mask_position src mask origin r c in
  contains (rect_mask mask) pos &&
  match Mat_at mask (iy pos) (ix pos) with
  | Done m => negb (m =? 0)
  | _ => false
  end.

(** The formats each blend dispatches on. *)
Definition blend_supported_type (t : MatType) : bool :=
  MatType_eqb t CV_8UC4 || MatType_eqb t CV_32FC4.

Definition blend_masked_supported_type (t : MatType) : bool :=
  MatType_eqb t CV_8UC4 || MatType_eqb t CV_32FC3 || MatType_eqb t CV_32FC4.

(** ** The copy-back loop of Makeup::applyBrow *)

Record Vec3b : Set := mkVec3b { b3_0 : Z; b3_1 : Z; b3_2 : Z }.
Record Vec4b : Set := mkVec4b { b4_0 : Z; b4_1 : Z; b4_2 : Z; b4_3 : Z }.

Section Brow.

(** [lerp] of the venus scalar helpers, which is not part of this file;
    its result is stored into a [uint8_t]. *)
Variable lerp : Z -> Z -> Z -> Z.

Definition offset : Z := 8.

(** Lines 394-410: [roi] is the inpainted three-channel patch,
    [roi_mask_with_margin] the erase mask, [rect] the bounding rectangle
    of the brow polygon. *)
Definition applyBrow_copy_back (dst : Mat Vec4b) (roi : Mat Vec3b)
    (roi_mask_with_margin : Mat Z) (rect : Rect) : outcome (Mat Vec4b) :=
  for_loop (Z.to_nat (height rect)) 0
    (fun r dst =>
       for_loop (Z.to_nat (width rect)) 0
         (fun c dst =>
            alpha <- Mat_at roi_mask_with_margin (r + offset) (c + offset) ;;
            if alpha =? 0 then Done dst
            else
              src_color <- Mat_at roi r c ;;
              p <- Mat_at dst (r + rect_y rect) (c + rect_x rect) ;;
              Mat_set dst (r + rect_y rect) (c + rect_x rect)
                (mkVec4b (to_u8 (lerp (b4_0 p) (b3_0 src_color) alpha))
                         (to_u8 (lerp (b4_1 p) (b3_1 src_color) alpha))
                         (to_u8 (lerp (b4_2 p) (b3_2 src_color) alpha))
                         (b4_3 p)))
         dst)
    dst.

End Brow.

(** ** Makeup::createEyeShadow *)

Record Vec3i : Set := mkVec3i { i3_0 : Z; i3_1 : Z; i3_2 : Z }.

Definition unpack (c : Z) : Vec3i :=
  mkVec3i (Z.land c 255) (Z.land (Z.shiftr c 8) 255) (Z.land (Z.shiftr c 16) 255).

Definition Vec3i_add (a b : Vec3i) : Vec3i :=
  mkVec3i (i3_0 a + i3_0 b) (i3_1 a + i3_1 b) (i3_2 a + i3_2 b).

Definition Vec3i_scale (a : Vec3i) (k : Z) : Vec3i :=
  mkVec3i (i3_0 a * k) (i3_1 a * k) (i3_2 a * k).

Definition Vec3i_in_u8 (v : Vec3i) : bool :=
  (0 <=? i3_0 v) && (i3_0 v <=? 255) && (0 <=? i3_1 v) && (i3_1 v <=? 255) &&
  (0 <=? i3_2 v) && (i3_2 v <=? 255).

(** The accumulators [rgb], [a], [a_max] of the per-pixel loop. *)
Record Accum : Set := mkAccum { acc_rgb : Vec3i; acc_a : Z; acc_a_max : Z }.

Section EyeShadow.

Variable USE_BGRA_LAYOUT : bool.

(** One component of [cv::Vec3i / int].  OpenCV scales by the reciprocal in
    [double] and rounds, plain [int] division truncates; the operator is a
    parameter, and the theorems assume only that its result is less than
    one away from the exact quotient. *)
Variable int_div : Z -> Z -> Z.

Definition Vec3i_div (v : Vec3i) (a : Z) : Vec3i :=
  mkVec3i (int_div (i3_0 v) a) (int_div (i3_1 v) a) (int_div (i3_2 v) a).

Definition COUNT : nat := 3.

(** [for (int i = 0; i < COUNT; ++i)] at pixel [(r, c)]. *)
Definition accumulate (mask : list (Mat Z)) (_color : list Vec3i) (r c : Z)
  : outcome Accum :=
  for_loop COUNT 0
    (fun i acc =>
       mask_i <- buf_get mask i ;;
       alpha <- Mat_at mask_i r c ;;
       color_i <- buf_get _color i ;;
       let rgb := Vec3i_add (acc_rgb acc) (Vec3i_scale color_i alpha) in
       let a := acc_a acc + alpha in
       let a_max := if acc_a_max acc <? alpha then alpha else acc_a_max acc in
       Done (mkAccum rgb a a_max))
    (mkAccum (mkVec3i 0 0 0) 0 0).

(** The pixel body after the accumulation: division, maximum alpha, the
    range assertion and the stored [Vec4b]. *)
Definition merge_rgb (acc : Accum) : Vec3i :=
  if negb (acc_a acc =? 0) then Vec3i_div (acc_rgb acc) (acc_a acc)
  else acc_rgb acc.

Definition merge_pixel (acc : Accum) : outcome Vec4b :=
  let rgb := merge_rgb acc in
  let a := acc_a_max acc in
  _ <- assert (Vec3i_in_u8 rgb) ;;
  Done (if USE_BGRA_LAYOUT
        then mkVec4b (to_u8 (i3_2 rgb)) (to_u8 (i3_1 rgb)) (to_u8 (i3_0 rgb)) (to_u8 a)
        else mkVec4b (to_u8 (i3_0 rgb)) (to_u8 (i3_1 rgb)) (to_u8 (i3_2 rgb)) (to_u8 a)).

Definition createEyeShadow (mask : list (Mat Z)) (color : list Z)
  : outcome (Mat Vec4b) :=
  mask_0 <- buf_get mask 0 ;;
  let cols := cols mask_0 in
  let rows := rows mask_0 in
  let bitmap := mkMat rows cols CV_8UC4 (replicate (Z.to_nat (rows * cols)) (mkVec4b 0 0 0 0)) in
  color_0 <- buf_get color 0 ;;
  color_1 <- buf_get color 1 ;;
  color_2 <- buf_get color 2 ;;
  let _color := [unpack color_0; unpack color_1; unpack color_2] in
  for_loop (Z.to_nat rows) 0
    (fun r bitmap =>
       for_loop (Z.to_nat cols) 0
         (fun c bitmap =>
            acc <- accumulate mask _color r c ;;
            px <- merge_pixel acc ;;
            Mat_set bitmap r c px)
         bitmap)
    bitmap.

End EyeShadow.

(** ** cv::Point2f and the shape generators *)

Record Point2f : Set := mkPoint2f { x : R; y : R }.

Record Vec4f : Set := mkVec4f { f4_0 : R; f4_1 : R; f4_2 : R; f4_3 : R }.

Inductive BlushShape : Set := DEFAULT | DISK | OVAL | TRIANGLE | HEART | SEAGULL.

Section Shapes.

Local Open Scope R_scope.

Definition Point2f_zero : Point2f := mkPoint2f 0 0.
Definition padd (a b : Point2f) : Point2f := mkPoint2f (x a + x b) (y a + y b).
Definition psub (a b : Point2f) : Point2f := mkPoint2f (x a - x b) (y a - y b).
(** [k * p] and [p * k] *)
Definition pscale (k : R) (p : Point2f) : Point2f := mkPoint2f (k * x p) (k * y p).
Definition pmul (p : Point2f) (k : R) : Point2f := mkPoint2f (x p * k) (y p * k).
Definition pdiv (p : Point2f) (k : R) : Point2f := mkPoint2f (x p / k) (y p / k).

(** [std::atan2] *)
Definition atan2 (b a : R) : R :=
  if Rlt_dec 0 a then atan (b / a)
  else if Rlt_dec a 0 then (if Rle_dec 0 b then atan (b / a) + PI else atan (b / a) - PI)
  else if Rlt_dec 0 b then PI / 2
  else if Rlt_dec b 0 then - (PI / 2)
  else 0.

(** The point computed by iteration [i] of the loop of [createHeartShape]. *)
Definition heart_sample (center : Point2f) (radius cosa sina : R) (i : Z) : Point2f :=
  let t := IZR i * (2 * PI / 32) in
  let sint := sin t in
  let cost := cos t in
  let sin2t := 2 * sint * cost in
  let cos2t := cost * cost - sint * sint in
  let cos3t := cost * cos2t - sint * sin2t in
  let cos4t := cos2t * cos2t - sin2t * sin2t in
  let hx := sint * sint * sint in
  let hy := (13 * cost - 5 * cos2t - 2 * cos3t - cos4t) / -16 in
  let rotated := mkPoint2f (hx * cosa - hy * sina) (hx * sina + hy * cosa) in
  padd center (pscale radius rotated).

Definition createHeartShape (center : Point2f) (radius angle : R)
  : outcome (list Point2f) :=
  let N := 32%nat in
  let heart := replicate N Point2f_zero in
  let cosa := cos angle in
  let sina := sin angle in
  for_loop N 0%Z
    (fun i heart => buf_set heart i (heart_sample center radius cosa sina i))
    heart.

(** Collaborators that are not part of this file: the landmark count
    [Feature::COUNT], [Feature::calculateBlushPolygon],
    [Feature::getSymmetryAxis], the point-to-line [distance] and
    [catmullRomSpline]. *)
Variable Feature_COUNT : nat.
Variable calculateBlushPolygon : list Point2f -> bool -> list Point2f.
Variable getSymmetryAxis : list Point2f -> Vec4f.
Variable distance : Point2f -> Vec4f -> R.
Variable catmullRomSpline : R -> Point2f -> Point2f -> Point2f -> Point2f -> Point2f.

(** The sample of iteration [i] of the [DISK] loop. *)
Definition disk_angle (i : Z) : R := IZR i / (2 * PI) * 12.

Definition disk_sample (center : Point2f) (radius : R) (i : Z) : Point2f :=
  let t := disk_angle i in
  padd center (pscale radius (mkPoint2f (cos t) (sin t))).

Definition knot_r : list Z := [42; 22; 23; 24; 25]%Z.
Definition knot_l : list Z := [43; 29; 30; 31; 26]%Z.

(** [createPolygon(points, shape, right)].  The coordinates are real
    numbers here.  In the SEAGULL case the code divides [down] by its length;
    when landmarks 53 and 56 coincide that is the float division 0 / 0, a
    NaN, which the reals do not have (the division gives 0 here).  The point
    count does not depend on it; the statements on the SEAGULL points assume
    that the two landmarks differ. *)
Definition createPolygon (points : list Point2f) (shape : BlushShape) (right : bool)
  : outcome (list Point2f) :=
  _ <- assert (Nat.eqb (length points) Feature_COUNT) ;;
  _02 <- buf_get points (if right then 2 else 10)%Z ;;
  _62 <- buf_get points (if right then 62 else 58)%Z ;;
  _00 <- buf_get points (if right then 0 else 12)%Z ;;
  _01 <- buf_get points (if right then 1 else 11)%Z ;;
  _33 <- buf_get points (if right then 33 else 32)%Z ;;
  _41 <- buf_get points (if right then 41 else 51)%Z ;;
  _61 <- buf_get points (if right then 61 else 59)%Z ;;
  _03 <- buf_get points (if right then 3 else 9)%Z ;;
  match shape with
  | DEFAULT => Done (calculateBlushPolygon points right)
  | DISK =>
      let center := mkPoint2f ((x _62 + x _02) / 2) (y _62) in
      let radius := Rabs (x _62 - x _02) / 2 in
      let N := 12%nat in
      let circle := replicate N Point2f_zero in
      for_loop N 0%Z
        (fun i circle => buf_set circle i (disk_sample center radius i))
        circle
  | OVAL =>
      p53 <- buf_get points 53%Z ;;
      Done [ pdiv (padd _00 (pmul _01 2)) 3;
             _01;
             pdiv (padd (pmul _01 2) _02) 3;
             pdiv (padd _01 (pmul _02 2)) 3;
             mkPoint2f (x _33) (y _61);
             _62;
             mkPoint2f (x _41) (y p53) ]
  | TRIANGLE =>
      p56 <- buf_get points 56%Z ;;
      p53 <- buf_get points 53%Z ;;
      let down := psub p56 p53 in
      let down := pdiv down (x down * x down + y down * y down) in
      Done [ mkPoint2f (x _33) (y _62);
             pdiv (padd _02 _03) 2;
             _02;
             catmullRomSpline (2 / 3) _00 _01 _02 _03;
             catmullRomSpline (1 / 3) _00 _01 _02 _03;
             _01;
             pdiv (padd _00 (pmul _01 2)) 3 ]
  | HEART =>
      p53 <- buf_get points 53%Z ;;
      p56 <- buf_get points 56%Z ;;
      let _x := pdiv (padd _62 _02) 2 in
      let _y := pdiv (padd p53 (pmul p56 2)) 3 in
      let line := getSymmetryAxis points in
      let radius := Rabs (distance _62 line - distance _02 line) in
      let down := mkPoint2f (f4_0 line) (f4_1 line) in
      let d := distance _x line in
      let N := if right then mkPoint2f (f4_1 line) (- f4_0 line)
               else mkPoint2f (- f4_1 line) (f4_0 line) in
      let center := padd _y (pscale d N) in
      let angle := atan2 (y down) (x down) - PI / 2 in
      createHeartShape center radius angle
  | SEAGULL =>
      let knot := if right then knot_r else knot_l in
      p56 <- buf_get points 56%Z ;;
      p53 <- buf_get points 53%Z ;;
      let down := psub p56 p53 in
      let down := pdiv down (sqrt (x down * x down + y down * y down)) in
      let N := 10%nat in
      let seagull := replicate N Point2f_zero in
      seagull <- buf_set seagull 0%Z _01 ;;
      p5 <- buf_get points (if right then 54 else 52)%Z ;;
      seagull <- buf_set seagull 5%Z p5 ;;
      knot_0 <- buf_get knot 0%Z ;;
      carriage <- buf_get points knot_0 ;;
      for_loop 4 1%Z
        (fun i seagull =>
           knot_i <- buf_get knot i ;;
           point <- buf_get points knot_i ;;
           let d := psub carriage point in
           let dot := x d * x down + y d * y down in
           seagull <- buf_set seagull i (padd point (pscale 3 (pscale dot down))) ;;
           buf_set seagull (10 - i)%Z (padd point (pscale 2 (pscale dot down))))
        seagull
  end.

End Shapes.

(** ** Statements of the specification that are compared with the code *)

(** Modelled from the spec: [venus::mix] of [venus/blend.h] is missing from
    the sources; the specification gives it as
    [lerp(dst, src, amount)] componentwise, alpha included.  Stated here on
    four-channel float pixels. *)
Definition mix_lerp (dst src : Vec4f) (amount : R) : Vec4f :=
  mkVec4f (f4_0 dst + (f4_0 src - f4_0 dst) * amount)
          (f4_1 dst + (f4_1 src - f4_1 dst) * amount)
          (f4_2 dst + (f4_2 src - f4_2 dst) * amount)
          (f4_3 dst + (f4_3 src - f4_3 dst) * amount).

(** The [DISK] polygon as the specification words it: twelve samples at
    angle [i * 2 * pi / 12] around the midpoint of the two landmarks. *)
Definition disk_spec (_62 _02 : Point2f) : list Point2f :=
  let center := mkPoint2f ((x _62 + x _02) / 2) ((y _62 + y _02) / 2) in
  let radius := (Rabs (x _62 - x _02) / 2)%R in
  map (fun i : nat =>
         let t := (INR i * (2 * PI / 12))%R in
         padd center (pscale radius (mkPoint2f (cos t) (sin t))))
      (seq 0 12).

(** The point counts the specification gives per shape. *)
Definition spec_point_count (shape : BlushShape) : option nat :=
  match shape with
  | OVAL => Some 7%nat
  | TRIANGLE => Some 6%nat
  | SEAGULL => Some 10%nat
  | _ => None
  end.

(** The formats for which the specification declares both blends defined:
    8-bit unsigned or 32-bit float samples, 3 or 4 channels. *)
Definition spec_supported (t : MatType) : bool :=
  (Depth_eqb (depth t) CV_8U || Depth_eqb (depth t) CV_32F) &&
  ((channels t =? 3) || (channels t =? 4)).


(** ** Definitions used by the statements and their proofs *)


(** The rectangle both blends iterate over. *)
Definition overlap {A B : Type} (dst : Mat A) (src : Mat B) (origin : Point2i) : Rect :=
  rect_and (mkRect 0 0 (cols dst) (rows dst))
           (mkRect (ix origin) (iy origin) (cols src) (rows src)).

(** Two small float images and a mask for the concrete instances below. *)
Definition px4 (v : R) : Vec4f := mkVec4f v v v 1%R.
Definition ex_dst : Mat Vec4f := mkMat 2 2 CV_32FC4 [px4 0; px4 0; px4 0; px4 0]%R.
Definition ex_src : Mat Vec4f := mkMat 2 2 CV_32FC4 [px4 1; px4 1; px4 1; px4 1]%R.
Definition ex_mask : Mat Z := mkMat 2 2 CV_8UC1 [0; 255; 128; 0].

(** The statement of the specification on the formats of the blends: on every
    8-bit or float image with 3 or 4 channels both blends run to the end. *)
Definition blend_dispatch_spec {Pixel : Type} (mix : Pixel -> Pixel -> R -> Pixel)
    (dst src : Mat Pixel) (mask : Mat Z) (origin : Point2i) (amount : R) : Prop :=
  spec_supported (type dst) = true ->
  (exists result, blend mix dst src origin amount = Done result) /\
  (exists result, blend_masked mix dst src mask origin amount = Done result).

(** A one-pixel three-channel 8-bit image, a one-pixel mask and a mix that
    returns the source pixel. *)
Definition ex_rgb : Mat Vec3b := mkMat 1 1 CV_8UC3 [mkVec3b 10 20 30].
Definition ex_mask1 : Mat Z := mkMat 1 1 CV_8UC1 [255].
Definition mix_replace (d s : Vec3b) (amount : R) : Vec3b := s.

(** The window of a loop nest over rows and columns, the elements it has
    rewritten so far, and its invariant: each visited element holds [upd] of
    its initial value, every other element its initial value. *)
Section PixelLoopDefs.

Context {A : Type}.
Variable upd : Z -> Z -> A -> A.
Variables dy dx lo_r lo_c : Z.
Variables n_r n_c : nat.
Variable m0 : Mat A.

Definition in_window (r c : Z) : Prop :=
  lo_r <= r < lo_r + Z.of_nat n_r /\ lo_c <= c < lo_c + Z.of_nat n_c.

(** Elements already rewritten when the loops stand at [(r_cur, c_cur)]. *)
Definition visited (r_cur c_cur r' c' : Z) : Prop :=
  lo_c <= c' - dx < lo_c + Z.of_nat n_c /\ lo_r <= r' - dy /\
  (r' - dy < r_cur \/ (r' - dy = r_cur /\ c' - dx < c_cur)).

Definition loop_inv (r_cur c_cur : Z) (m : Mat A) : Prop :=
  Mat_wf m /\ same_shape m m0 /\
  forall r' c' v0, Mat_at m0 r' c' = Done v0 ->
    (visited r_cur c_cur r' c' ->
     Mat_at m r' c' = Done (upd (r' - dy) (c' - dx) v0)) /\
    (~ visited r_cur c_cur r' c' -> Mat_at m r' c' = Done v0).

End PixelLoopDefs.

Section CompositorDefs.

Variable Pixel : Type.
Variable mix : Pixel -> Pixel -> R -> Pixel.

(** The new value of the destination pixel [(r, c)] in the rectangular
    blend. *)
Definition blend_upd (src : Mat Pixel) (origin : Point2i) (amount : R)
    (r c : Z) (d : Pixel) : Pixel :=
  match Mat_at src (r - iy origin) (c - ix origin) with
  | Done s => mix d s amount
  | _ => d
  end.

(** The new value of the destination pixel [(r, c)] in the masked blend. *)
Definition blend_masked_upd (src : Mat Pixel) (mask : Mat Z) (origin : Point2i)
    (amount : R) (r c : Z) (d : Pixel) : Pixel :=
  if gate_open src mask origin r c then
    match Mat_at src (r - iy origin) (c - ix origin) with
    | Done s => mix d s amount
    | _ => d
    end
  else d.

(** One iteration of the inner loop of the masked blend. *)
Definition blend_masked_body (dst_type : MatType) (src : Mat Pixel) (mask : Mat Z)
    (origin : Point2i) (amount : R) (r c : Z) (result : Mat Pixel)
  : outcome (Mat Pixel) :=
  let src_r := r - iy origin in
  let src_c := c - ix origin in
  let mask_position :=
    mkPoint2i (src_c - (cols src - cols mask) ÷ 2) (src_r - (rows src - rows mask) ÷ 2) in
  if negb (contains (mkRect 0 0 (cols mask) (rows mask)) mask_position) then Done result
  else
    m <- Mat_at mask (iy mask_position) (ix mask_position) ;;
    if m =? 0 then Done result
    else blend_masked_pixel mix src amount dst_type r c src_r src_c result.

End CompositorDefs.

Section BrowDefs.

Variable lerp : Z -> Z -> Z -> Z.

(** The destination pixel after the iteration for [(r, c)]. *)
Definition copy_back_upd (roi : Mat Vec3b) (roi_mask_with_margin : Mat Z)
    (r c : Z) (p : Vec4b) : Vec4b :=
  match Mat_at roi_mask_with_margin (r + offset) (c + offset) with
  | Done alpha =>
      if alpha =? 0 then p
      else match Mat_at roi r c with
           | Done src_color =>
               mkVec4b (to_u8 (lerp (b4_0 p) (b3_0 src_color) alpha))
                       (to_u8 (lerp (b4_1 p) (b3_1 src_color) alpha))
                       (to_u8 (lerp (b4_2 p) (b3_2 src_color) alpha))
                       (b4_3 p)
           | _ => p
           end
  | _ => p
  end.

End BrowDefs.

(** The brow rectangle lies inside [dst], and the patch and its mask cover
    it (they have the size of the rectangle grown by the margin). *)
Definition copy_back_pre (dst : Mat Vec4b) (roi : Mat Vec3b)
    (roi_mask_with_margin : Mat Z) (rect : Rect) : Prop :=
  Mat_wf dst /\ Mat_wf roi /\ Mat_wf roi_mask_with_margin /\
  0 <= width rect /\ 0 <= height rect /\
  0 <= rect_x rect /\ rect_x rect + width rect <= cols dst /\
  0 <= rect_y rect /\ rect_y rect + height rect <= rows dst /\
  width rect <= cols roi /\ height rect <= rows roi /\
  width rect + offset <= cols roi_mask_with_margin /\
  height rect + offset <= rows roi_mask_with_margin.

(** A one-pixel brow rectangle with its margin of 8 inside a 17 by 17 image,
    and a rounding linear interpolation, for the concrete instances below. *)
Definition ex_lerp (a b t : Z) : Z := (a * (255 - t) + b * t + 127) / 255.
Definition ex_brow_dst : Mat Vec4b := mkMat 17 17 CV_8UC4 (replicate 289 (mkVec4b 10 20 30 200)).
Definition ex_brow_roi : Mat Vec3b := mkMat 17 17 CV_8UC3 (replicate 289 (mkVec3b 90 80 70)).
Definition ex_brow_mask : Mat Z := mkMat 17 17 CV_8UC1 (replicate 289 255).
Definition ex_brow_rect : Rect := mkRect 8 8 1 1.

(** The stored pixel for colour components [rgb] and alpha [a] in the
    configured channel order. *)
Definition layout (USE_BGRA_LAYOUT : bool) (rgb : Vec3i) (a : Z) : Vec4b :=
  if USE_BGRA_LAYOUT then mkVec4b (i3_2 rgb) (i3_1 rgb) (i3_0 rgb) a
  else mkVec4b (i3_0 rgb) (i3_1 rgb) (i3_2 rgb) a.

(** The merge as the specification words it: accumulated colour over
    accumulated alpha, 0 when the total alpha is 0. *)
Definition merge_spec_rgb (int_div : Z -> Z -> Z) (k0 k1 k2 : Vec3i) (a0 a1 a2 : Z) : Vec3i :=
  let total := a0 + a1 + a2 in
  if total =? 0 then mkVec3i 0 0 0
  else mkVec3i (int_div (i3_0 k0 * a0 + i3_0 k1 * a1 + i3_0 k2 * a2) total)
               (int_div (i3_1 k0 * a0 + i3_1 k1 * a1 + i3_1 k2 * a2) total)
               (int_div (i3_2 k0 * a0 + i3_2 k1 * a1 + i3_2 k2 * a2) total).

(** Three masks of one size with 8-bit samples. *)
Definition masks_ok (m0 m1 m2 : Mat Z) : Prop :=
  Mat_wf m0 /\ Mat_wf m1 /\ Mat_wf m2 /\
  rows m1 = rows m0 /\ cols m1 = cols m0 /\ rows m2 = rows m0 /\ cols m2 = cols m0 /\
  Mat_u8 m0 /\ Mat_u8 m1 /\ Mat_u8 m2.

(** Rounding to the nearest integer, as the scaling by a [double] reciprocal
    followed by [saturate_cast<int>] does away from ties. *)
Definition round_div (n a : Z) : Z := (2 * n + a) / (2 * a).

(** What is assumed of the component division of [cv::Vec3i / int]: on a
    non-negative numerator and a positive divisor the result is less than one
    away from the exact quotient.  Truncation and rounding both satisfy it. *)
Definition near_quotient (int_div : Z -> Z -> Z) : Prop :=
  forall n a, 0 <= n -> 0 < a -> Z.abs (a * int_div n a - n) < a.

Section EyeShadowDefs.

Variable USE_BGRA_LAYOUT : bool.
Variable int_div : Z -> Z -> Z.

(** The pixel stored at [(r, c)]. *)
Definition eye_pixel (m0 m1 m2 : Mat Z) (color_0 color_1 color_2 : Z) (r c : Z) : Vec4b :=
  match Mat_at m0 r c, Mat_at m1 r c, Mat_at m2 r c with
  | Done a0, Done a1, Done a2 =>
      layout USE_BGRA_LAYOUT
        (merge_spec_rgb int_div (unpack color_0) (unpack color_1) (unpack color_2) a0 a1 a2)
        (Z.max a0 (Z.max a1 a2))
  | _, _, _ => mkVec4b 0 0 0 0
  end.

End EyeShadowDefs.

(** Three two-pixel masks: one layer alone at the first pixel, two layers
    overlapping at the second. *)
Definition ex_eye_m0 : Mat Z := mkMat 1 2 CV_8UC1 [200; 0].
Definition ex_eye_m1 : Mat Z := mkMat 1 2 CV_8UC1 [0; 100].
Definition ex_eye_m2 : Mat Z := mkMat 1 2 CV_8UC1 [0; 50].

(** Landmark [k] of a landmark set. *)
Definition landmark (points : list Point2f) (k : Z) : Point2f :=
  default Point2f_zero (points !! Z.to_nat k).

(** The heart curve as the specification words it, at parameter [t]. *)
Definition heart_spec (center : Point2f) (radius angle t : R) : Point2f :=
  let hx := (sin t * sin t * sin t)%R in
  let hy := (- (13 * cos t - 5 * cos (2 * t) - 2 * cos (3 * t) - cos (4 * t)) / 16)%R in
  padd center
    (pscale radius
       (mkPoint2f (hx * cos angle - hy * sin angle) (hx * sin angle + hy * cos angle))).

(** A landmark set of the required length; the code indexes it up to 62. *)
Definition landmarks_ok (Feature_COUNT : nat) (points : list Point2f) : Prop :=
  length points = Feature_COUNT /\ (62 < Feature_COUNT)%nat.

(** A landmark set of 81 points with landmark 2 at (140, 170) and landmark 62
    at (100, 150), and stand-ins for the collaborators, for the concrete
    instances below. *)
Definition ex_point (k : nat) : Point2f :=
  if Nat.eqb k 2 then mkPoint2f 140 170
  else if Nat.eqb k 62 then mkPoint2f 100 150
  else Point2f_zero.

Definition ex_landmarks : list Point2f := map ex_point (seq 0 81).
Definition ex_calculateBlushPolygon (points : list Point2f) (right : bool) : list Point2f := [].
Definition ex_getSymmetryAxis (points : list Point2f) : Vec4f := mkVec4f 0 1 0 0.
Definition ex_distance (p : Point2f) (line : Vec4f) : R := 0%R.
Definition ex_catmullRomSpline (t : R) (p0 p1 p2 p3 : Point2f) : Point2f := p1.
Definition ex_createPolygon : list Point2f -> BlushShape -> bool -> outcome (list Point2f) :=
  createPolygon 81 ex_calculateBlushPolygon ex_getSymmetryAxis ex_distance
    ex_catmullRomSpline.

(** The statement of the specification on the point counts. *)
Definition polygon_count_spec (points : list Point2f) (shape : BlushShape) (right : bool)
  : Prop :=
  forall n, spec_point_count shape = Some n ->
    exists polygon, ex_createPolygon points shape right = Done polygon /\
                    length polygon = n.

(** ** The pipelines: Makeup::applyEye, applyEyeLash, applyEyeShadow,
    applyBlush, applyLip *)

(** [0 <= amount] and the like on [float]s, as a boolean. *)
Definition Rleb (a b : R) : bool := if Rle_dec a b then true else false.

Definition pneg (p : Point2f) : Point2f := mkPoint2f (- x p) (- y p).

(** The conversion of a [Point2f] to a [Point2i]; the rounding
    [saturate_cast<int>] of OpenCV is the parameter [cvRound]. *)
Definition Point2i_of (cvRound : R -> Z) (p : Point2f) : Point2i :=
  mkPoint2i (cvRound (x p)) (cvRound (y p)).

(** [venus::Region], as far as this file reads it. *)
Record Region : Type := mkRegion { region_mask : Mat Z; region_pivot : Point2f }.

(** The template eye contour of [applyEye], indices 34 to 41. *)
Definition src_points : list Point2f :=
  [ mkPoint2f 633 287; mkPoint2f 534 228; mkPoint2f 458 213; mkPoint2f 386 228;
    mkPoint2f 290 287; mkPoint2f 386 350; mkPoint2f 458 362; mkPoint2f 534 353 ].

Section EyeParams.

Local Open Scope R_scope.

(** [venus::distance] between two points, which is not part of this file. *)
Variable distance_points : Point2f -> Point2f -> R.

(** The lambda [calcuateEyeParams] of [applyEye]: pivot, radius and angle of
    an eye from its two corners. *)
Definition calcuateEyeParams (right left : Point2f) : Vec4f :=
  let pivot := pdiv (padd right left) 2 in
  let radius := distance_points pivot left in
  let delta := psub right left in
  let delta := if Rlt_dec (x delta) 0 then pneg delta else delta in
  let angle := atan2 (y delta) (x delta) in
  mkVec4f (x pivot) (y pivot) radius angle.

(** Lines 485-493 of [applyEye]: the eight contour points of one eye, the
    left eye flipped horizontally. *)
Definition eye_dst_points (points : list Point2f) (right : bool)
    (dst_points : list Point2f) : outcome (list Point2f) :=
  if right then
    for_loop 8 0%Z
      (fun i dst_points =>
         p <- buf_get points (34 + i)%Z ;;
         buf_set dst_points i p)
      dst_points
  else
    p44 <- buf_get points 44%Z ;;
    p48 <- buf_get points 48%Z ;;
    let sum := x p44 + x p48 in
    for_loop 8 0%Z
      (fun i dst_points =>
         px <- buf_get points (44 + i)%Z ;;
         py <- buf_get points (44 + i)%Z ;;
         buf_set dst_points i (mkPoint2f (sum - x px) (y py)))
      dst_points.

End EyeParams.

(** The collaborators of [applyEye] on images with pixels of type [Pixel]:
    [Region::transform] (both overloads), [cv::warpAffine], [cv::transform],
    the configured and invoked [ImageWarp_Rigid], and the horizontal
    [cv::flip]. *)
Record EyeWarp (Pixel : Type) : Type := mkEyeWarp {
  Affine : Type;
  Region_transform : Z -> Z -> Point2f -> R -> Point2f -> Affine;
  Region_transform_point : Affine -> Point2f -> Point2f;
  warpAffine : Mat Pixel -> Affine -> Z -> Z -> Mat Pixel;
  cv_transform : list Point2f -> Affine -> list Point2f;
  ImageWarp_Rigid : list Point2f -> list Point2f -> Mat Pixel -> Mat Pixel;
  cv_flip : Mat Pixel -> Mat Pixel
}.

Arguments Affine {Pixel} e.
Arguments Region_transform {Pixel} e cols rows pivot angle scale.
Arguments Region_transform_point {Pixel} e affine p.
Arguments warpAffine {Pixel} e src affine cols rows.
Arguments cv_transform {Pixel} e pts affine.
Arguments ImageWarp_Rigid {Pixel} e dst_points src_points image.
Arguments cv_flip {Pixel} e image.

Section EyePipeline.

Local Open Scope R_scope.

Variable Pixel : Type.
Variable mix : Pixel -> Pixel -> R -> Pixel.
Variable W : EyeWarp Pixel.
Variable distance_points : Point2f -> Point2f -> R.
Variable cvRound : R -> Z.

(** One pass of the loop of [applyEye] for the eye [j] (0 the right eye, 1
    the left); the state is [dst] and the vector [dst_points]. *)
Definition applyEye_side (points : list Point2f) (cosmetic : Mat Pixel) (amount : R)
    (PARAMS : Vec4f) (j : Z) (state : Mat Pixel * list Point2f)
  : outcome (Mat Pixel * list Point2f) :=
  let dst := fst state in
  let dst_points := snd state in
  let right := (j =? 0)%Z in
  let START := (if right then 34 else 44)%Z in
  dst_points <- eye_dst_points points right dst_points ;;
  d0 <- buf_get dst_points 0%Z ;;
  d4 <- buf_get dst_points 4%Z ;;
  let params := calcuateEyeParams distance_points d0 d4 in
  let pivot := mkPoint2f (f4_0 PARAMS) (f4_1 PARAMS) in
  let angle := f4_3 params in
  let scale := f4_2 params / f4_2 PARAMS in
  let affine := Region_transform W (cols cosmetic) (rows cosmetic) pivot angle
                  (mkPoint2f scale scale) in
  let _cosmetic := warpAffine W cosmetic affine (cols cosmetic) (rows cosmetic) in
  let affined_src_points := cv_transform W src_points affine in
  let pivot := Region_transform_point W affine (mkPoint2f (f4_0 PARAMS) (f4_1 PARAMS)) in
  pS <- buf_get points START ;;
  pS4 <- buf_get points (START + 4)%Z ;;
  let dst_pivot := pdiv (padd pS pS4) 2 in
  a0 <- buf_get affined_src_points 0%Z ;;
  a4 <- buf_get affined_src_points 4%Z ;;
  let offset := psub (pdiv (padd a0 a4) 2) dst_pivot in
  dst_points <-
    for_loop 8 0%Z
      (fun i dst_points =>
         p <- buf_get dst_points i ;;
         buf_set dst_points i (padd p offset))
      dst_points ;;
  let _cosmetic := ImageWarp_Rigid W dst_points affined_src_points _cosmetic in
  let pivot := if negb right
               then mkPoint2f (IZR (cols _cosmetic - 1) - x pivot) (y pivot)
               else pivot in
  let _cosmetic := if negb right then cv_flip W _cosmetic else _cosmetic in
  let origin := Point2i_of cvRound (psub dst_pivot pivot) in
  dst <- blend mix dst _cosmetic origin amount ;;
  Done (dst, dst_points).

(** [applyEye(dst, src, points, cosmetic, amount)]; the [printf] is left
    out. *)
Definition applyEye (src : Mat Pixel) (points : list Point2f) (cosmetic : Mat Pixel)
    (amount : R) : outcome (Mat Pixel) :=
  _ <- assert (MatType_eqb (type src) CV_8UC4 && MatType_eqb (type cosmetic) CV_8UC4) ;;
  let dst := src in
  s0 <- buf_get src_points 0%Z ;;
  s4 <- buf_get src_points 4%Z ;;
  let PARAMS := calcuateEyeParams distance_points s0 s4 in
  state <- for_loop 2 0%Z (applyEye_side points cosmetic amount PARAMS)
             (dst, replicate 8 Point2f_zero) ;;
  Done (fst state).

End EyePipeline.

Arguments applyEye {Pixel} mix W distance_points cvRound src points cosmetic amount.
Arguments applyEye_side {Pixel} mix W distance_points cvRound points cosmetic amount
  PARAMS j state.

(** [applyEyeLash(dst, src, points, mask, color, amount)], on images of
    packed 32-bit pixels. *)
Definition applyEyeLash (USE_BGRA_LAYOUT : bool) (mix : Z -> Z -> R -> Z) (W : EyeWarp Z)
    (distance_points : Point2f -> Point2f -> R) (cvRound : R -> Z)
    (src : Mat Z) (points : list Point2f) (mask : Mat Z) (color : Z) (amount : R)
  : outcome (Mat Z) :=
  _ <- assert (MatType_eqb (type mask) CV_8UC1) ;;
  eye_lash <- pack USE_BGRA_LAYOUT mask color ;;
  applyEye mix W distance_points cvRound src points eye_lash amount.

(** [applyEyeShadow(dst, src, points, mask, color, amount)], on images of
    [Vec4b] pixels. *)
Definition applyEyeShadow (USE_BGRA_LAYOUT : bool) (int_div : Z -> Z -> Z)
    (mix : Vec4b -> Vec4b -> R -> Vec4b) (W : EyeWarp Vec4b)
    (distance_points : Point2f -> Point2f -> R) (cvRound : R -> Z)
    (src : Mat Vec4b) (points : list Point2f) (mask : list (Mat Z)) (color : list Z)
    (amount : R) : outcome (Mat Vec4b) :=
  eye_shadow <- createEyeShadow USE_BGRA_LAYOUT int_div mask color ;;
  applyEye mix W distance_points cvRound src points eye_shadow amount.

Section BlushLip.

(** Images of packed 32-bit pixels; [venus::mix] on them, the layout macro,
    the collaborators of [createPolygon], [cv::boundingRect],
    [Feature::maskPolygonSmooth], [Feature::calculateLipshRegion] and the
    rounding of the point conversion are parameters. *)
Variable mix : Z -> Z -> R -> Z.
Variable USE_BGRA_LAYOUT : bool.
Variable Feature_COUNT : nat.
Variable calculateBlushPolygon : list Point2f -> bool -> list Point2f.
Variable getSymmetryAxis : list Point2f -> Vec4f.
Variable distance : Point2f -> Vec4f -> R.
Variable catmullRomSpline : R -> Point2f -> Point2f -> Point2f -> Point2f -> Point2f.
Variable boundingRect : list Point2f -> Rect.
Variable maskPolygonSmooth : Rect -> list Point2f -> Z -> Mat Z.
Variable calculateLipshRegion : Mat Z -> list Point2f -> Region.
Variable cvRound : R -> Z.

(** One pass of the loop of [applyBlush]: [i] is 0 for the left cheek and 1
    for the right one. *)
Definition applyBlush_side (points : list Point2f) (shape : BlushShape) (color : Z)
    (amount : R) (i : Z) (dst : Mat Z) : outcome (Mat Z) :=
  polygon <- createPolygon Feature_COUNT calculateBlushPolygon getSymmetryAxis distance
               catmullRomSpline points shape (negb (i =? 0)) ;;
  let rect := boundingRect polygon in
  let mask := maskPolygonSmooth rect polygon 8 in
  blush <- pack USE_BGRA_LAYOUT mask color ;;
  blend mix dst blush (mkPoint2i (rect_x rect) (rect_y rect)) amount.

(** [applyBlush(dst, src, points, shape, color, amount)] *)
Definition applyBlush (src : Mat Z) (points : list Point2f) (shape : BlushShape)
    (color : Z) (amount : R) : outcome (Mat Z) :=
  _ <- assert (negb (Mat_empty src) && Nat.eqb (length points) Feature_COUNT) ;;
  _ <- assert (Rleb 0 amount && Rleb amount 1) ;;
  let dst := src in
  for_loop 2 0 (applyBlush_side points shape color amount) dst.

(** [applyLip(dst, src, points, color, amount)] *)
Definition applyLip (src : Mat Z) (points : list Point2f) (color : Z) (amount : R)
  : outcome (Mat Z) :=
  _ <- assert (negb (Mat_empty src) && (channels (type src) =? 4)) ;;
  let region := calculateLipshRegion src points in
  let mask := region_mask region in
  let pivot := region_pivot region in
  let origin :=
    Point2i_of cvRound
      (psub pivot (pdiv (mkPoint2f (IZR (cols mask)) (IZR (rows mask))) 2)) in
  let lip := mkMat (rows mask) (cols mask) CV_8UC4
               (replicate (Z.to_nat (rows mask * cols mask)) 0) in
  let length := rows mask * cols mask in
  lip_data <-
    for_loop (Z.to_nat length) 0
      (fun i lip_data => buf_set lip_data i color)
      (data lip) ;;
  blend_masked mix src (mkMat (rows mask) (cols mask) CV_8UC4 lip_data) mask origin amount.

End BlushLip.

(** ** Mirror images of polygons and the content of the SEAGULL polygon *)

(** The mirror image of a point in the vertical line [x = m]. *)
Definition mirror_x (m : R) (p : Point2f) : Point2f := mkPoint2f (2 * m - x p) (y p).

(** The landmarks of the left index table of [createPolygon] are the mirror
    images of those of the right index table, as far as OVAL reads them. *)
Definition oval_symmetric (m : R) (points : list Point2f) : Prop :=
  landmark points 10 = mirror_x m (landmark points 2) /\
  landmark points 58 = mirror_x m (landmark points 62) /\
  landmark points 12 = mirror_x m (landmark points 0) /\
  landmark points 11 = mirror_x m (landmark points 1) /\
  landmark points 32 = mirror_x m (landmark points 33) /\
  landmark points 51 = mirror_x m (landmark points 41) /\
  landmark points 59 = mirror_x m (landmark points 61).

(** The same for SEAGULL: the knots, landmarks 1/11 and 54/52 are mirror
    images, and landmarks 53 and 56 lie on the mirror line. *)
Definition seagull_symmetric (m : R) (points : list Point2f) : Prop :=
  landmark points 11 = mirror_x m (landmark points 1) /\
  landmark points 52 = mirror_x m (landmark points 54) /\
  landmark points 43 = mirror_x m (landmark points 42) /\
  landmark points 29 = mirror_x m (landmark points 22) /\
  landmark points 30 = mirror_x m (landmark points 23) /\
  landmark points 31 = mirror_x m (landmark points 24) /\
  landmark points 26 = mirror_x m (landmark points 25) /\
  x (landmark points 53) = m /\ x (landmark points 56) = m.

(** The normalised down vector of the SEAGULL case and the point it stores
    for the knot landmark [k]: the knot moved along [down] by [factor] times
    the projection of [carriage - knot] on [down]. *)
Definition seagull_down (points : list Point2f) : Point2f :=
  let down := psub (landmark points 56) (landmark points 53) in
  pdiv down (sqrt (x down * x down + y down * y down)).

Definition seagull_point (points : list Point2f) (carriage : Point2f) (factor : R)
    (k : Z) : Point2f :=
  let point := landmark points k in
  let d := psub carriage point in
  let dot := (x d * x (seagull_down points) + y d * y (seagull_down points))%R in
  padd point (pscale factor (pscale dot (seagull_down points))).

(** The ten points of the SEAGULL polygon for the knot table [knot] and the
    landmark indices [i1] and [i5] of slots 0 and 5. *)
Definition seagull_polygon (points : list Point2f) (k0 k1 k2 k3 k4 i1 i5 : Z)
  : list Point2f :=
  let carriage := landmark points k0 in
  [ landmark points i1;
    seagull_point points carriage 3 k1; seagull_point points carriage 3 k2;
    seagull_point points carriage 3 k3; seagull_point points carriage 3 k4;
    landmark points i5;
    seagull_point points carriage 2 k4; seagull_point points carriage 2 k3;
    seagull_point points carriage 2 k2; seagull_point points carriage 2 k1 ].

(** The seven points of the OVAL polygon for one index table. *)
Definition oval_polygon (points : list Point2f) (i00 i01 i02 i33 i41 i61 i62 : Z)
  : list Point2f :=
  [ pdiv (padd (landmark points i00) (pmul (landmark points i01) 2)) 3;
    landmark points i01;
    pdiv (padd (pmul (landmark points i01) 2) (landmark points i02)) 3;
    pdiv (padd (landmark points i01) (pmul (landmark points i02) 2)) 3;
    mkPoint2f (x (landmark points i33)) (y (landmark points i61));
    landmark points i62;
    mkPoint2f (x (landmark points i41)) (y (landmark points 53)) ].

(** A landmark set of 81 points that is symmetric about the line [x = 100]:
    the landmarks of the left index tables are the mirror images of their
    partners, landmarks 53 and 56 lie on the line. *)
Definition ex_partner (k : nat) : option nat :=
  match k with
  | 10 => Some 2 | 58 => Some 62 | 12 => Some 0 | 11 => Some 1 | 32 => Some 33
  | 51 => Some 41 | 59 => Some 61 | 9 => Some 3 | 52 => Some 54 | 43 => Some 42
  | 29 => Some 22 | 30 => Some 23 | 31 => Some 24 | 26 => Some 25
  | _ => None
  end%nat.
Definition ex_base_point (k : nat) : Point2f :=
  match k with
  | 53 => mkPoint2f 100 60
  | 56 => mkPoint2f 100 90
  | _ => mkPoint2f (INR k) (2 * INR k)
  end%nat.
Definition ex_sym_point (k : nat) : Point2f :=
  match ex_partner k with
  | Some k' => mirror_x 100 (ex_base_point k')
  | None => ex_base_point k
  end.
Definition ex_sym_landmarks : list Point2f := map ex_sym_point (seq 0 81).

(** A stand-in for the distance between two points in the concrete
    instances. *)
Definition ex_distance_points (p q : Point2f) : R := (Rabs (x p - x q) + Rabs (y p - y q))%R.

(** ** Definitions for the statements on the pipelines *)

(** An image a blend accepts as its source: well formed, not empty, of type
    CV_8UC4. *)
Definition good_image {Pixel : Type} (m : Mat Pixel) : Prop :=
  Mat_wf m /\ Mat_empty m = false /\ type m = CV_8UC4.

(** A mask the packer and the blends accept: well formed, of type CV_8UC1. *)
Definition good_mask (m : Mat Z) : Prop := Mat_wf m /\ type m = CV_8UC1.

(** The origin at which [applyLip] places the lip colour. *)
Definition lip_origin (cvRound : R -> Z) (region : Region) : Point2i :=
  Point2i_of cvRound
    (psub (region_pivot region)
          (pdiv (mkPoint2f (IZR (cols (region_mask region)))
                           (IZR (rows (region_mask region)))) 2)).


(** Whether the blush of a cheek, a mask placed at the corner of the
    bounding rectangle [rect], covers the pixel [(r, c)]. *)
Definition blush_covers (rect : Rect) (mask : Mat Z) (r c : Z) : Prop :=
  in_bounds mask (r - rect_y rect) (c - rect_x rect) = true.

(** What is assumed of the collaborators of [applyEye]: the warps and the
    flip return an image a blend accepts when given one, and [cv::transform]
    returns as many points as it is given. *)
Definition EyeWarp_ok {Pixel : Type} (W : EyeWarp Pixel) : Prop :=
  (forall img affine, good_image img ->
                      good_image (warpAffine W img affine (cols img) (rows img))) /\
  (forall dst_points affined img, good_image img ->
                                  good_image (ImageWarp_Rigid W dst_points affined img)) /\
  (forall img, good_image img -> good_image (cv_flip W img)) /\
  (forall pts affine, length (cv_transform W pts affine) = length pts).

(** Collaborators that leave images and points as they are, and a rounding,
    for the concrete instances. *)
Definition ex_EyeWarp (Pixel : Type) : EyeWarp Pixel :=
  mkEyeWarp Pixel unit (fun _ _ _ _ _ => tt) (fun _ p => p) (fun img _ _ _ => img)
    (fun pts _ => pts) (fun _ _ img => img) (fun img => img).
Definition ex_cvRound (v : R) : Z := up v - 1.
Definition ex_mix_packed (d s : Z) (amount : R) : Z := s.
Definition ex_image : Mat Z := mkMat 2 2 CV_8UC4 [1; 2; 3; 4].
Definition ex_boundingRect (polygon : list Point2f) : Rect := mkRect 1 1 1 1.
Definition ex_maskPolygonSmooth (rect : Rect) (polygon : list Point2f) (level : Z) : Mat Z :=
  mkMat (height rect) (width rect) CV_8UC1
    (replicate (Z.to_nat (height rect * width rect)) 255).
Definition ex_calculateLipshRegion (src : Mat Z) (points : list Point2f) : Region :=
  mkRegion (mkMat 1 1 CV_8UC1 [255]) (mkPoint2f 1 1).

(** * Properties *)

(** ** Concrete runs of the model *)

Example pack_rgba_run :
  pack false (mkMat 1 2 CV_8UC1 [255; 128]) 0x80112233
  = Done (mkMat 1 2 CV_8UC4 [0x80112233; 0x40112233]).
Proof. reflexivity. Qed.

Example pack_bgra_run :
  pack true (mkMat 1 2 CV_8UC1 [255; 128]) 0x80112233
  = Done (mkMat 1 2 CV_8UC4 [0x80332211; 0x40332211]).
Proof. reflexivity. Qed.

Example rect_and_disjoint_run :
  rect_and (mkRect 0 0 4 4) (mkRect 10 10 2 2) = mkRect 0 0 0 0.
Proof. reflexivity. Qed.

Example rect_and_partial_run :
  rect_and (mkRect 0 0 4 4) (mkRect (-1) 3 3 3) = mkRect 0 3 2 1.
Proof. reflexivity. Qed.

Example blend_rgb_run :
  blend mix_replace ex_rgb ex_rgb (mkPoint2i 0 0) 1%R = AssertionFailed.
Proof. reflexivity. Qed.

Example blend_masked_rgb_run :
  blend_masked mix_replace ex_rgb ex_rgb ex_mask1 (mkPoint2i 0 0) 1%R = AssertionFailed.
Proof. reflexivity. Qed.

Example blend_masked_rgb_closed_gate_run :
  blend_masked mix_replace ex_rgb ex_rgb (mkMat 1 1 CV_8UC1 [0]) (mkPoint2i 0 0) 1%R
  = Done ex_rgb.
Proof. reflexivity. Qed.

Example copy_back_run :
  applyBrow_copy_back ex_lerp
    (mkMat 1 2 CV_8UC4 [mkVec4b 10 20 30 200; mkVec4b 1 2 3 4])
    (mkMat 1 2 CV_8UC3 [mkVec3b 90 80 70; mkVec3b 9 8 7])
    (mkMat 9 10 CV_8UC1 (replicate 88 0 ++ [255; 0]))
    (mkRect 0 0 2 1)
  = Done (mkMat 1 2 CV_8UC4 [mkVec4b 90 80 70 200; mkVec4b 1 2 3 4]).
Proof. reflexivity. Qed.

Example createEyeShadow_run :
  createEyeShadow false Z.quot [ex_eye_m0; ex_eye_m1; ex_eye_m2]
    [0xFF112233; 0xFF445566; 0xFF778899]
  = Done (mkMat 1 2 CV_8UC4 [mkVec4b 0x33 0x22 0x11 200; mkVec4b 119 102 85 100]).
Proof. reflexivity. Qed.

(** ** Loops and matrices *)

Lemma for_loop_inv {St : Type} (P : Z -> St -> Prop) (body : Z -> St -> outcome St) :
  forall (n : nat) (lo : Z) (s : St),
    P lo s ->
    (forall i s, lo <= i < lo + Z.of_nat n -> P i s ->
                 exists s', body i s = Done s' /\ P (i + 1) s') ->
    exists s', for_loop n lo body s = Done s' /\ P (lo + Z.of_nat n) s'.
Proof.
  induction n as [|n IH]; intros lo s H0 Hstep; simpl.
  - exists s. rewrite Z.add_0_r. auto.
  - destruct (Hstep lo s) as (s1 & E & H1); [lia | assumption |].
    rewrite E. simpl.
    destruct (IH (lo + 1) s1 H1) as (s' & E' & H').
    { intros i t Hi Ht. apply Hstep; [lia | assumption]. }
    exists s'. split; [assumption |].
    replace (lo + Z.of_nat (S n)) with (lo + 1 + Z.of_nat n) by lia. assumption.
Qed.

Lemma in_bounds_true {A : Type} (m : Mat A) (r c : Z) :
  in_bounds m r c = true <-> 0 <= r < rows m /\ 0 <= c < cols m.
Proof. unfold in_bounds. rewrite !andb_true_iff. lia. Qed.

Lemma index_inj (w r c r' c' : Z) :
  0 <= c < w -> 0 <= c' < w -> 0 <= r -> 0 <= r' ->
  Z.to_nat (r * w + c) = Z.to_nat (r' * w + c') -> r = r' /\ c = c'.
Proof.
  intros Hc Hc' Hr Hr' E.
  apply Z2Nat.inj in E; [| nia | nia].
  assert (r = r') by nia. subst r'. lia.
Qed.

Lemma index_lt {A : Type} (m : Mat A) (r c : Z) :
  Mat_wf m -> in_bounds m r c = true ->
  (Z.to_nat (r * cols m + c) < length (data m))%nat.
Proof.
  intros (Hr & Hc & Hl) Hb. apply in_bounds_true in Hb.
  apply Nat2Z.inj_lt. rewrite Hl, Z2Nat.id by nia. nia.
Qed.

Lemma Mat_at_Done {A : Type} (m : Mat A) (r c : Z) :
  Mat_wf m -> in_bounds m r c = true -> exists v, Mat_at m r c = Done v.
Proof.
  intros Hwf Hb. unfold Mat_at. rewrite Hb.
  destruct (lookup_lt_is_Some_2 (data m) _ (index_lt m r c Hwf Hb)) as [v Hv].
  rewrite Hv. eauto.
Qed.

Lemma Mat_at_in_bounds {A : Type} (m : Mat A) (r c : Z) (v : A) :
  Mat_at m r c = Done v -> in_bounds m r c = true.
Proof. unfold Mat_at. destruct (in_bounds m r c); [reflexivity | discriminate]. Qed.

Lemma Mat_set_spec {A : Type} (m : Mat A) (r c : Z) (v : A) :
  Mat_wf m -> in_bounds m r c = true ->
  exists m', Mat_set m r c v = Done m' /\ Mat_wf m' /\ same_shape m' m /\
             Mat_at m' r c = Done v /\
             forall r' c', (r', c') <> (r, c) -> Mat_at m' r' c' = Mat_at m r' c'.
Proof.
  intros Hwf Hb. pose proof (index_lt m r c Hwf Hb) as Hlt.
  unfold Mat_set. rewrite Hb. destruct (decide _) as [_ | Hn]; [| contradiction].
  eexists. split; [reflexivity |].
  destruct Hwf as (Hr & Hc & Hl).
  repeat split; simpl; try assumption.
  - rewrite length_insert. assumption.
  - unfold Mat_at, in_bounds in *. simpl. rewrite Hb.
    rewrite list_lookup_insert_eq by assumption. reflexivity.
  - intros r' c' Hne. unfold Mat_at. simpl.
    replace (in_bounds (mkMat (rows m) (cols m) (type m)
               (<[Z.to_nat (r * cols m + c):=v]> (data m))) r' c')
      with (in_bounds m r' c') by reflexivity.
    destruct (in_bounds m r' c') eqn:Hb'; [| reflexivity].
    rewrite list_lookup_insert_ne; [reflexivity |].
    intros E. apply in_bounds_true in Hb, Hb'.
    apply index_inj in E; [| lia | lia | lia | lia].
    destruct E; subst; contradiction.
Qed.

Lemma Mat_set_same {A : Type} (m : Mat A) (r c : Z) (v : A) :
  Mat_wf m -> Mat_at m r c = Done v -> Mat_set m r c v = Done m.
Proof.
  intros Hwf Hat. pose proof (Mat_at_in_bounds _ _ _ _ Hat) as Hb.
  pose proof (index_lt m r c Hwf Hb) as Hlt.
  unfold Mat_set, Mat_at in *. rewrite Hb in *.
  destruct (decide _) as [_ | Hn]; [| contradiction].
  destruct (data m !! Z.to_nat (r * cols m + c)) as [w|] eqn:E; [| discriminate].
  injection Hat as ->. rewrite list_insert_id by assumption.
  destruct m; reflexivity.
Qed.

(** A loop nest over a window of rows and columns whose body rewrites the
    one element [(r + dy, c + dx)] from its current value. *)
Section PixelLoop.

Context {A : Type}.
Variable body : Z -> Z -> Mat A -> outcome (Mat A).
Variable upd : Z -> Z -> A -> A.
Variables dy dx lo_r lo_c : Z.
Variables n_r n_c : nat.
Variable m0 : Mat A.

Hypothesis wf0 : Mat_wf m0.
Hypothesis window_ok :
  forall r c, in_window lo_r lo_c n_r n_c r c -> in_bounds m0 (r + dy) (c + dx) = true.
Hypothesis body_spec :
  forall r c m v, in_window lo_r lo_c n_r n_c r c -> Mat_wf m -> same_shape m m0 ->
    Mat_at m (r + dy) (c + dx) = Done v ->
    body r c m = Mat_set m (r + dy) (c + dx) (upd r c v).

Lemma same_shape_bounds (m : Mat A) (r c : Z) :
  same_shape m m0 -> in_bounds m r c = in_bounds m0 r c.
Proof. intros (Hr & Hc & _). unfold in_bounds. rewrite Hr, Hc. reflexivity. Qed.

Lemma loop_inv_step (r c : Z) (m : Mat A) :
  in_window lo_r lo_c n_r n_c r c -> loop_inv upd dy dx lo_r lo_c n_c m0 r c m ->
  exists m', body r c m = Done m' /\ loop_inv upd dy dx lo_r lo_c n_c m0 r (c + 1) m'.
Proof.
  intros Hw (Hwf & Hsh & Hpt).
  pose proof (window_ok r c Hw) as Hb0.
  destruct (Mat_at_Done m0 _ _ wf0 Hb0) as [v0 Hv0].
  destruct (Hpt _ _ _ Hv0) as [_ Hun].
  assert (Hcur : Mat_at m (r + dy) (c + dx) = Done v0).
  { apply Hun. unfold visited. lia. }
  rewrite (body_spec r c m v0 Hw Hwf Hsh Hcur).
  assert (Hb : in_bounds m (r + dy) (c + dx) = true)
    by (rewrite same_shape_bounds; assumption).
  destruct (Mat_set_spec m _ _ (upd r c v0) Hwf Hb)
    as (m' & E & Hwf' & Hsh' & Hnew & Hold).
  exists m'. split; [assumption |]. split; [assumption |]. split.
  { destruct Hsh as (? & ? & ?), Hsh' as (? & ? & ?). unfold same_shape. 
    repeat split; congruence. }
  intros r' c' w0 Hw0.
  destruct (decide ((r', c') = (r + dy, c + dx))) as [Heq | Hne].
  - injection Heq as -> ->. rewrite Hv0 in Hw0. injection Hw0 as <-.
    split.
    + intros _. rewrite Hnew. f_equal. f_equal; lia.
    + intros Hnv. exfalso. apply Hnv. unfold visited. destruct Hw. lia.
  - rewrite (Hold _ _ Hne). destruct (Hpt _ _ _ Hw0) as [Hv Hnv].
    split.
    + intros Hvis. apply Hv. unfold visited in *.
      assert (r' - dy <> r \/ c' - dx <> c).
      { destruct (decide (r' - dy = r)); [| lia].
        destruct (decide (c' - dx = c)); [| lia].
        exfalso. apply Hne. f_equal; lia. }
      lia.
    + intros Hnvis. apply Hnv. unfold visited in *. lia.
Qed.

Lemma loop_inv_row (r : Z) (m : Mat A) :
  lo_r <= r < lo_r + Z.of_nat n_r -> loop_inv upd dy dx lo_r lo_c n_c m0 r lo_c m ->
  exists m', for_loop n_c lo_c (fun c m => body r c m) m = Done m' /\
             loop_inv upd dy dx lo_r lo_c n_c m0 (r + 1) lo_c m'.
Proof.
  intros Hr Hinv.
  destruct (for_loop_inv (fun c m => loop_inv upd dy dx lo_r lo_c n_c m0 r c m) (fun c m => body r c m)
              n_c lo_c m Hinv) as (m' & E & Hfin).
  { intros c s Hc Hs. apply loop_inv_step; [split; assumption | assumption]. }
  exists m'. split; [assumption |].
  destruct Hfin as (Hwf & Hsh & Hpt). split; [assumption |]. split; [assumption |].
  intros r' c' v0 Hv0. destruct (Hpt _ _ _ Hv0) as [Hv Hnv]. split.
  - intros Hvis. apply Hv. unfold visited in *. lia.
  - intros Hnvis. apply Hnv. unfold visited in *. lia.
Qed.

Lemma pixel_loop :
  exists m', for_loop n_r lo_r
               (fun r m => for_loop n_c lo_c (fun c m => body r c m) m) m0 = Done m' /\
             Mat_wf m' /\ same_shape m' m0 /\
             forall r' c' v0, Mat_at m0 r' c' = Done v0 ->
               (in_window lo_r lo_c n_r n_c (r' - dy) (c' - dx) ->
                Mat_at m' r' c' = Done (upd (r' - dy) (c' - dx) v0)) /\
               (~ in_window lo_r lo_c n_r n_c (r' - dy) (c' - dx) -> Mat_at m' r' c' = Done v0).
Proof.
  destruct (for_loop_inv (fun r m => loop_inv upd dy dx lo_r lo_c n_c m0 r lo_c m)
              (fun r m => for_loop n_c lo_c (fun c m => body r c m) m)
              n_r lo_r m0) as (m' & E & Hwf & Hsh & Hpt).
  { split; [assumption |]. split; [repeat split |].
    intros r' c' v0 Hv0. split; [| auto].
    unfold visited. lia. }
  { intros r m Hr Hinv. apply loop_inv_row; assumption. }
  exists m'. split; [assumption |]. split; [assumption |]. split; [assumption |].
  intros r' c' v0 Hv0. destruct (Hpt _ _ _ Hv0) as [Hv Hnv]. split.
  - intros Hw. apply Hv. unfold visited, in_window in *. lia.
  - intros Hnw. apply Hnv. unfold visited, in_window in *. lia.
Qed.

End PixelLoop.

(** ** Makeup::pack *)

Lemma buf_get_lookup {A : Type} (buf : list A) (i : nat) (v : A) :
  buf !! i = Some v -> buf_get buf (Z.of_nat i) = Done v.
Proof.
  intros H. unfold buf_get.
  destruct (Z.leb_spec 0 (Z.of_nat i)); [| lia].
  rewrite Nat2Z.id, H. reflexivity.
Qed.

(** A loop that stores [g i] into slot [i] of a buffer of [N] slots fills
    the whole buffer. *)
Lemma fill_loop {B : Type} (body : Z -> list B -> outcome (list B)) (g : Z -> B)
    (N : nat) (buf0 : list B) :
  length buf0 = N ->
  (forall i buf, 0 <= i < Z.of_nat N -> body i buf = buf_set buf i (g i)) ->
  exists buf, for_loop N 0 body buf0 = Done buf /\
              length buf = N /\
              forall i : nat, (i < N)%nat -> buf !! i = Some (g (Z.of_nat i)).
Proof.
  intros Hlen Hbody.
  destruct (for_loop_inv
              (fun i buf => length buf = N /\
                 forall j : nat, Z.of_nat j < i -> buf !! j = Some (g (Z.of_nat j)))
              body N 0 buf0)
    as (buf & E & Hl & Hpt).
  - split; [assumption |]. intros j Hj. lia.
  - intros i buf Hi (Hl & Hpt). rewrite (Hbody i) by lia.
    unfold buf_set.
    destruct (Z.leb_spec 0 i); [| lia].
    destruct (Z.ltb_spec i (Z.of_nat (length buf))); [| lia]. simpl.
    eexists. split; [reflexivity |]. split.
    + rewrite length_insert. assumption.
    + intros j Hj. destruct (decide (j = Z.to_nat i)) as [-> | Hne].
      * rewrite list_lookup_insert_eq by lia. rewrite Z2Nat.id by lia. reflexivity.
      * rewrite list_lookup_insert_ne by lia. apply Hpt. lia.
  - exists buf. split; [assumption |]. split; [assumption |].
    intros i Hi. apply Hpt. lia.
Qed.










(** ** Makeup::blend *)

Lemma overlap_spec {A B : Type} (dst : Mat A) (src : Mat B) (origin : Point2i) :
  0 <= width (overlap dst src origin) /\ 0 <= height (overlap dst src origin) /\
  forall r c, in_rect (overlap dst src origin) r c <->
              in_bounds dst r c = true /\
              in_bounds src (r - iy origin) (c - ix origin) = true.
Proof.
  unfold overlap, rect_and. simpl.
  destruct (Z.leb_spec (Z.min (0 + cols dst) (ix origin + cols src) - Z.max 0 (ix origin)) 0);
    destruct (Z.leb_spec (Z.min (0 + rows dst) (iy origin + rows src) - Z.max 0 (iy origin)) 0);
    simpl; (split; [lia |]); (split; [lia |]);
    intros r c; rewrite !in_bounds_true; unfold in_rect; simpl; lia.
Qed.

Section BlendProofs.

Variable Pixel : Type.
Variable mix : Pixel -> Pixel -> R -> Pixel.

Lemma blend_loop_spec (dst src : Mat Pixel) (origin : Point2i) (amount : R) :
  Mat_wf dst -> Mat_wf src ->
  exists result,
    blend_loop mix src origin amount (overlap dst src origin) dst = Done result /\
    Mat_wf result /\ same_shape result dst /\
    forall r c d, Mat_at dst r c = Done d ->
      (in_rect (overlap dst src origin) r c ->
       exists s, Mat_at src (r - iy origin) (c - ix origin) = Done s /\
                 Mat_at result r c = Done (mix d s amount)) /\
      (~ in_rect (overlap dst src origin) r c -> Mat_at result r c = Done d).
Proof.
  intros Hd Hs.
  destruct (overlap_spec dst src origin) as (Hw & Hh & Hin).
  set (rect := overlap dst src origin) in *.
  assert (Hwin : forall r c,
             in_window (rect_y rect) (rect_x rect) (Z.to_nat (height rect))
                       (Z.to_nat (width rect)) r c <-> in_rect rect r c).
  { intros r c. unfold in_window, in_rect. rewrite !Z2Nat.id by assumption. tauto. }
  destruct (pixel_loop
              (fun r c result =>
                 src_color <- Mat_at src (r - iy origin) (c - ix origin) ;;
                 dst_color <- Mat_at result r c ;;
                 Mat_set result r c (mix dst_color src_color amount))
              (blend_upd Pixel mix src origin amount) 0 0 (rect_y rect) (rect_x rect)
              (Z.to_nat (height rect)) (Z.to_nat (width rect)) dst Hd)
    as (result & E & Hwf & Hsh & Hpt).
  - intros r c Hrc. rewrite !Z.add_0_r. apply Hwin, Hin in Hrc. tauto.
  - intros r c m v Hrc Hm Hshape Hv. rewrite !Z.add_0_r in *.
    apply Hwin, Hin in Hrc. destruct Hrc as [_ Hsb].
    destruct (Mat_at_Done src _ _ Hs Hsb) as [s Hsv].
    unfold blend_upd. rewrite Hsv, Hv. reflexivity.
  - exists result. split; [exact E |]. split; [assumption |]. split; [assumption |].
    intros r c d Hdv. destruct (Hpt r c d Hdv) as [Hin' Hout].
    rewrite !Z.sub_0_r in *. split.
    + intros Hr. pose proof Hr as Hr'. apply Hin in Hr'. destruct Hr' as [_ Hsb].
      destruct (Mat_at_Done src _ _ Hs Hsb) as [s Hsv].
      exists s. split; [assumption |].
      rewrite Hin' by (apply Hwin; assumption).
      unfold blend_upd. rewrite Hsv. reflexivity.
    + intros Hr. apply Hout. rewrite Hwin. assumption.
Qed.

(** The rectangular blend on the two formats it dispatches on. *)
Lemma blend_supported (dst src : Mat Pixel) (origin : Point2i) (amount : R) :
  Mat_empty src = false -> type src = type dst ->
  type dst = CV_8UC4 \/ type dst = CV_32FC4 ->
  blend mix dst src origin amount
  = blend_loop mix src origin amount (overlap dst src origin) dst.
Proof.
  intros He Ht Hty. unfold blend. rewrite He, Ht. fold (overlap dst src origin).
  destruct Hty as [-> | ->]; reflexivity.
Qed.

End BlendProofs.

Lemma in_rect_dec (rect : Rect) (r c : Z) : in_rect rect r c \/ ~ in_rect rect r c.
Proof. unfold in_rect. lia. Qed.

Lemma Mat_at_cases {A : Type} (m : Mat A) (r c : Z) :
  Mat_wf m ->
  (exists v, Mat_at m r c = Done v) \/
  (in_bounds m r c = false /\ Mat_at m r c = OutOfBounds).
Proof.
  intros Hwf. destruct (in_bounds m r c) eqn:Hb.
  - left. apply Mat_at_Done; assumption.
  - right. split; [reflexivity |]. unfold Mat_at. rewrite Hb. reflexivity.
Qed.

Lemma Mat_at_oob_shape {A : Type} (m m0 : Mat A) (r c : Z) :
  same_shape m m0 -> in_bounds m0 r c = false -> Mat_at m r c = OutOfBounds.
Proof.
  intros (Hr & Hc & _) Hb. unfold Mat_at.
  replace (in_bounds m r c) with (in_bounds m0 r c)
    by (unfold in_bounds; rewrite Hr, Hc; reflexivity).
  rewrite Hb. reflexivity.
Qed.

Lemma mix_lerp_0 (d s : Vec4f) : mix_lerp d s 0%R = d.
Proof. destruct d, s. unfold mix_lerp. simpl. f_equal; ring. Qed.

Lemma mix_lerp_1 (d s : Vec4f) : mix_lerp d s 1%R = s.
Proof. destruct d, s. unfold mix_lerp. simpl. f_equal; ring. Qed.

(** C5: for well-formed images of one supported type and any origin, the
    rectangular blend returns normally; with amount 0 every pixel of the
    result equals [dst]; with amount 1 every pixel [(r, c)] of [dst] that the
    placed source covers, that is with [(r - origin.y, c - origin.x)] inside
    [src], equals that [src] pixel; for any amount every other pixel equals
    [dst], also when the source covers [dst] partly or not at all.  [mix] is
    any function with [mix d s 0 = d] and [mix d s 1 = s], as the linear
    interpolation of the specification. *)
Theorem blend_identity_laws (Pixel : Type) (mix : Pixel -> Pixel -> R -> Pixel)
    (dst src : Mat Pixel) (origin : Point2i) (amount : R) :
  (forall d s, mix d s 0%R = d) ->
  (forall d s, mix d s 1%R = s) ->
  Mat_wf dst -> Mat_wf src -> Mat_empty src = false -> type src = type dst ->
  type dst = CV_8UC4 \/ type dst = CV_32FC4 ->
  (exists result,
      blend mix dst src origin 0%R = Done result /\ same_shape result dst /\
      forall r c, Mat_at result r c = Mat_at dst r c) /\
  (exists result,
      blend mix dst src origin 1%R = Done result /\
      forall r c,
        0 <= r < rows dst -> 0 <= c < cols dst ->
        0 <= r - iy origin < rows src -> 0 <= c - ix origin < cols src ->
        exists s, Mat_at src (r - iy origin) (c - ix origin) = Done s /\
                  Mat_at result r c = Done s) /\
  (exists result,
      blend mix dst src origin amount = Done result /\ same_shape result dst /\
      forall r c,
        ~ (0 <= r < rows dst /\ 0 <= c < cols dst /\
           0 <= r - iy origin < rows src /\ 0 <= c - ix origin < cols src) ->
        Mat_at result r c = Mat_at dst r c).
Proof.
  intros H0 H1 Hd Hs He Ht Hty.
  rewrite !(blend_supported Pixel mix dst src origin _ He Ht Hty).
  destruct (overlap_spec dst src origin) as (_ & _ & Hin).
  split; [| split].
  - destruct (blend_loop_spec Pixel mix dst src origin 0%R Hd Hs)
      as (result & E & Hwf & Hsh & Hpt).
    exists result. split; [assumption |]. split; [assumption |].
    intros r c. destruct (Mat_at_cases dst r c Hd) as [[d Hdv] | [Hb Hoob]].
    + rewrite Hdv. destruct (Hpt r c d Hdv) as [Hi Hout].
      destruct (in_rect_dec (overlap dst src origin) r c) as [Hr | Hr].
      * destruct (Hi Hr) as (s & _ & Hres). rewrite Hres, H0. reflexivity.
      * apply Hout. assumption.
    + rewrite Hoob. apply Mat_at_oob_shape with dst; assumption.
  - destruct (blend_loop_spec Pixel mix dst src origin 1%R Hd Hs)
      as (result & E & Hwf & Hsh & Hpt).
    exists result. split; [assumption |].
    intros r c Hr1 Hc1 Hr2 Hc2.
    assert (Hdb : in_bounds dst r c = true) by (apply in_bounds_true; lia).
    assert (Hr : in_rect (overlap dst src origin) r c).
    { apply Hin. split; [assumption |]. apply in_bounds_true. lia. }
    destruct (Mat_at_Done dst r c Hd Hdb) as [d Hdv].
    destruct (Hpt r c d Hdv) as [Hi _]. destruct (Hi Hr) as (s & Hsv & Hres).
    exists s. split; [assumption |]. rewrite Hres, H1. reflexivity.
  - destruct (blend_loop_spec Pixel mix dst src origin amount Hd Hs)
      as (result & E & Hwf & Hsh & Hpt).
    exists result. split; [assumption |]. split; [assumption |].
    intros r c Hn.
    assert (Hr : ~ in_rect (overlap dst src origin) r c).
    { intros Hr. apply Hin in Hr. rewrite !in_bounds_true in Hr. apply Hn. lia. }
    destruct (Mat_at_cases dst r c Hd) as [[d Hdv] | [Hb Hoob]].
    + rewrite Hdv. apply (Hpt r c d Hdv). assumption.
    + rewrite Hoob. apply Mat_at_oob_shape with dst; assumption.
Qed.

Lemma blend_identity_laws_witness :
  (exists result,
      blend mix_lerp ex_dst ex_src (mkPoint2i 1 1) 0%R = Done result /\
      same_shape result ex_dst /\
      forall r c, Mat_at result r c = Mat_at ex_dst r c) /\
  (exists result,
      blend mix_lerp ex_dst ex_src (mkPoint2i 1 1) 1%R = Done result /\
      forall r c,
        0 <= r < 2 -> 0 <= c < 2 -> 0 <= r - 1 < 2 -> 0 <= c - 1 < 2 ->
        exists s, Mat_at ex_src (r - 1) (c - 1) = Done s /\
                  Mat_at result r c = Done s) /\
  (exists result,
      blend mix_lerp ex_dst ex_src (mkPoint2i 1 1) (1 / 2)%R = Done result /\
      same_shape result ex_dst /\
      forall r c,
        ~ (0 <= r < 2 /\ 0 <= c < 2 /\ 0 <= r - 1 < 2 /\ 0 <= c - 1 < 2) ->
        Mat_at result r c = Mat_at ex_dst r c).
Proof.
  apply (blend_identity_laws Vec4f mix_lerp ex_dst ex_src (mkPoint2i 1 1) (1 / 2)%R
           mix_lerp_0 mix_lerp_1).
  - repeat split; simpl; lia.
  - repeat split; simpl; lia.
  - reflexivity.
  - reflexivity.
  - right. reflexivity.
Defined.

(** ** The masked blend *)

Lemma MatType_eqb_eq (a b : MatType) : MatType_eqb a b = true <-> a = b.
Proof.
  destruct a as [da ca], b as [db cb]. unfold MatType_eqb. simpl.
  rewrite andb_true_iff, Z.eqb_eq. split.
  - intros [Hd ->]. destruct da, db; try discriminate; reflexivity.
  - intros E. injection E as -> ->. destruct db; auto.
Qed.

Lemma contains_rect_mask (mask : Mat Z) (pos : Point2i) :
  contains (rect_mask mask) pos = in_bounds mask (iy pos) (ix pos).
Proof.
  apply eq_true_iff_eq. rewrite in_bounds_true.
  unfold contains, rect_mask. simpl.
  rewrite !andb_true_iff, !Z.leb_le, !Z.ltb_lt. lia.
Qed.

(** A loop whose body either fails an assertion or leaves the state as it
    is: it fails exactly when some iteration does. *)
Lemma for_loop_gate {St : Type} (bad : Z -> Prop) (body : Z -> St -> outcome St) :
  forall (n : nat) (lo : Z) (s : St),
    (forall i s', lo <= i < lo + Z.of_nat n ->
                  (bad i /\ body i s' = AssertionFailed) \/
                  (~ bad i /\ body i s' = Done s')) ->
    ((exists i, lo <= i < lo + Z.of_nat n /\ bad i) /\
     for_loop n lo body s = AssertionFailed) \/
    ((forall i, lo <= i < lo + Z.of_nat n -> ~ bad i) /\
     for_loop n lo body s = Done s).
Proof.
  induction n as [|n IH]; intros lo s Hbody; simpl.
  - right. split; [intros i Hi; lia | reflexivity].
  - destruct (Hbody lo s) as [[Hb E] | [Hnb E]]; [lia | |]; rewrite E; simpl.
    + left. split; [| reflexivity]. exists lo. split; [lia | assumption].
    + destruct (IH (lo + 1) s) as [[(i & Hi & Hb) E'] | [Hall E']].
      { intros i s' Hi. apply Hbody. lia. }
      * left. split; [| assumption]. exists i. split; [lia | assumption].
      * right. split; [| assumption]. intros i Hi.
        destruct (Z.eq_dec i lo) as [-> | Hne]; [assumption | apply Hall; lia].
Qed.

Section MaskedBlendProofs.

Variable Pixel : Type.
Variable mix : Pixel -> Pixel -> R -> Pixel.

Lemma blend_masked_body_gate (dst_type : MatType) (src : Mat Pixel) (mask : Mat Z)
    (origin : Point2i) (amount : R) (r c : Z) (result : Mat Pixel) :
  Mat_wf mask ->
  blend_masked_body Pixel mix dst_type src mask origin amount r c result
  = if gate_open src mask origin r c
    then blend_masked_pixel mix src amount dst_type r c (r - iy origin) (c - ix origin) result
    else Done result.
Proof.
  intros Hm. unfold blend_masked_body, gate_open, mask_position.
  fold (rect_mask mask). cbv zeta.
  set (pos := mkPoint2i _ _).
  destruct (contains (rect_mask mask) pos) eqn:Hc; simpl; [| reflexivity].
  rewrite contains_rect_mask in Hc.
  destruct (Mat_at_Done mask _ _ Hm Hc) as [m Hmv]. simpl in Hmv. rewrite Hmv. simpl.
  destruct (m =? 0); reflexivity.
Qed.

Lemma blend_masked_unfold (dst src : Mat Pixel) (mask : Mat Z) (origin : Point2i)
    (amount : R) :
  type src = type dst -> type mask = CV_8UC1 ->
  blend_masked mix dst src mask origin amount
  = for_loop (Z.to_nat (height (overlap dst src origin))) (rect_y (overlap dst src origin))
      (fun r result =>
         for_loop (Z.to_nat (width (overlap dst src origin)))
           (rect_x (overlap dst src origin))
           (fun c result => blend_masked_body Pixel mix (type dst) src mask origin amount r c result)
           result)
      dst.
Proof.
  intros Ht Hm. unfold blend_masked. rewrite Ht, Hm.
  rewrite Z.eqb_refl. simpl.
  replace (Depth_eqb (depth (type dst)) (depth (type dst))) with true
    by (destruct (depth (type dst)); reflexivity).
  reflexivity.
Qed.

Lemma blend_masked_spec (dst src : Mat Pixel) (mask : Mat Z) (origin : Point2i)
    (amount : R) :
  Mat_wf dst -> Mat_wf src -> Mat_wf mask ->
  type src = type dst -> type mask = CV_8UC1 ->
  blend_masked_supported_type (type dst) = true ->
  exists result,
    blend_masked mix dst src mask origin amount = Done result /\
    Mat_wf result /\ same_shape result dst /\
    forall r c d, Mat_at dst r c = Done d ->
      (in_rect (overlap dst src origin) r c ->
       Mat_at result r c = Done (blend_masked_upd Pixel mix src mask origin amount r c d)) /\
      (~ in_rect (overlap dst src origin) r c -> Mat_at result r c = Done d).
Proof.
  intros Hd Hs Hm Ht Hmt Hsup.
  rewrite (blend_masked_unfold dst src mask origin amount Ht Hmt).
  destruct (overlap_spec dst src origin) as (Hw & Hh & Hin).
  set (rect := overlap dst src origin) in *.
  assert (Hwin : forall r c,
             in_window (rect_y rect) (rect_x rect) (Z.to_nat (height rect))
                       (Z.to_nat (width rect)) r c <-> in_rect rect r c).
  { intros r c. unfold in_window, in_rect. rewrite !Z2Nat.id by assumption. tauto. }
  destruct (pixel_loop
              (fun r c result => blend_masked_body Pixel mix (type dst) src mask origin amount r c result)
              (blend_masked_upd Pixel mix src mask origin amount) 0 0 (rect_y rect) (rect_x rect)
              (Z.to_nat (height rect)) (Z.to_nat (width rect)) dst Hd)
    as (result & E & Hwf & Hsh & Hpt).
  - intros r c Hrc. rewrite !Z.add_0_r. apply Hwin, Hin in Hrc. tauto.
  - intros r c m v Hrc Hmw Hshape Hv. rewrite !Z.add_0_r in *.
    apply Hwin, Hin in Hrc. destruct Hrc as [_ Hsb].
    destruct (Mat_at_Done src _ _ Hs Hsb) as [s Hsv].
    rewrite blend_masked_body_gate by assumption.
    unfold blend_masked_upd. rewrite Hsv.
    destruct (gate_open src mask origin r c).
    + unfold blend_masked_pixel. rewrite Hsv, Hv. simpl.
      unfold blend_masked_supported_type in Hsup.
      destruct (MatType_eqb (type dst) CV_8UC4); [reflexivity |].
      destruct (MatType_eqb (type dst) CV_32FC3); [reflexivity |].
      destruct (MatType_eqb (type dst) CV_32FC4); [reflexivity | discriminate].
    + symmetry. apply Mat_set_same; assumption.
  - exists result. split; [exact E |]. split; [assumption |]. split; [assumption |].
    intros r c d Hdv. destruct (Hpt r c d Hdv) as [Hin' Hout].
    rewrite !Z.sub_0_r in *. split.
    + intros Hr. apply Hin'. apply Hwin. assumption.
    + intros Hr. apply Hout. rewrite Hwin. assumption.
Qed.

End MaskedBlendProofs.

(** C6: in the masked blend on well-formed images of a dispatched type, take
    a pixel [(r, c)] of [dst] that the placed source covers and map it to the
    mask position [(r - origin.y - (src.rows - mask.rows) / 2,
    c - origin.x - (src.cols - mask.cols) / 2)], the division truncating.  If
    that position is outside the mask, or the mask sample there is 0, the
    pixel keeps the value of [dst] for any amount; if the sample is not 0 the
    pixel becomes [mix dst src amount], whatever the (nonzero) mask value. *)
Theorem masked_blend_gating (Pixel : Type) (mix : Pixel -> Pixel -> R -> Pixel)
    (dst src : Mat Pixel) (mask : Mat Z) (origin : Point2i) (amount : R) :
  Mat_wf dst -> Mat_wf src -> Mat_wf mask ->
  type src = type dst -> type mask = CV_8UC1 ->
  blend_masked_supported_type (type dst) = true ->
  exists result,
    blend_masked mix dst src mask origin amount = Done result /\
    forall r c,
      0 <= r < rows dst -> 0 <= c < cols dst ->
      0 <= r - iy origin < rows src -> 0 <= c - ix origin < cols src ->
      let mr := r - iy origin - (rows src - rows mask) ÷ 2 in
      let mc := c - ix origin - (cols src - cols mask) ÷ 2 in
      exists d s,
        Mat_at dst r c = Done d /\
        Mat_at src (r - iy origin) (c - ix origin) = Done s /\
        (~ (0 <= mr < rows mask /\ 0 <= mc < cols mask) ->
         Mat_at result r c = Done d) /\
        (0 <= mr < rows mask -> 0 <= mc < cols mask ->
         exists m,
           Mat_at mask mr mc = Done m /\
           (m = 0 -> Mat_at result r c = Done d) /\
           (m <> 0 -> Mat_at result r c = Done (mix d s amount))).
Proof.
  intros Hd Hs Hm Ht Hmt Hsup.
  destruct (blend_masked_spec Pixel mix dst src mask origin amount Hd Hs Hm Ht Hmt Hsup)
    as (result & E & _ & _ & Hpt).
  exists result. split; [assumption |].
  intros r c Hr1 Hc1 Hr2 Hc2 mr mc.
  assert (Hdb : in_bounds dst r c = true) by (apply in_bounds_true; lia).
  assert (Hsb : in_bounds src (r - iy origin) (c - ix origin) = true)
    by (apply in_bounds_true; lia).
  assert (Hr : in_rect (overlap dst src origin) r c).
  { destruct (overlap_spec dst src origin) as (_ & _ & Hov). apply Hov. auto. }
  destruct (Mat_at_Done dst r c Hd Hdb) as [d Hdv].
  destruct (Mat_at_Done src _ _ Hs Hsb) as [s Hsv].
  exists d, s. split; [assumption |]. split; [assumption |].
  destruct (Hpt r c d Hdv) as [Hin _]. specialize (Hin Hr). rewrite Hin.
  unfold blend_masked_upd, gate_open, mask_position, rect_mask, contains.
  cbn [ix iy rect_x rect_y width height]. fold mr. fold mc. split.
  - intros Hout.
    assert (Hc : (0 <=? mc) && (mc <? 0 + cols mask) && (0 <=? mr) && (mr <? 0 + rows mask)
                 = false).
    { apply not_true_is_false. intros Hc. apply Hout.
      rewrite !andb_true_iff in Hc. lia. }
    rewrite Hc. reflexivity.
  - intros Hmr Hmc.
    assert (Hc : (0 <=? mc) && (mc <? 0 + cols mask) && (0 <=? mr) && (mr <? 0 + rows mask)
                 = true).
    { rewrite !andb_true_iff. lia. }
    rewrite Hc.
    assert (Hmb : in_bounds mask mr mc = true) by (apply in_bounds_true; lia).
    destruct (Mat_at_Done mask mr mc Hm Hmb) as [m Hmv].
    exists m. split; [assumption |]. rewrite Hmv, Hsv. simpl. split.
    + intros ->. reflexivity.
    + intros Hnz. destruct (Z.eqb_spec m 0) as [-> | _]; [contradiction |]. reflexivity.
Qed.

Lemma masked_blend_gating_witness :
  exists result,
    blend_masked mix_lerp ex_dst ex_src ex_mask (mkPoint2i 0 0) (1 / 2)%R = Done result /\
    forall r c,
      0 <= r < 2 -> 0 <= c < 2 -> 0 <= r - 0 < 2 -> 0 <= c - 0 < 2 ->
      let mr := r - 0 - (2 - 2) ÷ 2 in
      let mc := c - 0 - (2 - 2) ÷ 2 in
      exists d s,
        Mat_at ex_dst r c = Done d /\
        Mat_at ex_src (r - 0) (c - 0) = Done s /\
        (~ (0 <= mr < 2 /\ 0 <= mc < 2) -> Mat_at result r c = Done d) /\
        (0 <= mr < 2 -> 0 <= mc < 2 ->
         exists m,
           Mat_at ex_mask mr mc = Done m /\
           (m = 0 -> Mat_at result r c = Done d) /\
           (m <> 0 -> Mat_at result r c = Done (mix_lerp d s (1 / 2)%R))).
Proof.
  apply (masked_blend_gating Vec4f mix_lerp ex_dst ex_src ex_mask (mkPoint2i 0 0) (1 / 2)%R).
  - repeat split; simpl; lia.
  - repeat split; simpl; lia.
  - repeat split; simpl; lia.
  - reflexivity.
  - reflexivity.
  - reflexivity.
Defined.

(** ** Format dispatch of the two blends *)

Section DispatchProofs.

Variable Pixel : Type.
Variable mix : Pixel -> Pixel -> R -> Pixel.

Lemma blend_unsupported (dst src : Mat Pixel) (origin : Point2i) (amount : R) :
  blend_supported_type (type dst) = false ->
  blend mix dst src origin amount = AssertionFailed.
Proof.
  intros Hu. unfold blend_supported_type in Hu. apply orb_false_iff in Hu.
  destruct Hu as [H8 H32]. unfold blend. rewrite H8, H32.
  destruct (negb (Mat_empty src) && _); reflexivity.
Qed.

Lemma blend_masked_unsupported (dst src : Mat Pixel) (mask : Mat Z) (origin : Point2i)
    (amount : R) :
  Mat_wf mask -> type src = type dst -> type mask = CV_8UC1 ->
  blend_masked_supported_type (type dst) = false ->
  ((exists r c, in_rect (overlap dst src origin) r c /\
                gate_open src mask origin r c = true) /\
   blend_masked mix dst src mask origin amount = AssertionFailed) \/
  ((forall r c, in_rect (overlap dst src origin) r c ->
                gate_open src mask origin r c = false) /\
   blend_masked mix dst src mask origin amount = Done dst).
Proof.
  intros Hm Ht Hmt Hu.
  rewrite (blend_masked_unfold Pixel mix dst src mask origin amount Ht Hmt).
  destruct (overlap_spec dst src origin) as (Hw & Hh & _).
  set (rect := overlap dst src origin) in *.
  unfold blend_masked_supported_type in Hu. apply orb_false_iff in Hu.
  destruct Hu as [Hu H32]. apply orb_false_iff in Hu. destruct Hu as [H8 H33].
  assert (Hbody : forall r c s,
             (gate_open src mask origin r c = true /\
              blend_masked_body Pixel mix (type dst) src mask origin amount r c s
              = AssertionFailed) \/
             (gate_open src mask origin r c <> true /\
              blend_masked_body Pixel mix (type dst) src mask origin amount r c s = Done s)).
  { intros r c s. rewrite blend_masked_body_gate by assumption.
    destruct (gate_open src mask origin r c).
    - left. split; [reflexivity |]. unfold blend_masked_pixel. rewrite H8, H33, H32.
      reflexivity.
    - right. split; [discriminate | reflexivity]. }
  destruct (for_loop_gate
              (fun r => exists c, rect_x rect <= c < rect_x rect + Z.of_nat (Z.to_nat (width rect))
                                  /\ gate_open src mask origin r c = true)
              (fun r result =>
                 for_loop (Z.to_nat (width rect)) (rect_x rect)
                   (fun c result =>
                      blend_masked_body Pixel mix (type dst) src mask origin amount r c result)
                   result)
              (Z.to_nat (height rect)) (rect_y rect) dst)
    as [[(r & Hr & c & Hc & Hg) E] | [Hall E]].
  - intros r s _.
    destruct (for_loop_gate
                (fun c => gate_open src mask origin r c = true)
                (fun c result =>
                   blend_masked_body Pixel mix (type dst) src mask origin amount r c result)
                (Z.to_nat (width rect)) (rect_x rect) s)
      as [[Hex E] | [Hall E]].
    + intros c s' _. apply Hbody.
    + left. split; assumption.
    + right. split; [| assumption]. intros (c & Hc & Hg). exact (Hall c Hc Hg).
  - left. split; [| assumption]. exists r, c. split; [| assumption].
    unfold in_rect. rewrite !Z2Nat.id in * by assumption. lia.
  - right. split; [| assumption]. intros r c (Hr & Hc).
    destruct (gate_open src mask origin r c) eqn:Hg; [| reflexivity].
    exfalso. apply (Hall r); [rewrite Z2Nat.id by assumption; lia |].
    exists c. split; [rewrite Z2Nat.id by assumption; lia | assumption].
Qed.

End DispatchProofs.

(** C2, as stated, fails on CV_8UC3, which the specification lists as
    supported: the rectangular blend stops at an assertion and the masked
    blend reaches the [default] branch at the first gated pixel. *)
Lemma blend_8UC3_counterexample :
  ~ blend_dispatch_spec mix_replace ex_rgb ex_rgb ex_mask1 (mkPoint2i 0 0) 1%R.
Proof.
  intros H. destruct (H eq_refl) as [_ [result E]].
  assert (F : blend_masked mix_replace ex_rgb ex_rgb ex_mask1 (mkPoint2i 0 0) 1%R
              = AssertionFailed) by reflexivity.
  rewrite F in E. discriminate.
Qed.

(** C2 (amended): on well-formed images of one type, the rectangular blend
    runs to the end exactly for CV_8UC4 and CV_32FC4 (the three-channel cases
    are compiled out) and fails an assertion for every other type; the masked
    blend runs to the end for CV_8UC4, CV_32FC3 and CV_32FC4, and for every
    other type it reaches the failing [default] branch as soon as one pixel
    of the overlap passes the mask gate, and returns [dst] unchanged when
    none does. *)
Theorem blend_dispatch (Pixel : Type) (mix : Pixel -> Pixel -> R -> Pixel)
    (dst src : Mat Pixel) (mask : Mat Z) (origin : Point2i) (amount : R) :
  Mat_wf dst -> Mat_wf src -> Mat_wf mask -> Mat_empty src = false ->
  type src = type dst -> type mask = CV_8UC1 ->
  (forall t, blend_supported_type t = true <-> t = CV_8UC4 \/ t = CV_32FC4) /\
  (forall t, blend_masked_supported_type t = true <->
             t = CV_8UC4 \/ t = CV_32FC3 \/ t = CV_32FC4) /\
  (blend_supported_type (type dst) = true ->
   exists result, blend mix dst src origin amount = Done result) /\
  (blend_supported_type (type dst) = false ->
   blend mix dst src origin amount = AssertionFailed) /\
  (blend_masked_supported_type (type dst) = true ->
   exists result, blend_masked mix dst src mask origin amount = Done result) /\
  (blend_masked_supported_type (type dst) = false ->
   ((exists r c, in_rect (overlap dst src origin) r c /\
                 gate_open src mask origin r c = true) /\
    blend_masked mix dst src mask origin amount = AssertionFailed) \/
   ((forall r c, in_rect (overlap dst src origin) r c ->
                 gate_open src mask origin r c = false) /\
    blend_masked mix dst src mask origin amount = Done dst)).
Proof.
  intros Hd Hs Hm He Ht Hmt.
  assert (T1 : forall t, blend_supported_type t = true <-> t = CV_8UC4 \/ t = CV_32FC4).
  { intros t. unfold blend_supported_type.
    rewrite orb_true_iff, !MatType_eqb_eq. tauto. }
  assert (T2 : forall t, blend_masked_supported_type t = true <->
                         t = CV_8UC4 \/ t = CV_32FC3 \/ t = CV_32FC4).
  { intros t. unfold blend_masked_supported_type.
    rewrite !orb_true_iff, !MatType_eqb_eq. tauto. }
  split; [exact T1 |]. split; [exact T2 |]. repeat split.
  - intros Hsup. apply T1 in Hsup.
    rewrite (blend_supported Pixel mix dst src origin amount He Ht Hsup).
    destruct (blend_loop_spec Pixel mix dst src origin amount Hd Hs) as (result & E & _).
    exists result. assumption.
  - apply blend_unsupported.
  - intros Hsup.
    destruct (blend_masked_spec Pixel mix dst src mask origin amount Hd Hs Hm Ht Hmt Hsup)
      as (result & E & _).
    exists result. assumption.
  - apply blend_masked_unsupported; assumption.
Qed.

Lemma blend_dispatch_witness :
  (forall t, blend_supported_type t = true <-> t = CV_8UC4 \/ t = CV_32FC4) /\
  (forall t, blend_masked_supported_type t = true <->
             t = CV_8UC4 \/ t = CV_32FC3 \/ t = CV_32FC4) /\
  (blend_supported_type (type ex_rgb) = true ->
   exists result, blend mix_replace ex_rgb ex_rgb (mkPoint2i 0 0) 1%R = Done result) /\
  (blend_supported_type (type ex_rgb) = false ->
   blend mix_replace ex_rgb ex_rgb (mkPoint2i 0 0) 1%R = AssertionFailed) /\
  (blend_masked_supported_type (type ex_rgb) = true ->
   exists result,
     blend_masked mix_replace ex_rgb ex_rgb ex_mask1 (mkPoint2i 0 0) 1%R = Done result) /\
  (blend_masked_supported_type (type ex_rgb) = false ->
   ((exists r c, in_rect (overlap ex_rgb ex_rgb (mkPoint2i 0 0)) r c /\
                 gate_open ex_rgb ex_mask1 (mkPoint2i 0 0) r c = true) /\
    blend_masked mix_replace ex_rgb ex_rgb ex_mask1 (mkPoint2i 0 0) 1%R = AssertionFailed) \/
   ((forall r c, in_rect (overlap ex_rgb ex_rgb (mkPoint2i 0 0)) r c ->
                 gate_open ex_rgb ex_mask1 (mkPoint2i 0 0) r c = false) /\
    blend_masked mix_replace ex_rgb ex_rgb ex_mask1 (mkPoint2i 0 0) 1%R = Done ex_rgb)).
Proof.
  apply (blend_dispatch Vec3b mix_replace ex_rgb ex_rgb ex_mask1 (mkPoint2i 0 0) 1%R).
  - repeat split; simpl; lia.
  - repeat split; simpl; lia.
  - repeat split; simpl; lia.
  - reflexivity.
  - reflexivity.
  - reflexivity.
Defined.

(** ** The copy-back loop of Makeup::applyBrow *)

Section BrowProofs.

Variable lerp : Z -> Z -> Z -> Z.

Lemma copy_back_spec (dst : Mat Vec4b) (roi : Mat Vec3b) (roi_mask_with_margin : Mat Z)
    (rect : Rect) :
  copy_back_pre dst roi roi_mask_with_margin rect ->
  exists dst',
    applyBrow_copy_back lerp dst roi roi_mask_with_margin rect = Done dst' /\
    same_shape dst' dst /\
    forall r' c' p, Mat_at dst r' c' = Done p ->
      (in_rect rect r' c' ->
       Mat_at dst' r' c'
       = Done (copy_back_upd lerp roi roi_mask_with_margin (r' - rect_y rect) (c' - rect_x rect) p)) /\
      (~ in_rect rect r' c' -> Mat_at dst' r' c' = Done p).
Proof.
  intros (Hd & Hroi & Hmask & Hw & Hh & Hx0 & Hx1 & Hy0 & Hy1 & Hrc & Hrr & Hmc & Hmr).
  unfold offset in *.
  assert (Hwin : forall r c,
             in_window 0 0 (Z.to_nat (height rect)) (Z.to_nat (width rect)) r c <->
             (0 <= r < height rect /\ 0 <= c < width rect)).
  { intros r c. unfold in_window. rewrite !Z2Nat.id by assumption. lia. }
  destruct (pixel_loop
              (fun r c dst =>
                 alpha <- Mat_at roi_mask_with_margin (r + offset) (c + offset) ;;
                 if alpha =? 0 then Done dst
                 else
                   src_color <- Mat_at roi r c ;;
                   p <- Mat_at dst (r + rect_y rect) (c + rect_x rect) ;;
                   Mat_set dst (r + rect_y rect) (c + rect_x rect)
                     (mkVec4b (to_u8 (lerp (b4_0 p) (b3_0 src_color) alpha))
                              (to_u8 (lerp (b4_1 p) (b3_1 src_color) alpha))
                              (to_u8 (lerp (b4_2 p) (b3_2 src_color) alpha))
                              (b4_3 p)))
              (copy_back_upd lerp roi roi_mask_with_margin)
              (rect_y rect) (rect_x rect) 0 0
              (Z.to_nat (height rect)) (Z.to_nat (width rect)) dst Hd)
    as (dst' & E & _ & Hsh & Hpt).
  - intros r c Hrc'. apply Hwin in Hrc'. apply in_bounds_true. lia.
  - intros r c m v Hrc' Hm Hshape Hv. apply Hwin in Hrc'.
    assert (Hmb : in_bounds roi_mask_with_margin (r + offset) (c + offset) = true)
      by (apply in_bounds_true; unfold offset; lia).
    assert (Hrb : in_bounds roi r c = true) by (apply in_bounds_true; lia).
    destruct (Mat_at_Done _ _ _ Hmask Hmb) as [alpha Ha].
    destruct (Mat_at_Done _ _ _ Hroi Hrb) as [s Hs].
    unfold copy_back_upd. rewrite Ha, Hs. simpl.
    destruct (alpha =? 0).
    + symmetry. apply Mat_set_same; assumption.
    + rewrite Hv. reflexivity.
  - exists dst'. split; [exact E |]. split; [assumption |].
    intros r' c' p Hp. destruct (Hpt r' c' p Hp) as [Hin Hout]. split.
    + intros (Hr & Hc). apply Hin. apply Hwin. lia.
    + intros Hn. apply Hout. rewrite Hwin. unfold in_rect in Hn. lia.
Qed.

End BrowProofs.

(** C9: in the copy-back loop, a pixel of the brow rectangle whose mask
    sample is 0 keeps its value; at any other pixel of the rectangle the
    first three channels become [lerp] of the old channel, the patch channel
    and the mask sample, and the fourth (alpha) channel is the old one.
    Pixels outside the rectangle are untouched. *)
Theorem brow_copy_back_frame (lerp : Z -> Z -> Z -> Z) (dst : Mat Vec4b) (roi : Mat Vec3b)
    (roi_mask_with_margin : Mat Z) (rect : Rect) :
  copy_back_pre dst roi roi_mask_with_margin rect ->
  exists dst',
    applyBrow_copy_back lerp dst roi roi_mask_with_margin rect = Done dst' /\
    same_shape dst' dst /\
    (forall r c, 0 <= r < height rect -> 0 <= c < width rect ->
       exists p alpha src_color,
         Mat_at dst (r + rect_y rect) (c + rect_x rect) = Done p /\
         Mat_at roi_mask_with_margin (r + offset) (c + offset) = Done alpha /\
         Mat_at roi r c = Done src_color /\
         (alpha = 0 -> Mat_at dst' (r + rect_y rect) (c + rect_x rect) = Done p) /\
         (alpha <> 0 ->
          Mat_at dst' (r + rect_y rect) (c + rect_x rect)
          = Done (mkVec4b (to_u8 (lerp (b4_0 p) (b3_0 src_color) alpha))
                          (to_u8 (lerp (b4_1 p) (b3_1 src_color) alpha))
                          (to_u8 (lerp (b4_2 p) (b3_2 src_color) alpha))
                          (b4_3 p)))) /\
    (forall r' c', ~ in_rect rect r' c' -> Mat_at dst' r' c' = Mat_at dst r' c').
Proof.
  intros Hpre.
  destruct (copy_back_spec lerp dst roi roi_mask_with_margin rect Hpre)
    as (dst' & E & Hsh & Hpt).
  destruct Hpre as (Hd & Hroi & Hmask & Hw & Hh & Hx0 & Hx1 & Hy0 & Hy1 & Hrc & Hrr & Hmc & Hmr).
  exists dst'. split; [assumption |]. split; [assumption |]. split.
  - intros r c Hr Hc.
    assert (Hdb : in_bounds dst (r + rect_y rect) (c + rect_x rect) = true)
      by (apply in_bounds_true; lia).
    assert (Hmb : in_bounds roi_mask_with_margin (r + offset) (c + offset) = true)
      by (apply in_bounds_true; unfold offset in *; lia).
    assert (Hrb : in_bounds roi r c = true) by (apply in_bounds_true; lia).
    destruct (Mat_at_Done _ _ _ Hd Hdb) as [p Hp].
    destruct (Mat_at_Done _ _ _ Hmask Hmb) as [alpha Ha].
    destruct (Mat_at_Done _ _ _ Hroi Hrb) as [s Hs].
    exists p, alpha, s. repeat (split; [assumption |]).
    destruct (Hpt _ _ p Hp) as [Hin _].
    assert (Hir : in_rect rect (r + rect_y rect) (c + rect_x rect))
      by (unfold in_rect; lia).
    specialize (Hin Hir).
    replace (r + rect_y rect - rect_y rect) with r in Hin by lia.
    replace (c + rect_x rect - rect_x rect) with c in Hin by lia.
    unfold copy_back_upd in Hin. rewrite Ha, Hs in Hin.
    split.
    + intros ->. exact Hin.
    + intros Hnz. destruct (Z.eqb_spec alpha 0); [contradiction | exact Hin].
  - intros r' c' Hn. destruct (Mat_at_cases dst r' c' Hd) as [[p Hp] | [Hb Hoob]].
    + rewrite Hp. apply (Hpt r' c' p Hp). assumption.
    + rewrite Hoob. apply Mat_at_oob_shape with dst; assumption.
Qed.

Lemma brow_copy_back_frame_witness :
  exists dst',
    applyBrow_copy_back ex_lerp ex_brow_dst ex_brow_roi ex_brow_mask ex_brow_rect = Done dst' /\
    same_shape dst' ex_brow_dst /\
    (forall r c, 0 <= r < 1 -> 0 <= c < 1 ->
       exists p alpha src_color,
         Mat_at ex_brow_dst (r + 8) (c + 8) = Done p /\
         Mat_at ex_brow_mask (r + offset) (c + offset) = Done alpha /\
         Mat_at ex_brow_roi r c = Done src_color /\
         (alpha = 0 -> Mat_at dst' (r + 8) (c + 8) = Done p) /\
         (alpha <> 0 ->
          Mat_at dst' (r + 8) (c + 8)
          = Done (mkVec4b (to_u8 (ex_lerp (b4_0 p) (b3_0 src_color) alpha))
                          (to_u8 (ex_lerp (b4_1 p) (b3_1 src_color) alpha))
                          (to_u8 (ex_lerp (b4_2 p) (b3_2 src_color) alpha))
                          (b4_3 p)))) /\
    (forall r' c', ~ in_rect ex_brow_rect r' c' -> Mat_at dst' r' c' = Mat_at ex_brow_dst r' c').
Proof.
  apply (brow_copy_back_frame ex_lerp ex_brow_dst ex_brow_roi ex_brow_mask ex_brow_rect).
  unfold copy_back_pre, Mat_wf, offset. simpl. lia.
Defined.

(** ** Makeup::createEyeShadow *)

Lemma Mat_at_u8 (m : Mat Z) (r c v : Z) : Mat_u8 m -> Mat_at m r c = Done v -> is_u8 v.
Proof.
  unfold Mat_u8, Mat_at. intros Hu H. rewrite Forall_forall in Hu.
  destruct (in_bounds m r c); [| discriminate].
  destruct (data m !! Z.to_nat (r * cols m + c)) as [w|] eqn:E; [| discriminate].
  injection H as <-. apply Hu. apply list_elem_of_lookup. eauto.
Qed.

Lemma unpack_u8 (color : Z) :
  is_u8 (i3_0 (unpack color)) /\ is_u8 (i3_1 (unpack color)) /\ is_u8 (i3_2 (unpack color)).
Proof.
  assert (H : forall v, is_u8 (Z.land v 255)).
  { intros v. unfold is_u8. change (Z.land v 255) with (Z.land v (Z.ones 8)).
    rewrite Z.land_ones by lia. pose proof (Z.mod_pos_bound v (2 ^ 8)). lia. }
  unfold unpack. simpl. repeat split; apply H.
Qed.

Lemma accumulate_eq (m0 m1 m2 : Mat Z) (k0 k1 k2 : Vec3i) (r c a0 a1 a2 : Z) :
  Mat_at m0 r c = Done a0 -> Mat_at m1 r c = Done a1 -> Mat_at m2 r c = Done a2 ->
  0 <= a0 -> 0 <= a1 -> 0 <= a2 ->
  exists acc,
    accumulate [m0; m1; m2] [k0; k1; k2] r c = Done acc /\
    acc_rgb acc = mkVec3i (i3_0 k0 * a0 + i3_0 k1 * a1 + i3_0 k2 * a2)
                          (i3_1 k0 * a0 + i3_1 k1 * a1 + i3_1 k2 * a2)
                          (i3_2 k0 * a0 + i3_2 k1 * a1 + i3_2 k2 * a2) /\
    acc_a acc = a0 + a1 + a2 /\
    acc_a_max acc = Z.max a0 (Z.max a1 a2).
Proof.
  intros H0 H1 H2 P0 P1 P2. unfold accumulate, COUNT.
  cbn [for_loop].
  change (0 + 1 + 1) with 2. change (0 + 1) with 1.
  change (buf_get [m0; m1; m2] 0) with (Done m0).
  change (buf_get [m0; m1; m2] 1) with (Done m1).
  change (buf_get [m0; m1; m2] 2) with (Done m2).
  change (buf_get [k0; k1; k2] 0) with (Done k0).
  change (buf_get [k0; k1; k2] 1) with (Done k1).
  change (buf_get [k0; k1; k2] 2) with (Done k2).
  cbn [bind]. rewrite H0. cbn [bind]. rewrite H1. cbn [bind]. rewrite H2. cbn [bind].
  eexists. split; [reflexivity |]. cbn [acc_rgb acc_a acc_a_max].
  split; [| split].
  - unfold Vec3i_add, Vec3i_scale. simpl. f_equal; lia.
  - lia.
  - destruct (Z.ltb_spec 0 a0); cbn iota;
      match goal with |- context [?v <? a1] => destruct (Z.ltb_spec v a1) end; cbn iota;
      match goal with |- context [?v <? a2] => destruct (Z.ltb_spec v a2) end; lia.
Qed.

Lemma quot_near_quotient : near_quotient Z.quot.
Proof.
  intros n a Hn Ha. rewrite Z.quot_div_nonneg by lia.
  pose proof (Z.mod_pos_bound n a Ha). pose proof (Z.div_mod n a). lia.
Qed.

Lemma round_div_near_quotient : near_quotient round_div.
Proof.
  intros n a Hn Ha. unfold round_div.
  pose proof (Z.mod_pos_bound (2 * n + a) (2 * a)).
  pose proof (Z.div_mod (2 * n + a) (2 * a)). lia.
Qed.

Section EyeShadowProofs.

Variable USE_BGRA_LAYOUT : bool.
Variable int_div : Z -> Z -> Z.
Hypothesis int_div_near : near_quotient int_div.

Lemma int_div_bounds (n a : Z) :
  0 <= n <= 255 * a -> 0 < a -> 0 <= int_div n a <= 255.
Proof.
  intros Hn Ha. pose proof (int_div_near n a ltac:(lia) Ha) as H.
  apply Z.abs_lt in H. nia.
Qed.

Lemma int_div_exact (k v : Z) : 0 <= k -> 0 < v -> int_div (k * v) v = k.
Proof.
  intros Hk Hv. pose proof (int_div_near (k * v) v ltac:(nia) Hv) as H.
  apply Z.abs_lt in H. nia.
Qed.

Lemma merge_spec_rgb_in_u8 (k0 k1 k2 : Vec3i) (a0 a1 a2 : Z) :
  (is_u8 (i3_0 k0) /\ is_u8 (i3_1 k0) /\ is_u8 (i3_2 k0)) ->
  (is_u8 (i3_0 k1) /\ is_u8 (i3_1 k1) /\ is_u8 (i3_2 k1)) ->
  (is_u8 (i3_0 k2) /\ is_u8 (i3_1 k2) /\ is_u8 (i3_2 k2)) ->
  is_u8 a0 -> is_u8 a1 -> is_u8 a2 ->
  Vec3i_in_u8 (merge_spec_rgb int_div k0 k1 k2 a0 a1 a2) = true.
Proof.
  unfold is_u8. intros (A0 & A1 & A2) (B0 & B1 & B2) (C0 & C1 & C2) H0 H1 H2.
  unfold merge_spec_rgb. cbv zeta.
  destruct (Z.eqb_spec (a0 + a1 + a2) 0) as [E | E]; [reflexivity |].
  unfold Vec3i_in_u8. simpl.
  rewrite !andb_true_iff, !Z.leb_le.
  repeat split; apply int_div_bounds; nia.
Qed.

Lemma merge_rgb_eq (acc : Accum) (k0 k1 k2 : Vec3i) (a0 a1 a2 : Z) :
  0 <= a0 -> 0 <= a1 -> 0 <= a2 ->
  acc_rgb acc = mkVec3i (i3_0 k0 * a0 + i3_0 k1 * a1 + i3_0 k2 * a2)
                        (i3_1 k0 * a0 + i3_1 k1 * a1 + i3_1 k2 * a2)
                        (i3_2 k0 * a0 + i3_2 k1 * a1 + i3_2 k2 * a2) ->
  acc_a acc = a0 + a1 + a2 ->
  merge_rgb int_div acc = merge_spec_rgb int_div k0 k1 k2 a0 a1 a2.
Proof.
  intros P0 P1 P2 Hrgb Ha. unfold merge_rgb, merge_spec_rgb, Vec3i_div.
  rewrite Hrgb, Ha. cbv zeta.
  destruct (Z.eqb_spec (a0 + a1 + a2) 0) as [E | E]; simpl; [| reflexivity].
  assert (a0 = 0) by lia. assert (a1 = 0) by lia. assert (a2 = 0) by lia. subst.
  f_equal; lia.
Qed.

Lemma eye_pixel_body (m0 m1 m2 : Mat Z) (color_0 color_1 color_2 : Z) (r c : Z) :
  masks_ok m0 m1 m2 -> in_bounds m0 r c = true ->
  exists a0 a1 a2 acc,
    Mat_at m0 r c = Done a0 /\ Mat_at m1 r c = Done a1 /\ Mat_at m2 r c = Done a2 /\
    is_u8 a0 /\ is_u8 a1 /\ is_u8 a2 /\
    accumulate [m0; m1; m2] [unpack color_0; unpack color_1; unpack color_2] r c = Done acc /\
    merge_rgb int_div acc
    = merge_spec_rgb int_div (unpack color_0) (unpack color_1) (unpack color_2) a0 a1 a2 /\
    Vec3i_in_u8 (merge_rgb int_div acc) = true /\
    merge_pixel USE_BGRA_LAYOUT int_div acc
    = Done (eye_pixel USE_BGRA_LAYOUT int_div m0 m1 m2 color_0 color_1 color_2 r c).
Proof.
  intros (W0 & W1 & W2 & R1 & C1 & R2 & C2 & U0 & U1 & U2) Hb.
  assert (Hb1 : in_bounds m1 r c = true)
    by (unfold in_bounds in *; rewrite R1, C1; assumption).
  assert (Hb2 : in_bounds m2 r c = true)
    by (unfold in_bounds in *; rewrite R2, C2; assumption).
  destruct (Mat_at_Done m0 r c W0 Hb) as [a0 H0].
  destruct (Mat_at_Done m1 r c W1 Hb1) as [a1 H1].
  destruct (Mat_at_Done m2 r c W2 Hb2) as [a2 H2].
  pose proof (Mat_at_u8 _ _ _ _ U0 H0) as P0.
  pose proof (Mat_at_u8 _ _ _ _ U1 H1) as P1.
  pose proof (Mat_at_u8 _ _ _ _ U2 H2) as P2.
  destruct (accumulate_eq m0 m1 m2 (unpack color_0) (unpack color_1) (unpack color_2)
              r c a0 a1 a2 H0 H1 H2)
    as (acc & E & Hrgb & Ha & Hmax); [unfold is_u8 in *; lia .. |].
  assert (Hm : merge_rgb int_div acc
               = merge_spec_rgb int_div (unpack color_0) (unpack color_1) (unpack color_2)
                   a0 a1 a2).
  { apply merge_rgb_eq; [unfold is_u8 in *; lia .. | assumption | assumption]. }
  assert (Hin : Vec3i_in_u8 (merge_rgb int_div acc) = true).
  { rewrite Hm. apply merge_spec_rgb_in_u8; try assumption; apply unpack_u8. }
  exists a0, a1, a2, acc. repeat (split; [assumption |]).
  unfold merge_pixel. cbv zeta. rewrite Hin. simpl.
  unfold eye_pixel. rewrite H0, H1, H2, Hmax, <- Hm.
  unfold Vec3i_in_u8 in Hin. rewrite !andb_true_iff, !Z.leb_le in Hin.
  assert (Hmx : 0 <= Z.max a0 (Z.max a1 a2) <= 255) by (unfold is_u8 in *; lia).
  unfold layout, to_u8. rewrite !Z.mod_small by lia. reflexivity.
Qed.

Lemma createEyeShadow_spec (m0 m1 m2 : Mat Z) (color_0 color_1 color_2 : Z) :
  masks_ok m0 m1 m2 ->
  exists bitmap,
    createEyeShadow USE_BGRA_LAYOUT int_div [m0; m1; m2] [color_0; color_1; color_2]
    = Done bitmap /\
    rows bitmap = rows m0 /\ cols bitmap = cols m0 /\ type bitmap = CV_8UC4 /\
    forall r c, in_bounds m0 r c = true ->
                Mat_at bitmap r c = Done (eye_pixel USE_BGRA_LAYOUT int_div m0 m1 m2 color_0 color_1 color_2 r c).
Proof.
  intros Hok. pose proof Hok as (W0 & _).
  destruct W0 as (Hr & Hc & Hl).
  unfold createEyeShadow.
  change (buf_get [m0; m1; m2] 0) with (Done m0).
  change (buf_get [color_0; color_1; color_2] 0) with (Done color_0).
  change (buf_get [color_0; color_1; color_2] 1) with (Done color_1).
  change (buf_get [color_0; color_1; color_2] 2) with (Done color_2).
  cbn [bind].
  set (bitmap0 := mkMat (rows m0) (cols m0) CV_8UC4
                    (replicate (Z.to_nat (rows m0 * cols m0)) (mkVec4b 0 0 0 0))).
  assert (Hwf0 : Mat_wf bitmap0).
  { unfold Mat_wf, bitmap0. simpl. rewrite length_replicate. nia. }
  assert (Hwin : forall r c,
             in_window 0 0 (Z.to_nat (rows m0)) (Z.to_nat (cols m0)) r c <->
             in_bounds m0 r c = true).
  { intros r c. unfold in_window. rewrite in_bounds_true, !Z2Nat.id by assumption. lia. }
  destruct (pixel_loop
              (fun r c bitmap =>
                 acc <- accumulate [m0; m1; m2]
                          [unpack color_0; unpack color_1; unpack color_2] r c ;;
                 px <- merge_pixel USE_BGRA_LAYOUT int_div acc ;;
                 Mat_set bitmap r c px)
              (fun r c _ => eye_pixel USE_BGRA_LAYOUT int_div m0 m1 m2 color_0 color_1 color_2 r c)
              0 0 0 0 (Z.to_nat (rows m0)) (Z.to_nat (cols m0)) bitmap0 Hwf0)
    as (bitmap & E & _ & Hsh & Hpt).
  - intros r c Hrc. apply Hwin in Hrc. rewrite !Z.add_0_r. exact Hrc.
  - intros r c m v Hrc Hm Hshape Hv. apply Hwin in Hrc. rewrite !Z.add_0_r.
    destruct (eye_pixel_body m0 m1 m2 color_0 color_1 color_2 r c Hok Hrc)
      as (a0 & a1 & a2 & acc & _ & _ & _ & _ & _ & _ & Eacc & _ & _ & Epx).
    rewrite Eacc. cbn [bind]. rewrite Epx. reflexivity.
  - exists bitmap. split; [exact E |]. destruct Hsh as (Sr & Sc & St).
    repeat (split; [assumption |]).
    intros r c Hb.
    assert (Hb0 : in_bounds bitmap0 r c = true) by exact Hb.
    destruct (Mat_at_Done bitmap0 r c Hwf0 Hb0) as [v0 Hv0].
    destruct (Hpt r c v0 Hv0) as [Hin _]. rewrite !Z.sub_0_r in Hin.
    apply Hin. apply Hwin. assumption.
Qed.

End EyeShadowProofs.

Lemma unpack_bytes (color : Z) :
  unpack color = mkVec3i (color mod 256) (color / 256 mod 256) (color / 65536 mod 256).
Proof.
  unfold unpack. change 255 with (Z.ones 8).
  rewrite !Z.land_ones, !Z.shiftr_div_pow2 by lia. reflexivity.
Qed.

(** C8: [createEyeShadow] on three masks of one size stores at every pixel
    the colour (sum of [color[i] * alpha[i]]) divided by (sum of
    [alpha[i]]), or 0 when the total alpha is 0, and the largest of the three
    alphas as alpha; when exactly one mask is nonzero there, with value [v],
    the pixel has the colour components of that layer's colour and alpha
    [v].  The components of a packed colour are its low three bytes,
    [color mod 256], [color / 256 mod 256] and [color / 65536 mod 256], and
    are stored in this order, or in the reverse order in the BGRA layout. *)
Theorem eye_shadow_merge (USE_BGRA_LAYOUT : bool) (int_div : Z -> Z -> Z)
    (m0 m1 m2 : Mat Z) (color_0 color_1 color_2 : Z) :
  near_quotient int_div -> masks_ok m0 m1 m2 ->
  let rgb_of := fun color : Z =>
    mkVec3i (color mod 256) (color / 256 mod 256) (color / 65536 mod 256) in
  let stored := fun (rgb : Vec3i) (a : Z) =>
    if USE_BGRA_LAYOUT then mkVec4b (i3_2 rgb) (i3_1 rgb) (i3_0 rgb) a
    else mkVec4b (i3_0 rgb) (i3_1 rgb) (i3_2 rgb) a in
  let merged := fun (comp : Vec3i -> Z) (a0 a1 a2 : Z) =>
    if a0 + a1 + a2 =? 0 then 0
    else int_div (comp (rgb_of color_0) * a0 + comp (rgb_of color_1) * a1
                  + comp (rgb_of color_2) * a2) (a0 + a1 + a2) in
  exists bitmap,
    createEyeShadow USE_BGRA_LAYOUT int_div [m0; m1; m2] [color_0; color_1; color_2]
    = Done bitmap /\
    rows bitmap = rows m0 /\ cols bitmap = cols m0 /\
    forall r c, 0 <= r < rows m0 -> 0 <= c < cols m0 ->
      exists a0 a1 a2,
        Mat_at m0 r c = Done a0 /\ Mat_at m1 r c = Done a1 /\ Mat_at m2 r c = Done a2 /\
        Mat_at bitmap r c
        = Done (stored (mkVec3i (merged i3_0 a0 a1 a2) (merged i3_1 a0 a1 a2)
                          (merged i3_2 a0 a1 a2))
                  (Z.max a0 (Z.max a1 a2))) /\
        (a0 <> 0 -> a1 = 0 -> a2 = 0 ->
         Mat_at bitmap r c = Done (stored (rgb_of color_0) a0)) /\
        (a0 = 0 -> a1 <> 0 -> a2 = 0 ->
         Mat_at bitmap r c = Done (stored (rgb_of color_1) a1)) /\
        (a0 = 0 -> a1 = 0 -> a2 <> 0 ->
         Mat_at bitmap r c = Done (stored (rgb_of color_2) a2)).
Proof.
  intros Hnear Hok rgb_of stored merged.
  destruct (createEyeShadow_spec USE_BGRA_LAYOUT int_div Hnear m0 m1 m2
              color_0 color_1 color_2 Hok) as (bitmap & E & Hr & Hc & _ & Hpt).
  exists bitmap. repeat (split; [assumption |]).
  intros r c Hrr Hcc.
  assert (Hb : in_bounds m0 r c = true) by (apply in_bounds_true; lia).
  destruct (eye_pixel_body USE_BGRA_LAYOUT int_div Hnear m0 m1 m2 color_0 color_1 color_2
              r c Hok Hb)
    as (a0 & a1 & a2 & acc & H0 & H1 & H2 & P0 & P1 & P2 & _).
  exists a0, a1, a2. repeat (split; [assumption |]).
  rewrite (Hpt r c Hb). unfold eye_pixel. rewrite H0, H1, H2.
  pose proof (unpack_u8 color_0) as (A0 & A1 & A2).
  pose proof (unpack_u8 color_1) as (B0 & B1 & B2).
  pose proof (unpack_u8 color_2) as (C0 & C1 & C2).
  rewrite !unpack_bytes in *.
  fold (rgb_of color_0) in *. fold (rgb_of color_1) in *. fold (rgb_of color_2) in *.
  assert (Hm : merge_spec_rgb int_div (rgb_of color_0) (rgb_of color_1) (rgb_of color_2)
                 a0 a1 a2
               = mkVec3i (merged i3_0 a0 a1 a2) (merged i3_1 a0 a1 a2)
                   (merged i3_2 a0 a1 a2)).
  { unfold merge_spec_rgb, merged. cbv zeta.
    destruct (a0 + a1 + a2 =? 0); reflexivity. }
  rewrite Hm. change (layout USE_BGRA_LAYOUT) with stored.
  split; [reflexivity |].
  unfold is_u8 in *.
  repeat split; intros; subst; unfold merged;
    match goal with
    | |- context [?t =? 0] => destruct (Z.eqb_spec t 0) as [Ez | Ez]; [lia |]
    end;
    rewrite !Z.mul_0_r, ?Z.add_0_r, ?Z.add_0_l;
    rewrite !(int_div_exact int_div Hnear) by lia;
    f_equal; unfold stored; destruct USE_BGRA_LAYOUT; f_equal; try reflexivity; lia.
Qed.

Lemma ex_eye_masks_ok : masks_ok ex_eye_m0 ex_eye_m1 ex_eye_m2.
Proof.
  unfold masks_ok, Mat_wf, Mat_u8, is_u8. simpl.
  repeat split; try lia; repeat constructor; lia.
Qed.

Lemma eye_shadow_merge_witness :
  let rgb_of := fun color : Z =>
    mkVec3i (color mod 256) (color / 256 mod 256) (color / 65536 mod 256) in
  let stored := fun (rgb : Vec3i) (a : Z) =>
    if false then mkVec4b (i3_2 rgb) (i3_1 rgb) (i3_0 rgb) a
    else mkVec4b (i3_0 rgb) (i3_1 rgb) (i3_2 rgb) a in
  let merged := fun (comp : Vec3i -> Z) (a0 a1 a2 : Z) =>
    if a0 + a1 + a2 =? 0 then 0
    else Z.quot (comp (rgb_of 0xFF112233) * a0 + comp (rgb_of 0xFF445566) * a1
                 + comp (rgb_of 0xFF778899) * a2) (a0 + a1 + a2) in
  exists bitmap,
    createEyeShadow false Z.quot [ex_eye_m0; ex_eye_m1; ex_eye_m2]
      [0xFF112233; 0xFF445566; 0xFF778899] = Done bitmap /\
    rows bitmap = 1 /\ cols bitmap = 2 /\
    forall r c, 0 <= r < 1 -> 0 <= c < 2 ->
      exists a0 a1 a2,
        Mat_at ex_eye_m0 r c = Done a0 /\ Mat_at ex_eye_m1 r c = Done a1 /\
        Mat_at ex_eye_m2 r c = Done a2 /\
        Mat_at bitmap r c
        = Done (stored (mkVec3i (merged i3_0 a0 a1 a2) (merged i3_1 a0 a1 a2)
                          (merged i3_2 a0 a1 a2))
                  (Z.max a0 (Z.max a1 a2))) /\
        (a0 <> 0 -> a1 = 0 -> a2 = 0 ->
         Mat_at bitmap r c = Done (stored (rgb_of 0xFF112233) a0)) /\
        (a0 = 0 -> a1 <> 0 -> a2 = 0 ->
         Mat_at bitmap r c = Done (stored (rgb_of 0xFF445566) a1)) /\
        (a0 = 0 -> a1 = 0 -> a2 <> 0 ->
         Mat_at bitmap r c = Done (stored (rgb_of 0xFF778899) a2)).
Proof.
  apply (eye_shadow_merge false Z.quot ex_eye_m0 ex_eye_m1 ex_eye_m2
           0xFF112233 0xFF445566 0xFF778899 quot_near_quotient ex_eye_masks_ok).
Defined.

(** C10: for 8-bit mask samples and any packed colours, each component of the
    merged colour lies in [0, 255] at every pixel, so the range assertion of
    the loop holds and [createEyeShadow] runs to the end. *)
Theorem eye_shadow_rgb_in_range (USE_BGRA_LAYOUT : bool) (int_div : Z -> Z -> Z)
    (m0 m1 m2 : Mat Z) (color_0 color_1 color_2 : Z) :
  near_quotient int_div -> masks_ok m0 m1 m2 ->
  (forall r c, in_bounds m0 r c = true ->
     exists acc px,
       accumulate [m0; m1; m2] [unpack color_0; unpack color_1; unpack color_2] r c
       = Done acc /\
       0 <= i3_0 (merge_rgb int_div acc) <= 255 /\
       0 <= i3_1 (merge_rgb int_div acc) <= 255 /\
       0 <= i3_2 (merge_rgb int_div acc) <= 255 /\
       merge_pixel USE_BGRA_LAYOUT int_div acc = Done px) /\
  exists bitmap,
    createEyeShadow USE_BGRA_LAYOUT int_div [m0; m1; m2] [color_0; color_1; color_2]
    = Done bitmap.
Proof.
  intros Hnear Hok. split.
  - intros r c Hb.
    destruct (eye_pixel_body USE_BGRA_LAYOUT int_div Hnear m0 m1 m2 color_0 color_1 color_2
                r c Hok Hb)
      as (a0 & a1 & a2 & acc & _ & _ & _ & _ & _ & _ & Eacc & _ & Hin & Epx).
    exists acc. eexists. split; [exact Eacc |].
    unfold Vec3i_in_u8 in Hin. rewrite !andb_true_iff, !Z.leb_le in Hin.
    repeat split; try lia. exact Epx.
  - destruct (createEyeShadow_spec USE_BGRA_LAYOUT int_div Hnear m0 m1 m2
                color_0 color_1 color_2 Hok) as (bitmap & E & _).
    exists bitmap. exact E.
Qed.

Lemma eye_shadow_rgb_in_range_witness :
  (forall r c, in_bounds ex_eye_m0 r c = true ->
     exists acc px,
       accumulate [ex_eye_m0; ex_eye_m1; ex_eye_m2]
         [unpack 0xFF112233; unpack 0xFF445566; unpack 0xFF778899] r c = Done acc /\
       0 <= i3_0 (merge_rgb round_div acc) <= 255 /\
       0 <= i3_1 (merge_rgb round_div acc) <= 255 /\
       0 <= i3_2 (merge_rgb round_div acc) <= 255 /\
       merge_pixel true round_div acc = Done px) /\
  exists bitmap,
    createEyeShadow true round_div [ex_eye_m0; ex_eye_m1; ex_eye_m2]
      [0xFF112233; 0xFF445566; 0xFF778899] = Done bitmap.
Proof.
  apply (eye_shadow_rgb_in_range true round_div ex_eye_m0 ex_eye_m1 ex_eye_m2
           0xFF112233 0xFF445566 0xFF778899 round_div_near_quotient ex_eye_masks_ok).
Defined.

(** ** The shape generators *)

Lemma buf_get_landmark (points : list Point2f) (k : Z) :
  0 <= k < Z.of_nat (length points) -> buf_get points k = Done (landmark points k).
Proof.
  intros Hk. unfold buf_get, landmark.
  destruct (Z.leb_spec 0 k); [| lia].
  destruct (lookup_lt_is_Some_2 points (Z.to_nat k)) as [p Hp]; [lia |].
  rewrite Hp. reflexivity.
Qed.

Lemma buf_set_Done {A : Type} (buf : list A) (i : Z) (v : A) :
  0 <= i < Z.of_nat (length buf) ->
  exists buf', buf_set buf i v = Done buf' /\ length buf' = length buf.
Proof.
  intros Hi. unfold buf_set.
  destruct (Z.leb_spec 0 i); [| lia].
  destruct (Z.ltb_spec i (Z.of_nat (length buf))); [| lia]. simpl.
  eexists. split; [reflexivity |]. apply length_insert.
Qed.

Section ShapeProofs.

Local Open Scope R_scope.

Lemma heart_sample_spec (center : Point2f) (radius angle : R) (i : Z) :
  heart_sample center radius (cos angle) (sin angle) i
  = heart_spec center radius angle (IZR i * (2 * PI / 32)).
Proof.
  unfold heart_sample, heart_spec. cbv zeta.
  set (t := IZR i * (2 * PI / 32)).
  replace (3 * t) with (t + 2 * t) by ring.
  replace (4 * t) with (2 * (2 * t)) by ring.
  rewrite cos_plus, (cos_2a (2 * t)), (sin_2a t), (cos_2a t).
  unfold padd, pscale. simpl. f_equal; f_equal; f_equal; field.
Qed.

Lemma heart_sample_mirror (center : Point2f) (radius : R) (i j : Z) :
  sin (IZR j * (2 * PI / 32)) = - sin (IZR i * (2 * PI / 32)) ->
  cos (IZR j * (2 * PI / 32)) = cos (IZR i * (2 * PI / 32)) ->
  x (heart_sample center radius 1 0 j) - x center
  = - (x (heart_sample center radius 1 0 i) - x center) /\
  y (heart_sample center radius 1 0 j) - y center
  = y (heart_sample center radius 1 0 i) - y center.
Proof.
  intros Hs Hc. unfold heart_sample. cbv zeta. simpl. rewrite Hs, Hc.
  split; field.
Qed.

Lemma createHeartShape_samples (center : Point2f) (radius angle : R) :
  exists heart,
    createHeartShape center radius angle = Done heart /\
    length heart = 32%nat /\
    forall i : nat, (i < 32)%nat ->
      heart !! i = Some (heart_sample center radius (cos angle) (sin angle) (Z.of_nat i)).
Proof.
  unfold createHeartShape. apply fill_loop.
  - apply length_replicate.
  - intros i buf _. reflexivity.
Qed.

End ShapeProofs.

(** C7: [createHeartShape] returns 32 points, point [i] being the heart curve
    [hx = sin^3 t], [hy = -(13 cos t - 5 cos 2t - 2 cos 3t - cos 4t) / 16] at
    [t = i * 2 * pi / 32], rotated by [angle], scaled by [radius] and
    translated by [center]: its coordinates are
    [center.x + radius * (hx * cos angle - hy * sin angle)] and
    [center.y + radius * (hx * sin angle + hy * cos angle)].  With angle 0
    point [32 - i] (point 0 for [i = 0]) is the mirror image of point [i]:
    opposite x-offset from [center], equal y-offset. *)
Theorem heart_shape_correct (center : Point2f) (radius angle : R) :
  exists heart,
    createHeartShape center radius angle = Done heart /\
    length heart = 32%nat /\
    (forall i : nat, (i < 32)%nat ->
       let t := (INR i * (2 * PI / 32))%R in
       let hx := (sin t * sin t * sin t)%R in
       let hy := (- (13 * cos t - 5 * cos (2 * t) - 2 * cos (3 * t) - cos (4 * t)) / 16)%R in
       exists p,
         heart !! i = Some p /\
         x p = (x center + radius * (hx * cos angle - hy * sin angle))%R /\
         y p = (y center + radius * (hx * sin angle + hy * cos angle))%R) /\
    (angle = 0%R ->
     forall (i : nat) (p : Point2f), heart !! i = Some p ->
       exists q : Point2f,
         heart !! (if Nat.eqb i 0 then 0 else 32 - i)%nat = Some q /\
         (x q - x center = - (x p - x center))%R /\
         (y q - y center = y p - y center)%R).
Proof.
  destruct (createHeartShape_samples center radius angle) as (heart & E & Hl & Hpt).
  exists heart. split; [assumption |]. split; [assumption |]. split.
  - intros i Hi t hx hy. eexists. split; [apply (Hpt i Hi) |].
    rewrite heart_sample_spec, <- INR_IZR_INZ. fold t.
    unfold heart_spec, padd, pscale. cbn [x y]. fold hx. fold hy.
    split; reflexivity.
  - intros -> i p Hp.
    assert (Hi : (i < 32)%nat) by (rewrite <- Hl; apply lookup_lt_Some with p; assumption).
    rewrite (Hpt i Hi) in Hp. injection Hp as <-.
    rewrite cos_0, sin_0.
    destruct (Nat.eq_dec i 0%nat) as [-> | Hnz].
    + cbn [Nat.eqb]. eexists. split; [apply Hpt; lia |].
      rewrite cos_0, sin_0. apply heart_sample_mirror; [| reflexivity].
      simpl. rewrite Rmult_0_l, sin_0. lra.
    + destruct (Nat.eqb_spec i 0) as [? | _]; [contradiction |].
      eexists. split; [apply Hpt; lia |].
      rewrite cos_0, sin_0.
      assert (Ht : (IZR (Z.of_nat (32 - i)) * (2 * PI / 32)
                    = 2 * PI - IZR (Z.of_nat i) * (2 * PI / 32))%R).
      { rewrite Nat2Z.inj_sub by lia. rewrite minus_IZR. simpl. field. }
      apply heart_sample_mirror; rewrite Ht.
      * rewrite sin_minus, sin_2PI, cos_2PI. ring.
      * rewrite cos_minus, sin_2PI, cos_2PI. ring.
Qed.

Lemma heart_shape_correct_witness :
  exists heart,
    createHeartShape (mkPoint2f 120 150) 20 0 = Done heart /\
    length heart = 32%nat /\
    (forall i : nat, (i < 32)%nat ->
       let t := (INR i * (2 * PI / 32))%R in
       let hx := (sin t * sin t * sin t)%R in
       let hy := (- (13 * cos t - 5 * cos (2 * t) - 2 * cos (3 * t) - cos (4 * t)) / 16)%R in
       exists p,
         heart !! i = Some p /\
         x p = (120 + 20 * (hx * cos 0 - hy * sin 0))%R /\
         y p = (150 + 20 * (hx * sin 0 + hy * cos 0))%R) /\
    (0%R = 0%R ->
     forall (i : nat) (p : Point2f), heart !! i = Some p ->
       exists q : Point2f,
         heart !! (if Nat.eqb i 0 then 0 else 32 - i)%nat = Some q /\
         (x q - 120 = - (x p - 120))%R /\
         (y q - 150 = y p - 150)%R).
Proof.
  exact (heart_shape_correct (mkPoint2f 120 150) 20 0).
Defined.

(** ** Makeup::createPolygon *)

Section PolygonProofs.

Local Open Scope R_scope.

Variable Feature_COUNT : nat.
Variable calculateBlushPolygon : list Point2f -> bool -> list Point2f.
Variable getSymmetryAxis : list Point2f -> Vec4f.
Variable distance : Point2f -> Vec4f -> R.
Variable catmullRomSpline : R -> Point2f -> Point2f -> Point2f -> Point2f -> Point2f.

Abbreviation createPolygon' :=
  (createPolygon Feature_COUNT calculateBlushPolygon getSymmetryAxis distance
     catmullRomSpline).

(** [createPolygon] once the side is fixed and the assertion and the eight
    landmark references are resolved. *)
Ltac resolve_landmarks Hok :=
  let Hlen := fresh "Hlen" in
  let Hcnt := fresh "Hcnt" in
  destruct Hok as [Hlen Hcnt];
  unfold createPolygon; rewrite Hlen, Nat.eqb_refl; cbn [assert bind];
  repeat (rewrite buf_get_landmark by lia; cbn [bind]).

Lemma createPolygon_DISK (points : list Point2f) (right : bool) :
  landmarks_ok Feature_COUNT points ->
  let _62 := landmark points (if right then 62 else 58) in
  let _02 := landmark points (if right then 2 else 10) in
  let center := mkPoint2f ((x _62 + x _02) / 2) (y _62) in
  let radius := Rabs (x _62 - x _02) / 2 in
  exists circle,
    createPolygon' points DISK right = Done circle /\
    length circle = 12%nat /\
    forall i : nat, (i < 12)%nat ->
      circle !! i = Some (disk_sample center radius (Z.of_nat i)).
Proof.
  intros Hok. destruct right; resolve_landmarks Hok; cbv zeta;
    (apply fill_loop; [apply length_replicate | intros i buf _; reflexivity]).
Qed.

Lemma createPolygon_OVAL (points : list Point2f) (right : bool) :
  landmarks_ok Feature_COUNT points ->
  exists polygon,
    createPolygon' points OVAL right = Done polygon /\ length polygon = 7%nat.
Proof.
  intros Hok. destruct right; resolve_landmarks Hok; eexists; split; reflexivity.
Qed.

Lemma createPolygon_TRIANGLE (points : list Point2f) (right : bool) :
  landmarks_ok Feature_COUNT points ->
  exists polygon,
    createPolygon' points TRIANGLE right = Done polygon /\ length polygon = 7%nat.
Proof.
  intros Hok. destruct right; resolve_landmarks Hok; eexists; split; reflexivity.
Qed.

Lemma knot_entry (knot : list Z) (i : Z) :
  knot = knot_r \/ knot = knot_l -> (0 <= i < 5)%Z ->
  exists k, buf_get knot i = Done k /\ (0 <= k <= 62)%Z.
Proof.
  intros Hk Hi.
  assert (Hc : i = 0%Z \/ i = 1%Z \/ i = 2%Z \/ i = 3%Z \/ i = 4%Z) by lia.
  destruct Hk as [-> | ->]; destruct Hc as [-> | [-> | [-> | [-> | ->]]]];
    (eexists; split; [reflexivity | lia]).
Qed.

(** The two stores and the loop of the [SEAGULL] case keep the ten slots. *)
Ltac seagull_steps points Hlen Hcnt :=
  match goal with
  | |- context [buf_set ?s 0%Z ?v] =>
      let s1 := fresh "s" in let E1 := fresh "E" in let L1 := fresh "L" in
      destruct (buf_set_Done s 0%Z v) as (s1 & E1 & L1);
      [rewrite length_replicate; lia |];
      rewrite E1; cbn [bind]; rewrite length_replicate in L1;
      match goal with
      | |- context [buf_set s1 5%Z ?w] =>
          let s2 := fresh "s" in let E2 := fresh "E" in let L2 := fresh "L" in
          destruct (buf_set_Done s1 5%Z w) as (s2 & E2 & L2); [lia |];
          rewrite E2; cbn [bind]
      end
  end.

Lemma createPolygon_SEAGULL (points : list Point2f) (right : bool) :
  landmarks_ok Feature_COUNT points ->
  exists polygon,
    createPolygon' points SEAGULL right = Done polygon /\ length polygon = 10%nat.
Proof.
  intros Hok. pose proof Hok as [Hlen' Hcnt'].
  destruct right; resolve_landmarks Hok; seagull_steps points Hlen' Hcnt';
    match goal with
    | |- context [buf_get ?knot 0%Z] =>
        assert (Hknot : knot = knot_r \/ knot = knot_l) by (auto; fail);
        destruct (knot_entry knot 0 Hknot ltac:(lia)) as (k0 & Ek0 & Hk0);
        rewrite Ek0; cbn [bind]; rewrite buf_get_landmark by lia; cbn [bind]
    end;
    match goal with
    | |- context [for_loop ?n ?lo ?body ?s] =>
        destruct (for_loop_inv (fun (_ : Z) (t : list Point2f) => length t = 10%nat)
                    body n lo s) as (polygon & Epoly & Lpoly);
        [ lia
        | intros i t Hi Ht;
          destruct (knot_entry _ i Hknot ltac:(lia)) as (k & Ek & Hk);
          rewrite Ek; cbn [bind]; rewrite buf_get_landmark by lia; cbn [bind]; cbv zeta;
          match goal with
          | |- context [buf_set t i ?v] =>
              destruct (buf_set_Done t i v) as (t3 & E3 & L3); [lia |];
              rewrite E3; cbn [bind];
              match goal with
              | |- context [buf_set t3 ?j ?w] =>
                  destruct (buf_set_Done t3 j w) as (t4 & E4 & L4); [lia |];
                  exists t4; split; [exact E4 | lia]
              end
          end
        | exists polygon; split; [exact Epoly | exact Lpoly] ]
    end.
Qed.

End PolygonProofs.

Lemma ex_landmarks_ok : landmarks_ok 81 ex_landmarks.
Proof. split; [reflexivity | lia]. Qed.

(** C1, as stated, fails on the centre: with landmark 62 at (100, 150) and
    landmark 2 at (140, 170) the first sample of the code is (140, 150), on
    the height of landmark 62, while the midpoint of the two landmarks puts it
    at (140, 160). *)
Lemma disk_center_counterexample :
  ex_createPolygon ex_landmarks DISK true
  <> Done (disk_spec (landmark ex_landmarks 62) (landmark ex_landmarks 2)).
Proof.
  intros H.
  destruct (createPolygon_DISK 81 ex_calculateBlushPolygon ex_getSymmetryAxis ex_distance
              ex_catmullRomSpline ex_landmarks true ex_landmarks_ok)
    as (circle & E & _ & Hpt).
  unfold ex_createPolygon in H. rewrite E in H. injection H as ->.
  specialize (Hpt 0%nat ltac:(lia)).
  change (landmark ex_landmarks 62) with (mkPoint2f 100 150) in Hpt.
  change (landmark ex_landmarks 2) with (mkPoint2f 140 170) in Hpt.
  unfold disk_spec, disk_sample, disk_angle, padd, pscale in Hpt.
  cbn [map seq lookup list_lookup x y INR Z.of_nat] in Hpt.
  injection Hpt as _ Hy. revert Hy.
  unfold Rdiv. rewrite !Rmult_0_l, sin_0, !Rmult_0_r. lra.
Qed.

(** C1 (amended): for a landmark set of the required length and either side,
    [createPolygon] with shape DISK returns 12 points on the circle whose
    centre has the x-coordinate of the midpoint of the two selected landmarks
    and the y-coordinate of the first of them (landmark 62 or 58), and whose
    radius is half their horizontal distance; sample 0 is at angle 0. *)
Theorem disk_polygon (Feature_COUNT : nat)
    (calculateBlushPolygon : list Point2f -> bool -> list Point2f)
    (getSymmetryAxis : list Point2f -> Vec4f) (distance : Point2f -> Vec4f -> R)
    (catmullRomSpline : R -> Point2f -> Point2f -> Point2f -> Point2f -> Point2f)
    (points : list Point2f) (right : bool) :
  landmarks_ok Feature_COUNT points ->
  let _62 := landmark points (if right then 62 else 58) in
  let _02 := landmark points (if right then 2 else 10) in
  let center := mkPoint2f ((x _62 + x _02) / 2) (y _62) in
  let radius := (Rabs (x _62 - x _02) / 2)%R in
  exists circle,
    createPolygon Feature_COUNT calculateBlushPolygon getSymmetryAxis distance
      catmullRomSpline points DISK right = Done circle /\
    length circle = 12%nat /\
    circle !! 0%nat = Some (mkPoint2f (x center + radius) (y center)) /\
    forall (i : nat) (p : Point2f), circle !! i = Some p ->
      ((x p - x center) * (x p - x center) + (y p - y center) * (y p - y center)
       = radius * radius)%R.
Proof.
  intros Hok _62 _02 center radius.
  destruct (createPolygon_DISK Feature_COUNT calculateBlushPolygon getSymmetryAxis distance
              catmullRomSpline points right Hok) as (circle & E & Hl & Hpt).
  fold _62 _02 center radius in Hpt.
  exists circle. split; [assumption |]. split; [assumption |]. split.
  - rewrite (Hpt 0%nat) by lia. unfold disk_sample, disk_angle, padd, pscale. simpl.
    unfold Rdiv. rewrite !Rmult_0_l, cos_0, sin_0. f_equal. f_equal; ring.
  - intros i p Hp.
    assert (Hi : (i < 12)%nat) by (rewrite <- Hl; apply lookup_lt_Some with p; assumption).
    rewrite (Hpt i Hi) in Hp. injection Hp as <-.
    unfold disk_sample, padd, pscale. simpl.
    pose proof (sin2_cos2 (disk_angle (Z.of_nat i))) as Hsc. unfold Rsqr in Hsc.
    set (t := disk_angle (Z.of_nat i)) in *.
    transitivity (radius * radius * (sin t * sin t + cos t * cos t))%R; [ring |].
    rewrite Hsc. ring.
Qed.

Lemma disk_polygon_witness :
  exists circle,
    ex_createPolygon ex_landmarks DISK true = Done circle /\
    length circle = 12%nat /\
    circle !! 0%nat
    = Some (mkPoint2f
              ((x (landmark ex_landmarks 62) + x (landmark ex_landmarks 2)) / 2
               + Rabs (x (landmark ex_landmarks 62) - x (landmark ex_landmarks 2)) / 2)
              (y (landmark ex_landmarks 62))) /\
    forall (i : nat) (p : Point2f), circle !! i = Some p ->
      ((x p - (x (landmark ex_landmarks 62) + x (landmark ex_landmarks 2)) / 2)
       * (x p - (x (landmark ex_landmarks 62) + x (landmark ex_landmarks 2)) / 2)
       + (y p - y (landmark ex_landmarks 62)) * (y p - y (landmark ex_landmarks 62))
       = Rabs (x (landmark ex_landmarks 62) - x (landmark ex_landmarks 2)) / 2
         * (Rabs (x (landmark ex_landmarks 62) - x (landmark ex_landmarks 2)) / 2))%R.
Proof.
  apply (disk_polygon 81 ex_calculateBlushPolygon ex_getSymmetryAxis ex_distance
           ex_catmullRomSpline ex_landmarks true).
  split; [reflexivity | lia].
Defined.

(** The angle of sample 1 in the code, [1 / (2 pi) * 12], is not the
    [2 pi / 12] of an even tiling of the circle. *)
Remark disk_angle_slip : disk_angle 1 <> (1 * (2 * PI / 12))%R.
Proof.
  unfold disk_angle. intros H.
  pose proof PI_RGT_0 as Hp. pose proof PI_4 as H4.
  assert (H' : (12 * 12 = (2 * PI) * (2 * PI))%R).
  { apply (f_equal (fun v => (v * (2 * PI) * 12)%R)) in H.
    field_simplify in H; lra. }
  nra.
Qed.

(** With the two landmarks on one height and a nonzero radius, sample 1 of
    the code is not the sample at angle [2 pi / 12]: its angle [6 / pi] lies
    further along the upper half turn. *)
Remark disk_sample_slip (center : Point2f) (radius : R) :
  (0 < radius)%R ->
  (x (disk_sample center radius 1)
   < x (padd center (pscale radius (mkPoint2f (cos (2 * PI / 12)) (sin (2 * PI / 12))))))%R.
Proof.
  intros Hr. unfold disk_sample, disk_angle, padd, pscale. simpl.
  pose proof PI_RGT_0 as Hp. pose proof PI_4 as H4. pose proof PI2_3_2 as H3.
  assert (Hlt : (2 * PI / 12 < 1 / (2 * PI) * 12)%R).
  { apply Rmult_lt_reg_r with (2 * PI)%R; [lra |].
    replace (1 / (2 * PI) * 12 * (2 * PI))%R with 12%R by (field; lra).
    nra. }
  assert (Hle : (1 / (2 * PI) * 12 <= PI)%R).
  { apply Rmult_le_reg_r with (2 * PI)%R; [lra |].
    replace (1 / (2 * PI) * 12 * (2 * PI))%R with 12%R by (field; lra).
    nra. }
  assert (Hcos : (cos (1 / (2 * PI) * 12) < cos (2 * PI / 12))%R).
  { apply cos_decreasing_1; lra. }
  nra.
Qed.

(** C3, as stated, fails on TRIANGLE: the code lists seven points, not six. *)
Lemma triangle_count_counterexample :
  ~ polygon_count_spec ex_landmarks TRIANGLE true.
Proof.
  intros H. destruct (H 6%nat eq_refl) as (polygon & E & Hl).
  destruct (createPolygon_TRIANGLE 81 ex_calculateBlushPolygon ex_getSymmetryAxis
              ex_distance ex_catmullRomSpline ex_landmarks true ex_landmarks_ok)
    as (polygon' & E' & Hl').
  unfold ex_createPolygon in E. rewrite E' in E. injection E as ->. lia.
Qed.

(** C3 (amended): for a landmark set of the required length and either side,
    [createPolygon] returns 7 points for OVAL, 7 points for TRIANGLE and 10
    points for SEAGULL. *)
Theorem polygon_point_counts (Feature_COUNT : nat)
    (calculateBlushPolygon : list Point2f -> bool -> list Point2f)
    (getSymmetryAxis : list Point2f -> Vec4f) (distance : Point2f -> Vec4f -> R)
    (catmullRomSpline : R -> Point2f -> Point2f -> Point2f -> Point2f -> Point2f)
    (points : list Point2f) (right : bool) :
  landmarks_ok Feature_COUNT points ->
  (exists polygon,
      createPolygon Feature_COUNT calculateBlushPolygon getSymmetryAxis distance
        catmullRomSpline points OVAL right = Done polygon /\ length polygon = 7%nat) /\
  (exists polygon,
      createPolygon Feature_COUNT calculateBlushPolygon getSymmetryAxis distance
        catmullRomSpline points TRIANGLE right = Done polygon /\ length polygon = 7%nat) /\
  (exists polygon,
      createPolygon Feature_COUNT calculateBlushPolygon getSymmetryAxis distance
        catmullRomSpline points SEAGULL right = Done polygon /\ length polygon = 10%nat).
Proof.
  intros Hok. split; [| split].
  - apply createPolygon_OVAL. assumption.
  - apply createPolygon_TRIANGLE. assumption.
  - apply createPolygon_SEAGULL. assumption.
Qed.

Lemma polygon_point_counts_witness :
  (exists polygon,
      ex_createPolygon ex_landmarks OVAL false = Done polygon /\ length polygon = 7%nat) /\
  (exists polygon,
      ex_createPolygon ex_landmarks TRIANGLE false = Done polygon /\
      length polygon = 7%nat) /\
  (exists polygon,
      ex_createPolygon ex_landmarks SEAGULL false = Done polygon /\
      length polygon = 10%nat).
Proof.
  apply (polygon_point_counts 81 ex_calculateBlushPolygon ex_getSymmetryAxis ex_distance
           ex_catmullRomSpline ex_landmarks false).
  split; [reflexivity | lia].
Defined.

(** * Further properties of the code *)

(** ** Makeup::pack: the packed alpha *)

Lemma pack_pixels (USE_BGRA_LAYOUT : bool) (mask : Mat Z) (color : Z) :
  Mat_wf mask -> type mask = CV_8UC1 ->
  exists image,
    pack USE_BGRA_LAYOUT mask color = Done image /\
    Mat_wf image /\ rows image = rows mask /\ cols image = cols mask /\
    type image = CV_8UC4 /\
    forall (i : nat) (m : Z), data mask !! i = Some m ->
      data image !! i = Some (pack_pixel USE_BGRA_LAYOUT color m).
Proof.
  intros (Hr & Hc & Hlen) Ht. unfold pack. rewrite Ht. simpl.
  assert (HN : length (data mask) = Z.to_nat (rows mask * cols mask)) by lia.
  destruct (fill_loop
              (fun i image_data =>
                 m <- buf_get (data mask) i ;;
                 buf_set image_data i (pack_pixel USE_BGRA_LAYOUT color m))
              (fun i => pack_pixel USE_BGRA_LAYOUT color
                          (default 0 (data mask !! Z.to_nat i)))
              (Z.to_nat (rows mask * cols mask))
              (replicate (Z.to_nat (rows mask * cols mask)) 0))
    as (buf & E & Hl & Hpt).
  - apply length_replicate.
  - intros i buf Hi.
    destruct (lookup_lt_is_Some_2 (data mask) (Z.to_nat i)) as [m Hm]; [lia |].
    rewrite <- (Z2Nat.id i) at 1 by lia.
    rewrite (buf_get_lookup _ _ _ Hm), Hm. reflexivity.
  - rewrite E. simpl. eexists. split; [reflexivity |]. simpl.
    split; [unfold Mat_wf; simpl; lia |].
    repeat (split; [reflexivity |]).
    intros i m Hm.
    assert (Hi : (i < Z.to_nat (rows mask * cols mask))%nat).
    { rewrite <- HN. apply lookup_lt_Some with m. assumption. }
    rewrite (Hpt i Hi), Nat2Z.id, Hm. reflexivity.
Qed.




(** ** The two blends together *)

Lemma for_loop_skip {St : Type} (body : Z -> St -> outcome St) :
  forall (n : nat) (lo : Z) (s : St),
    (forall i, lo <= i < lo + Z.of_nat n -> body i s = Done s) ->
    for_loop n lo body s = Done s.
Proof.
  induction n as [|n IH]; intros lo s Hbody; simpl; [reflexivity |].
  rewrite Hbody by lia. simpl. apply IH. intros i Hi. apply Hbody. lia.
Qed.

Lemma for_loop_ext {St : Type} (body body' : Z -> St -> outcome St) :
  forall (n : nat) (lo : Z) (s : St),
    (forall i t, lo <= i < lo + Z.of_nat n -> body i t = body' i t) ->
    for_loop n lo body s = for_loop n lo body' s.
Proof.
  induction n as [|n IH]; intros lo s Hbody; simpl; [reflexivity |].
  rewrite Hbody by lia. destruct (body' lo s); simpl; try reflexivity.
  apply IH. intros i t Hi. apply Hbody. lia.
Qed.

(** Two well-formed matrices of one shape with the same elements are the
    same matrix. *)
Lemma Mat_ext {A : Type} (m m' : Mat A) :
  Mat_wf m -> Mat_wf m' -> same_shape m m' ->
  (forall r c, in_bounds m r c = true -> Mat_at m r c = Mat_at m' r c) ->
  m = m'.
Proof.
  intros (Hr & Hc & Hl) (Hr' & Hc' & Hl') (Sr & Sc & St) Hpt.
  destruct m as [rs cs ty d], m' as [rs' cs' ty' d']. simpl in *. subst rs' cs' ty'.
  f_equal. apply list_eq. intros k.
  destruct (decide (k < length d)%nat) as [Hk | Hk].
  - assert (Hcs : 0 < cs) by nia.
    pose proof (Z.div_mod (Z.of_nat k) cs ltac:(lia)) as Hdm.
    pose proof (Z.mod_pos_bound (Z.of_nat k) cs Hcs) as Hmod.
    assert (Hdiv : 0 <= Z.of_nat k / cs < rs).
    { split; [apply Z.div_pos; lia |]. apply Z.div_lt_upper_bound; nia. }
    specialize (Hpt (Z.of_nat k / cs) (Z.of_nat k mod cs)).
    unfold Mat_at, in_bounds in Hpt. simpl in Hpt.
    replace (Z.of_nat k / cs * cs + Z.of_nat k mod cs) with (Z.of_nat k) in Hpt by lia.
    rewrite Nat2Z.id in Hpt.
    assert (Hb : (0 <=? Z.of_nat k / cs) && (Z.of_nat k / cs <? rs) &&
                 (0 <=? Z.of_nat k mod cs) && (Z.of_nat k mod cs <? cs) = true).
    { rewrite !andb_true_iff, !Z.leb_le, !Z.ltb_lt. lia. }
    rewrite Hb in Hpt. specialize (Hpt eq_refl).
    destruct (lookup_lt_is_Some_2 d k Hk) as [v Hv].
    destruct (lookup_lt_is_Some_2 d' k ltac:(lia)) as [v' Hv'].
    rewrite Hv, Hv' in *. congruence.
  - rewrite !lookup_ge_None_2 by lia. reflexivity.
Qed.

(** X2: a masked blend in which no pixel of the overlap passes the mask
    gate (an all-zero mask for instance) returns [dst] itself, for every
    amount and every image type, the types without a [case] included. *)
Theorem blend_masked_closed_gate (Pixel : Type) (mix : Pixel -> Pixel -> R -> Pixel)
    (dst src : Mat Pixel) (mask : Mat Z) (origin : Point2i) (amount : R) :
  Mat_wf mask -> type src = type dst -> type mask = CV_8UC1 ->
  (forall r c, in_rect (overlap dst src origin) r c ->
               gate_open src mask origin r c = false) ->
  blend_masked mix dst src mask origin amount = Done dst.
Proof.
  intros Hm Ht Hmt Hclosed.
  rewrite (blend_masked_unfold Pixel mix dst src mask origin amount Ht Hmt).
  destruct (overlap_spec dst src origin) as (Hw & Hh & _).
  apply for_loop_skip. intros r Hr.
  apply for_loop_skip. intros c Hc.
  rewrite blend_masked_body_gate by assumption.
  rewrite Hclosed; [reflexivity |].
  unfold in_rect. rewrite !Z2Nat.id in * by assumption. lia.
Qed.

Lemma blend_masked_closed_gate_witness :
  blend_masked mix_replace ex_rgb ex_rgb (mkMat 1 1 CV_8UC1 [0]) (mkPoint2i 0 0) 1%R
  = Done ex_rgb.
Proof.
  apply (blend_masked_closed_gate Vec3b mix_replace ex_rgb ex_rgb
           (mkMat 1 1 CV_8UC1 [0]) (mkPoint2i 0 0) 1%R).
  - repeat split; simpl; lia.
  - reflexivity.
  - reflexivity.
  - intros r c (Hr & Hc). simpl in Hr, Hc.
    assert (r = 0) by lia. assert (c = 0) by lia. subst. reflexivity.
Defined.

(** X3: with a mask of the size of [src] that is nonzero everywhere, the
    masked blend gives the same result as the rectangular blend. *)
Theorem blend_masked_full_mask (Pixel : Type) (mix : Pixel -> Pixel -> R -> Pixel)
    (dst src : Mat Pixel) (mask : Mat Z) (origin : Point2i) (amount : R) :
  Mat_wf dst -> Mat_wf src -> Mat_wf mask -> Mat_empty src = false ->
  type src = type dst -> type mask = CV_8UC1 ->
  type dst = CV_8UC4 \/ type dst = CV_32FC4 ->
  rows mask = rows src -> cols mask = cols src ->
  Forall (fun m => m <> 0) (data mask) ->
  blend_masked mix dst src mask origin amount = blend mix dst src origin amount.
Proof.
  intros Hd Hs Hm He Ht Hmt Hty Hrows Hcols Hnz.
  assert (Hsup : blend_masked_supported_type (type dst) = true).
  { unfold blend_masked_supported_type. destruct Hty as [-> | ->]; reflexivity. }
  rewrite (blend_supported Pixel mix dst src origin amount He Ht Hty).
  destruct (blend_masked_spec Pixel mix dst src mask origin amount Hd Hs Hm Ht Hmt Hsup)
    as (res & E & Hwf & Hsh & Hpt).
  destruct (blend_loop_spec Pixel mix dst src origin amount Hd Hs)
    as (res' & E' & Hwf' & Hsh' & Hpt').
  rewrite E, E'. f_equal. apply Mat_ext; try assumption.
  { destruct Hsh as (? & ? & ?), Hsh' as (? & ? & ?). unfold same_shape.
    repeat split; congruence. }
  intros r c Hb.
  assert (Hdb : in_bounds dst r c = true).
  { destruct Hsh as (Sr & Sc & _). unfold in_bounds in *. rewrite <- Sr, <- Sc. exact Hb. }
  destruct (Mat_at_Done dst r c Hd Hdb) as [d Hdv].
  destruct (Hpt r c d Hdv) as [Hin Hout]. destruct (Hpt' r c d Hdv) as [Hin' Hout'].
  destruct (in_rect_dec (overlap dst src origin) r c) as [Hr | Hr].
  - rewrite (Hin Hr). destruct (Hin' Hr) as (s & Hsv & ->).
    unfold blend_masked_upd. rewrite Hsv.
    assert (Hg : gate_open src mask origin r c = true).
    { destruct (overlap_spec dst src origin) as (_ & _ & Hov).
      apply Hov in Hr. destruct Hr as [_ Hsb].
      unfold gate_open, mask_position. cbv zeta. rewrite contains_rect_mask. simpl.
      rewrite Hrows, Hcols, !Z.sub_diag. change (0 ÷ 2) with 0. rewrite !Z.sub_0_r.
      assert (Hmb : in_bounds mask (r - iy origin) (c - ix origin) = true).
      { unfold in_bounds in *. rewrite Hrows, Hcols. exact Hsb. }
      rewrite Hmb. destruct (Mat_at_Done mask _ _ Hm Hmb) as [m Hmv]. rewrite Hmv.
      simpl. apply negb_true_iff. apply Z.eqb_neq.
      rewrite Forall_forall in Hnz. apply Hnz.
      unfold Mat_at in Hmv. rewrite Hmb in Hmv.
      destruct (data mask !! _) as [w|] eqn:Ew; [| discriminate].
      injection Hmv as <-. apply list_elem_of_lookup. eauto. }
    rewrite Hg. reflexivity.
  - rewrite (Hout Hr), (Hout' Hr). reflexivity.
Qed.

Lemma blend_masked_full_mask_witness :
  blend_masked mix_lerp ex_dst ex_src (mkMat 2 2 CV_8UC1 [1; 255; 128; 7])
    (mkPoint2i 1 0) (1 / 2)%R
  = blend mix_lerp ex_dst ex_src (mkPoint2i 1 0) (1 / 2)%R.
Proof.
  apply (blend_masked_full_mask Vec4f mix_lerp ex_dst ex_src
           (mkMat 2 2 CV_8UC1 [1; 255; 128; 7]) (mkPoint2i 1 0) (1 / 2)%R).
  - repeat split; simpl; lia.
  - repeat split; simpl; lia.
  - repeat split; simpl; lia.
  - reflexivity.
  - reflexivity.
  - reflexivity.
  - right. reflexivity.
  - reflexivity.
  - reflexivity.
  - repeat constructor; lia.
Defined.

(** ** Makeup::createEyeShadow: the merged colour and alpha *)

Lemma masks_ok_swap01 (m0 m1 m2 : Mat Z) : masks_ok m0 m1 m2 -> masks_ok m1 m0 m2.
Proof.
  intros (W0 & W1 & W2 & R1 & C1 & R2 & C2 & U0 & U1 & U2).
  unfold masks_ok. split; [assumption |]. split; [assumption |]. split; [assumption |].
  repeat (split; [first [assumption | congruence] |]). assumption.
Qed.

Lemma masks_ok_swap12 (m0 m1 m2 : Mat Z) : masks_ok m0 m1 m2 -> masks_ok m0 m2 m1.
Proof.
  intros (W0 & W1 & W2 & R1 & C1 & R2 & C2 & U0 & U1 & U2).
  unfold masks_ok. repeat (split; [assumption |]). assumption.
Qed.

Lemma masks_ok_samples (m0 m1 m2 : Mat Z) (r c : Z) :
  masks_ok m0 m1 m2 -> in_bounds m0 r c = true ->
  exists a0 a1 a2,
    Mat_at m0 r c = Done a0 /\ Mat_at m1 r c = Done a1 /\ Mat_at m2 r c = Done a2 /\
    is_u8 a0 /\ is_u8 a1 /\ is_u8 a2.
Proof.
  intros (W0 & W1 & W2 & R1 & C1 & R2 & C2 & U0 & U1 & U2) Hb.
  assert (Hb1 : in_bounds m1 r c = true)
    by (unfold in_bounds in *; rewrite R1, C1; assumption).
  assert (Hb2 : in_bounds m2 r c = true)
    by (unfold in_bounds in *; rewrite R2, C2; assumption).
  destruct (Mat_at_Done m0 r c W0 Hb) as [a0 H0].
  destruct (Mat_at_Done m1 r c W1 Hb1) as [a1 H1].
  destruct (Mat_at_Done m2 r c W2 Hb2) as [a2 H2].
  exists a0, a1, a2. repeat (split; [assumption |]).
  split; [exact (Mat_at_u8 _ _ _ _ U0 H0) |].
  split; [exact (Mat_at_u8 _ _ _ _ U1 H1) | exact (Mat_at_u8 _ _ _ _ U2 H2)].
Qed.

Lemma int_div_between (int_div : Z -> Z -> Z) (k0 k1 k2 a0 a1 a2 lo hi : Z) :
  near_quotient int_div ->
  0 <= k0 -> 0 <= k1 -> 0 <= k2 -> 0 <= a0 -> 0 <= a1 -> 0 <= a2 ->
  a0 + a1 + a2 <> 0 ->
  (a0 <> 0 -> lo <= k0 <= hi) -> (a1 <> 0 -> lo <= k1 <= hi) ->
  (a2 <> 0 -> lo <= k2 <= hi) ->
  lo <= int_div (k0 * a0 + k1 * a1 + k2 * a2) (a0 + a1 + a2) <= hi.
Proof.
  intros Hnear K0 K1 K2 A0 A1 A2 Ht B0 B1 B2.
  assert (H0 : lo * a0 <= k0 * a0 <= hi * a0).
  { destruct (Z.eq_dec a0 0) as [-> | Hn]; [lia | specialize (B0 Hn); nia]. }
  assert (H1 : lo * a1 <= k1 * a1 <= hi * a1).
  { destruct (Z.eq_dec a1 0) as [-> | Hn]; [lia | specialize (B1 Hn); nia]. }
  assert (H2 : lo * a2 <= k2 * a2 <= hi * a2).
  { destruct (Z.eq_dec a2 0) as [-> | Hn]; [lia | specialize (B2 Hn); nia]. }
  pose proof (Hnear (k0 * a0 + k1 * a1 + k2 * a2) (a0 + a1 + a2) ltac:(nia) ltac:(lia))
    as Hq.
  apply Z.abs_lt in Hq.
  set (q := int_div (k0 * a0 + k1 * a1 + k2 * a2) (a0 + a1 + a2)) in *.
  set (t := a0 + a1 + a2) in *.
  assert (Hlo : lo * t <= k0 * a0 + k1 * a1 + k2 * a2) by (unfold t; lia).
  assert (Hhi : k0 * a0 + k1 * a1 + k2 * a2 <= hi * t) by (unfold t; lia).
  assert (Htp : 0 < t) by (unfold t; lia).
  split; nia.
Qed.

(** X4: where at least one mask is nonzero, each colour component stored by
    [createEyeShadow] lies between the smallest and the largest of the
    corresponding components of the layers that cover the pixel: merging
    never produces a colour outside the range of the contributing layers. *)
Theorem eye_shadow_between (USE_BGRA_LAYOUT : bool) (int_div : Z -> Z -> Z)
    (m0 m1 m2 : Mat Z) (color_0 color_1 color_2 : Z) :
  near_quotient int_div -> masks_ok m0 m1 m2 ->
  exists bitmap,
    createEyeShadow USE_BGRA_LAYOUT int_div [m0; m1; m2] [color_0; color_1; color_2]
    = Done bitmap /\
    forall r c, in_bounds m0 r c = true ->
      exists a0 a1 a2 rgb a,
        Mat_at m0 r c = Done a0 /\ Mat_at m1 r c = Done a1 /\ Mat_at m2 r c = Done a2 /\
        Mat_at bitmap r c = Done (layout USE_BGRA_LAYOUT rgb a) /\
        (a0 + a1 + a2 <> 0 ->
         forall (comp : Vec3i -> Z) (lo hi : Z),
           comp = i3_0 \/ comp = i3_1 \/ comp = i3_2 ->
           (a0 <> 0 -> lo <= comp (unpack color_0) <= hi) ->
           (a1 <> 0 -> lo <= comp (unpack color_1) <= hi) ->
           (a2 <> 0 -> lo <= comp (unpack color_2) <= hi) ->
           lo <= comp rgb <= hi).
Proof.
  intros Hnear Hok.
  destruct (createEyeShadow_spec USE_BGRA_LAYOUT int_div Hnear m0 m1 m2
              color_0 color_1 color_2 Hok) as (bitmap & E & _ & _ & _ & Hpt).
  exists bitmap. split; [assumption |].
  intros r c Hb.
  destruct (masks_ok_samples m0 m1 m2 r c Hok Hb)
    as (a0 & a1 & a2 & H0 & H1 & H2 & P0 & P1 & P2).
  exists a0, a1, a2.
  exists (merge_spec_rgb int_div (unpack color_0) (unpack color_1) (unpack color_2)
            a0 a1 a2), (Z.max a0 (Z.max a1 a2)).
  repeat (split; [assumption |]).
  split.
  { rewrite (Hpt r c Hb). unfold eye_pixel. rewrite H0, H1, H2. reflexivity. }
  intros Ht comp lo hi Hcomp B0 B1 B2.
  pose proof (unpack_u8 color_0) as (A0 & A1 & A2).
  pose proof (unpack_u8 color_1) as (B0' & B1' & B2').
  pose proof (unpack_u8 color_2) as (C0 & C1 & C2).
  unfold is_u8 in *. unfold merge_spec_rgb. cbv zeta.
  destruct (Z.eqb_spec (a0 + a1 + a2) 0) as [Ez | _]; [contradiction |].
  destruct Hcomp as [-> | [-> | ->]]; cbn [i3_0 i3_1 i3_2];
    apply int_div_between; try assumption; lia.
Qed.

Lemma eye_shadow_between_witness :
  exists bitmap,
    createEyeShadow false Z.quot [ex_eye_m0; ex_eye_m1; ex_eye_m2]
      [0xFF112233; 0xFF445566; 0xFF778899] = Done bitmap /\
    forall r c, in_bounds ex_eye_m0 r c = true ->
      exists a0 a1 a2 rgb a,
        Mat_at ex_eye_m0 r c = Done a0 /\ Mat_at ex_eye_m1 r c = Done a1 /\
        Mat_at ex_eye_m2 r c = Done a2 /\
        Mat_at bitmap r c = Done (layout false rgb a) /\
        (a0 + a1 + a2 <> 0 ->
         forall (comp : Vec3i -> Z) (lo hi : Z),
           comp = i3_0 \/ comp = i3_1 \/ comp = i3_2 ->
           (a0 <> 0 -> lo <= comp (unpack 0xFF112233) <= hi) ->
           (a1 <> 0 -> lo <= comp (unpack 0xFF445566) <= hi) ->
           (a2 <> 0 -> lo <= comp (unpack 0xFF778899) <= hi) ->
           lo <= comp rgb <= hi).
Proof.
  apply (eye_shadow_between false Z.quot ex_eye_m0 ex_eye_m1 ex_eye_m2
           0xFF112233 0xFF445566 0xFF778899 quot_near_quotient ex_eye_masks_ok).
Defined.

(** X5: the pixel stored by [createEyeShadow] is transparent black,
    [(0, 0, 0, 0)], exactly where the three masks are all zero; elsewhere its
    alpha is at least every layer's mask sample and at most 255. *)
Theorem eye_shadow_transparent (USE_BGRA_LAYOUT : bool) (int_div : Z -> Z -> Z)
    (m0 m1 m2 : Mat Z) (color_0 color_1 color_2 : Z) :
  near_quotient int_div -> masks_ok m0 m1 m2 ->
  exists bitmap,
    createEyeShadow USE_BGRA_LAYOUT int_div [m0; m1; m2] [color_0; color_1; color_2]
    = Done bitmap /\
    forall r c, in_bounds m0 r c = true ->
      exists a0 a1 a2 px,
        Mat_at m0 r c = Done a0 /\ Mat_at m1 r c = Done a1 /\ Mat_at m2 r c = Done a2 /\
        Mat_at bitmap r c = Done px /\
        (px = mkVec4b 0 0 0 0 <-> a0 = 0 /\ a1 = 0 /\ a2 = 0) /\
        a0 <= b4_3 px /\ a1 <= b4_3 px /\ a2 <= b4_3 px /\ b4_3 px <= 255.
Proof.
  intros Hnear Hok.
  destruct (createEyeShadow_spec USE_BGRA_LAYOUT int_div Hnear m0 m1 m2
              color_0 color_1 color_2 Hok) as (bitmap & E & _ & _ & _ & Hpt).
  exists bitmap. split; [assumption |].
  intros r c Hb.
  destruct (masks_ok_samples m0 m1 m2 r c Hok Hb)
    as (a0 & a1 & a2 & H0 & H1 & H2 & P0 & P1 & P2).
  exists a0, a1, a2. eexists.
  repeat (split; [eassumption |]).
  split.
  { rewrite (Hpt r c Hb). unfold eye_pixel. rewrite H0, H1, H2. reflexivity. }
  unfold is_u8 in *.
  assert (Halpha : forall rgb a, b4_3 (layout USE_BGRA_LAYOUT rgb a) = a).
  { intros rgb a. unfold layout. destruct USE_BGRA_LAYOUT; reflexivity. }
  rewrite Halpha. split; [| lia].
  split.
  - intros Hz. apply (f_equal b4_3) in Hz. rewrite Halpha in Hz. simpl in Hz. lia.
  - intros (-> & -> & ->). unfold merge_spec_rgb, layout. simpl.
    destruct USE_BGRA_LAYOUT; reflexivity.
Qed.

Lemma eye_shadow_transparent_witness :
  exists bitmap,
    createEyeShadow true round_div [ex_eye_m0; ex_eye_m1; ex_eye_m2]
      [0xFF112233; 0xFF445566; 0xFF778899] = Done bitmap /\
    forall r c, in_bounds ex_eye_m0 r c = true ->
      exists a0 a1 a2 px,
        Mat_at ex_eye_m0 r c = Done a0 /\ Mat_at ex_eye_m1 r c = Done a1 /\
        Mat_at ex_eye_m2 r c = Done a2 /\
        Mat_at bitmap r c = Done px /\
        (px = mkVec4b 0 0 0 0 <-> a0 = 0 /\ a1 = 0 /\ a2 = 0) /\
        a0 <= b4_3 px /\ a1 <= b4_3 px /\ a2 <= b4_3 px /\ b4_3 px <= 255.
Proof.
  apply (eye_shadow_transparent true round_div ex_eye_m0 ex_eye_m1 ex_eye_m2
           0xFF112233 0xFF445566 0xFF778899 round_div_near_quotient ex_eye_masks_ok).
Defined.

Lemma eye_pixel_swap01 (USE_BGRA_LAYOUT : bool) (int_div : Z -> Z -> Z)
    (m0 m1 m2 : Mat Z) (c0 c1 c2 r c : Z) :
  eye_pixel USE_BGRA_LAYOUT int_div m1 m0 m2 c1 c0 c2 r c
  = eye_pixel USE_BGRA_LAYOUT int_div m0 m1 m2 c0 c1 c2 r c.
Proof.
  unfold eye_pixel.
  destruct (Mat_at m0 r c) as [a0| |], (Mat_at m1 r c) as [a1| |],
    (Mat_at m2 r c) as [a2| |]; try reflexivity.
  unfold merge_spec_rgb. cbv zeta.
  replace (a1 + a0 + a2) with (a0 + a1 + a2) by lia.
  replace (Z.max a1 (Z.max a0 a2)) with (Z.max a0 (Z.max a1 a2)) by lia.
  destruct (a0 + a1 + a2 =? 0); [reflexivity |].
  f_equal. f_equal; f_equal; lia.
Qed.

Lemma eye_pixel_swap12 (USE_BGRA_LAYOUT : bool) (int_div : Z -> Z -> Z)
    (m0 m1 m2 : Mat Z) (c0 c1 c2 r c : Z) :
  eye_pixel USE_BGRA_LAYOUT int_div m0 m2 m1 c0 c2 c1 r c
  = eye_pixel USE_BGRA_LAYOUT int_div m0 m1 m2 c0 c1 c2 r c.
Proof.
  unfold eye_pixel.
  destruct (Mat_at m0 r c) as [a0| |], (Mat_at m1 r c) as [a1| |],
    (Mat_at m2 r c) as [a2| |]; try reflexivity.
  unfold merge_spec_rgb. cbv zeta.
  replace (a0 + a2 + a1) with (a0 + a1 + a2) by lia.
  replace (Z.max a0 (Z.max a2 a1)) with (Z.max a0 (Z.max a1 a2)) by lia.
  destruct (a0 + a1 + a2 =? 0); [reflexivity |].
  f_equal. f_equal; f_equal; lia.
Qed.

(** X6: the result of [createEyeShadow] does not depend on the order of the
    three layers: exchanging two mask/colour pairs gives an image of the
    same size and type with the same pixel at every position. *)
Theorem eye_shadow_layer_order (USE_BGRA_LAYOUT : bool) (int_div : Z -> Z -> Z)
    (m0 m1 m2 : Mat Z) (color_0 color_1 color_2 : Z) :
  near_quotient int_div -> masks_ok m0 m1 m2 ->
  exists bitmap bitmap01 bitmap12,
    createEyeShadow USE_BGRA_LAYOUT int_div [m0; m1; m2] [color_0; color_1; color_2]
    = Done bitmap /\
    createEyeShadow USE_BGRA_LAYOUT int_div [m1; m0; m2] [color_1; color_0; color_2]
    = Done bitmap01 /\
    createEyeShadow USE_BGRA_LAYOUT int_div [m0; m2; m1] [color_0; color_2; color_1]
    = Done bitmap12 /\
    same_shape bitmap01 bitmap /\ same_shape bitmap12 bitmap /\
    forall r c, in_bounds bitmap r c = true ->
      Mat_at bitmap01 r c = Mat_at bitmap r c /\
      Mat_at bitmap12 r c = Mat_at bitmap r c.
Proof.
  intros Hnear Hok.
  pose proof (masks_ok_swap01 m0 m1 m2 Hok) as Hok01.
  pose proof (masks_ok_swap12 m0 m1 m2 Hok) as Hok12.
  destruct (createEyeShadow_spec USE_BGRA_LAYOUT int_div Hnear m0 m1 m2
              color_0 color_1 color_2 Hok) as (b & E & Hr & Hc & Ht & Hpt).
  destruct (createEyeShadow_spec USE_BGRA_LAYOUT int_div Hnear m1 m0 m2
              color_1 color_0 color_2 Hok01) as (b01 & E01 & Hr01 & Hc01 & Ht01 & Hpt01).
  destruct (createEyeShadow_spec USE_BGRA_LAYOUT int_div Hnear m0 m2 m1
              color_0 color_2 color_1 Hok12) as (b12 & E12 & Hr12 & Hc12 & Ht12 & Hpt12).
  destruct Hok as (_ & _ & _ & R1 & C1 & _).
  exists b, b01, b12. repeat (split; [assumption |]).
  split; [unfold same_shape; repeat split; congruence |].
  split; [unfold same_shape; repeat split; congruence |].
  intros r c Hb.
  assert (Hb0 : in_bounds m0 r c = true)
    by (unfold in_bounds in *; rewrite <- Hr, <- Hc; exact Hb).
  assert (Hb1 : in_bounds m1 r c = true)
    by (unfold in_bounds in *; rewrite R1, C1; exact Hb0).
  rewrite (Hpt r c Hb0), (Hpt01 r c Hb1), (Hpt12 r c Hb0).
  rewrite eye_pixel_swap01, eye_pixel_swap12. split; reflexivity.
Qed.

Lemma eye_shadow_layer_order_witness :
  exists bitmap bitmap01 bitmap12,
    createEyeShadow false Z.quot [ex_eye_m0; ex_eye_m1; ex_eye_m2]
      [0xFF112233; 0xFF445566; 0xFF778899] = Done bitmap /\
    createEyeShadow false Z.quot [ex_eye_m1; ex_eye_m0; ex_eye_m2]
      [0xFF445566; 0xFF112233; 0xFF778899] = Done bitmap01 /\
    createEyeShadow false Z.quot [ex_eye_m0; ex_eye_m2; ex_eye_m1]
      [0xFF112233; 0xFF778899; 0xFF445566] = Done bitmap12 /\
    same_shape bitmap01 bitmap /\ same_shape bitmap12 bitmap /\
    forall r c, in_bounds bitmap r c = true ->
      Mat_at bitmap01 r c = Mat_at bitmap r c /\
      Mat_at bitmap12 r c = Mat_at bitmap r c.
Proof.
  apply (eye_shadow_layer_order false Z.quot ex_eye_m0 ex_eye_m1 ex_eye_m2
           0xFF112233 0xFF445566 0xFF778899 quot_near_quotient ex_eye_masks_ok).
Defined.

(** ** Makeup::createHeartShape: extent of the curve *)

Section HeartProofs.

Local Open Scope R_scope.

Lemma heart_curve_bound (t : R) :
  (sin t * sin t * sin t) * (sin t * sin t * sin t)
  + (- (13 * cos t - 5 * cos (2 * t) - 2 * cos (3 * t) - cos (4 * t)) / 16)
    * (- (13 * cos t - 5 * cos (2 * t) - 2 * cos (3 * t) - cos (4 * t)) / 16)
  <= 697 / 256.
Proof.
  pose proof (SIN_bound t) as Hs.
  pose proof (COS_bound t) as H1. pose proof (COS_bound (2 * t)) as H2.
  pose proof (COS_bound (3 * t)) as H3. pose proof (COS_bound (4 * t)) as H4.
  set (s := sin t) in *.
  set (n := 13 * cos t - 5 * cos (2 * t) - 2 * cos (3 * t) - cos (4 * t)) in *.
  assert (Hn : -21 <= n <= 21) by (unfold n; lra).
  assert (Hs2 : 0 <= s * s <= 1) by nra.
  assert (Hs6 : (s * s * s) * (s * s * s) <= 1).
  { replace ((s * s * s) * (s * s * s)) with ((s * s) * ((s * s) * (s * s))) by ring.
    assert (0 <= (s * s) * (s * s) <= 1) by nra. nra. }
  assert (Hn2 : n * n <= 441) by nra.
  replace (- n / 16 * (- n / 16)) with (n * n / 256) by field.
  lra.
Qed.

Lemma heart_spec_distance (center : Point2f) (radius angle t : R) :
  (x (heart_spec center radius angle t) - x center)
  * (x (heart_spec center radius angle t) - x center)
  + (y (heart_spec center radius angle t) - y center)
    * (y (heart_spec center radius angle t) - y center)
  <= radius * radius * (697 / 256).
Proof.
  pose proof (heart_curve_bound t) as Hb.
  pose proof (sin2_cos2 angle) as Hsc. unfold Rsqr in Hsc.
  unfold heart_spec, padd, pscale. cbv zeta. simpl.
  set (hx := sin t * sin t * sin t) in *.
  set (hy := - (13 * cos t - 5 * cos (2 * t) - 2 * cos (3 * t) - cos (4 * t)) / 16) in *.
  set (ca := cos angle) in *. set (sa := sin angle) in *.
  replace ((x center + radius * (hx * ca - hy * sa) - x center)
           * (x center + radius * (hx * ca - hy * sa) - x center)
           + (y center + radius * (hx * sa + hy * ca) - y center)
             * (y center + radius * (hx * sa + hy * ca) - y center))
    with (radius * radius * ((hx * hx + hy * hy) * (sa * sa + ca * ca))) by ring.
  rewrite Hsc, Rmult_1_r.
  apply Rmult_le_compat_l; [nra | exact Hb].
Qed.

End HeartProofs.

(** X7: every point returned by [createHeartShape] lies within
    [sqrt 697 / 16] (about 1.65) times the radius of the centre, for every
    angle: the squared distance is at most [radius^2 * 697 / 256]. *)
Theorem heart_shape_extent (center : Point2f) (radius angle : R) :
  exists heart,
    createHeartShape center radius angle = Done heart /\
    forall (i : nat) (p : Point2f), heart !! i = Some p ->
      ((x p - x center) * (x p - x center) + (y p - y center) * (y p - y center)
       <= radius * radius * (697 / 256))%R.
Proof.
  destruct (createHeartShape_samples center radius angle) as (heart & E & Hl & Hpt).
  exists heart. split; [assumption |].
  intros i p Hp.
  assert (Hi : (i < 32)%nat) by (rewrite <- Hl; apply lookup_lt_Some with p; assumption).
  rewrite (Hpt i Hi) in Hp. injection Hp as <-.
  rewrite heart_sample_spec. apply heart_spec_distance.
Qed.

(** X8: sample 0 and sample 16 of [createHeartShape] are the notch and the
    tip of the heart: they lie on the axis through the centre that the angle
    turns, the notch 5/16 of the radius on one side and the tip 17/16 of the
    radius on the other. *)
Theorem heart_shape_notch_tip (center : Point2f) (radius angle : R) :
  exists heart,
    createHeartShape center radius angle = Done heart /\
    heart !! 0%nat
    = Some (mkPoint2f (x center + radius * (5 / 16 * sin angle))
                      (y center - radius * (5 / 16 * cos angle)))%R /\
    heart !! 16%nat
    = Some (mkPoint2f (x center - radius * (17 / 16 * sin angle))
                      (y center + radius * (17 / 16 * cos angle)))%R.
Proof.
  destruct (createHeartShape_samples center radius angle) as (heart & E & Hl & Hpt).
  exists heart. split; [assumption |]. split.
  - rewrite (Hpt 0%nat) by lia. unfold heart_sample, padd, pscale. cbv zeta. simpl.
    rewrite Rmult_0_l, sin_0, cos_0. f_equal. f_equal; field.
  - rewrite (Hpt 16%nat) by lia. unfold heart_sample, padd, pscale. cbv zeta.
    replace (IZR (Z.of_nat 16) * (2 * PI / 32))%R with PI by (simpl; field).
    rewrite sin_PI, cos_PI. simpl. f_equal. f_equal; field.
Qed.

(** ** Makeup::createPolygon: all shapes, mirrored sides *)

Lemma buf_set_replicate_0 {A : Type} (z v : A) :
  buf_set (replicate 10 z) 0 v = Done [v; z; z; z; z; z; z; z; z; z].
Proof. reflexivity. Qed.

Lemma buf_set_slot_5 {A : Type} (z v v5 : A) :
  buf_set [v; z; z; z; z; z; z; z; z; z] 5 v5 = Done [v; z; z; z; z; v5; z; z; z; z].
Proof. reflexivity. Qed.

Lemma seagull_loop {A : Type} (z v0 v5 : A) (f3 f2 : Z -> A) :
  for_loop 4 1
    (fun i seagull => seagull <- buf_set seagull i (f3 i) ;; buf_set seagull (10 - i) (f2 i))
    [v0; z; z; z; z; v5; z; z; z; z]
  = Done [v0; f3 1; f3 2; f3 3; f3 4; v5; f2 4; f2 3; f2 2; f2 1].
Proof. reflexivity. Qed.

Section PolygonMore.

Local Open Scope R_scope.

Variable Feature_COUNT : nat.
Variable calculateBlushPolygon : list Point2f -> bool -> list Point2f.
Variable getSymmetryAxis : list Point2f -> Vec4f.
Variable distance : Point2f -> Vec4f -> R.
Variable catmullRomSpline : R -> Point2f -> Point2f -> Point2f -> Point2f -> Point2f.

Abbreviation createPolygon'' :=
  (createPolygon Feature_COUNT calculateBlushPolygon getSymmetryAxis distance
     catmullRomSpline).

Ltac resolve_refs Hok :=
  let Hlen := fresh "Hlen" in
  let Hcnt := fresh "Hcnt" in
  destruct Hok as [Hlen Hcnt];
  unfold createPolygon; rewrite Hlen, Nat.eqb_refl; cbn [assert bind];
  repeat (rewrite buf_get_landmark by lia; cbn [bind]).

Lemma createPolygon_wrong_length (points : list Point2f) (shape : BlushShape)
    (right : bool) :
  length points <> Feature_COUNT -> createPolygon'' points shape right = AssertionFailed.
Proof.
  intros Hne. unfold createPolygon.
  destruct (Nat.eqb_spec (length points) Feature_COUNT) as [E | _]; [contradiction |].
  reflexivity.
Qed.

Lemma createPolygon_DEFAULT (points : list Point2f) (right : bool) :
  landmarks_ok Feature_COUNT points ->
  createPolygon'' points DEFAULT right = Done (calculateBlushPolygon points right).
Proof. intros Hok. destruct right; resolve_refs Hok; reflexivity. Qed.

Lemma createPolygon_HEART (points : list Point2f) (right : bool) :
  landmarks_ok Feature_COUNT points ->
  exists polygon,
    createPolygon'' points HEART right = Done polygon /\ length polygon = 32%nat.
Proof.
  intros Hok. destruct right; resolve_refs Hok; cbv zeta;
    match goal with
    | |- context [createHeartShape ?c ?r ?a] =>
        destruct (createHeartShape_samples c r a) as (heart & E & Hl & _);
        exists heart; split; assumption
    end.
Qed.

Lemma createPolygon_OVAL_points (points : list Point2f) (right : bool) :
  landmarks_ok Feature_COUNT points ->
  createPolygon'' points OVAL right
  = Done (if right then oval_polygon points 0 1 2 33 41 61 62
          else oval_polygon points 12 11 10 32 51 59 58).
Proof. intros Hok. destruct right; resolve_refs Hok; reflexivity. Qed.

Lemma createPolygon_SEAGULL_points (points : list Point2f) (right : bool) :
  landmarks_ok Feature_COUNT points ->
  createPolygon'' points SEAGULL right
  = Done (if right then seagull_polygon points 42 22 23 24 25 1 54
          else seagull_polygon points 43 29 30 31 26 11 52).
Proof.
  intros Hok. pose proof Hok as [Hlen' Hcnt'].
  destruct right; resolve_refs Hok; cbv zeta;
    rewrite buf_set_replicate_0; cbn [bind];
    rewrite buf_set_slot_5; cbn [bind];
    match goal with
    | |- context [buf_get ?knot 0%Z] =>
        match knot with
        | knot_r => change (buf_get knot 0%Z) with (Done 42%Z)
        | knot_l => change (buf_get knot 0%Z) with (Done 43%Z)
        end;
        cbn [bind]; rewrite buf_get_landmark by lia; cbn [bind];
        match goal with
        | |- for_loop 4 1%Z _ ?s = Done ?l =>
            match l with
            | seagull_polygon _ ?k0 _ _ _ _ _ _ =>
                erewrite (for_loop_ext _
                  (fun i seagull =>
                     seagull <- buf_set seagull i
                       (seagull_point points (landmark points k0) 3
                          (default 0%Z (knot !! Z.to_nat i))) ;;
                     buf_set seagull (10 - i)%Z
                       (seagull_point points (landmark points k0) 2
                          (default 0%Z (knot !! Z.to_nat i))))
                  4 1%Z s);
                [ rewrite seagull_loop; reflexivity
                | intros i t Hi;
                  assert (Hc : i = 1%Z \/ i = 2%Z \/ i = 3%Z \/ i = 4%Z) by lia;
                  destruct Hc as [-> | [-> | [-> | ->]]];
                  (match goal with
                   | |- context [buf_get knot ?j] =>
                       let v := eval cbv in (default 0%Z (knot !! Z.to_nat j)) in
                       change (buf_get knot j) with (Done v)
                   end;
                   cbn [bind]; rewrite buf_get_landmark by lia; reflexivity) ]
            end
        end
    end.
Qed.

End PolygonMore.

(** X9: [createPolygon] fails its assertion on a landmark set of another
    length than [Feature::COUNT]; on a landmark set of that length it returns
    normally for each of the six shapes: the collaborator's polygon for
    DEFAULT, 12 points for DISK, 7 for OVAL and TRIANGLE, the 32 points of
    [createHeartShape] for HEART and 10 for SEAGULL. *)
Theorem createPolygon_all_shapes (Feature_COUNT : nat)
    (calculateBlushPolygon : list Point2f -> bool -> list Point2f)
    (getSymmetryAxis : list Point2f -> Vec4f) (distance : Point2f -> Vec4f -> R)
    (catmullRomSpline : R -> Point2f -> Point2f -> Point2f -> Point2f -> Point2f)
    (points : list Point2f) (shape : BlushShape) (right : bool) :
  (length points <> Feature_COUNT ->
   createPolygon Feature_COUNT calculateBlushPolygon getSymmetryAxis distance
     catmullRomSpline points shape right = AssertionFailed) /\
  (landmarks_ok Feature_COUNT points ->
   exists polygon,
     createPolygon Feature_COUNT calculateBlushPolygon getSymmetryAxis distance
       catmullRomSpline points shape right = Done polygon /\
     length polygon
     = match shape with
       | DEFAULT => length (calculateBlushPolygon points right)
       | DISK => 12 | OVAL => 7 | TRIANGLE => 7 | HEART => 32 | SEAGULL => 10
       end%nat /\
     (shape = DEFAULT -> polygon = calculateBlushPolygon points right)).
Proof.
  split; [apply createPolygon_wrong_length |].
  intros Hok. destruct shape.
  - rewrite createPolygon_DEFAULT by assumption. eexists. repeat split; reflexivity.
  - destruct (createPolygon_DISK Feature_COUNT calculateBlushPolygon getSymmetryAxis
                distance catmullRomSpline points right Hok) as (l & E & Hl & _).
    exists l. repeat split; [assumption | assumption | discriminate].
  - destruct (createPolygon_OVAL Feature_COUNT calculateBlushPolygon getSymmetryAxis
                distance catmullRomSpline points right Hok) as (l & E & Hl).
    exists l. repeat split; [assumption | assumption | discriminate].
  - destruct (createPolygon_TRIANGLE Feature_COUNT calculateBlushPolygon getSymmetryAxis
                distance catmullRomSpline points right Hok) as (l & E & Hl).
    exists l. repeat split; [assumption | assumption | discriminate].
  - destruct (createPolygon_HEART Feature_COUNT calculateBlushPolygon getSymmetryAxis
                distance catmullRomSpline points right Hok) as (l & E & Hl).
    exists l. repeat split; [assumption | assumption | discriminate].
  - destruct (createPolygon_SEAGULL Feature_COUNT calculateBlushPolygon getSymmetryAxis
                distance catmullRomSpline points right Hok) as (l & E & Hl).
    exists l. repeat split; [assumption | assumption | discriminate].
Qed.

Lemma createPolygon_all_shapes_witness :
  exists polygon,
    ex_createPolygon ex_landmarks HEART true = Done polygon /\
    length polygon = 32%nat /\
    (HEART = DEFAULT -> polygon = ex_calculateBlushPolygon ex_landmarks true).
Proof.
  apply (createPolygon_all_shapes 81 ex_calculateBlushPolygon ex_getSymmetryAxis
           ex_distance ex_catmullRomSpline ex_landmarks HEART true).
  split; [reflexivity | lia].
Defined.

(** X10: for a landmark set whose left-table landmarks are the mirror images
    of the right-table ones in a vertical line, the OVAL polygon of the left
    side is the mirror image, point by point, of the OVAL polygon of the
    right side. *)
Theorem oval_mirror (Feature_COUNT : nat)
    (calculateBlushPolygon : list Point2f -> bool -> list Point2f)
    (getSymmetryAxis : list Point2f -> Vec4f) (distance : Point2f -> Vec4f -> R)
    (catmullRomSpline : R -> Point2f -> Point2f -> Point2f -> Point2f -> Point2f)
    (points : list Point2f) (m : R) :
  landmarks_ok Feature_COUNT points -> oval_symmetric m points ->
  exists polygon_r polygon_l,
    createPolygon Feature_COUNT calculateBlushPolygon getSymmetryAxis distance
      catmullRomSpline points OVAL true = Done polygon_r /\
    createPolygon Feature_COUNT calculateBlushPolygon getSymmetryAxis distance
      catmullRomSpline points OVAL false = Done polygon_l /\
    polygon_l = map (mirror_x m) polygon_r.
Proof.
  intros Hok (H10 & H58 & H12 & H11 & H32 & H51 & H59).
  rewrite !createPolygon_OVAL_points by assumption.
  eexists. eexists. split; [reflexivity |]. split; [reflexivity |].
  unfold oval_polygon. rewrite H10, H58, H12, H11, H32, H51, H59.
  unfold mirror_x, pdiv, padd, pmul. simpl.
  repeat (f_equal; try field).
Qed.

Lemma ex_sym_landmarks_ok : landmarks_ok 81 ex_sym_landmarks.
Proof. split; [reflexivity | lia]. Qed.

Lemma ex_sym_oval : oval_symmetric 100 ex_sym_landmarks.
Proof. unfold oval_symmetric. repeat split; reflexivity. Qed.

Lemma oval_mirror_witness :
  exists polygon_r polygon_l,
    ex_createPolygon ex_sym_landmarks OVAL true = Done polygon_r /\
    ex_createPolygon ex_sym_landmarks OVAL false = Done polygon_l /\
    polygon_l = map (mirror_x 100) polygon_r.
Proof.
  exact (oval_mirror 81 ex_calculateBlushPolygon ex_getSymmetryAxis ex_distance
           ex_catmullRomSpline ex_sym_landmarks 100 ex_sym_landmarks_ok ex_sym_oval).
Defined.

Lemma down_norm_pos (p q : Point2f) :
  p <> q ->
  (0 < sqrt ((x q - x p) * (x q - x p) + (y q - y p) * (y q - y p)))%R.
Proof.
  intros Hne. apply sqrt_lt_R0.
  destruct (Req_dec (x q - x p) 0) as [Hx | Hx];
    destruct (Req_dec (y q - y p) 0) as [Hy | Hy]; try nra.
  exfalso. apply Hne. destruct p, q. simpl in *. f_equal; lra.
Qed.

Lemma ex_sym_down : landmark ex_sym_landmarks 53 <> landmark ex_sym_landmarks 56.
Proof.
  change (landmark ex_sym_landmarks 53) with (mkPoint2f 100 60).
  change (landmark ex_sym_landmarks 56) with (mkPoint2f 100 90).
  intros H. injection H as H. lra.
Qed.

(** X11: when landmarks 53 and 56 differ, the SEAGULL polygon has every one
    of its ten slots written.  With [u] the vector from landmark 53 to
    landmark 56 divided by its length, a unit vector, and [carriage] landmark
    42 (43 on the left): slot 0 is landmark 1 (11), slot 5 is landmark 54
    (52), slots 1 to 4 are landmarks 22, 23, 24, 25 (29, 30, 31, 26) each
    moved along [u] by three times the projection of [carriage - landmark]
    on [u], and slots 9 down to 6 the same landmarks moved by twice that
    projection. *)
Theorem seagull_content (Feature_COUNT : nat)
    (calculateBlushPolygon : list Point2f -> bool -> list Point2f)
    (getSymmetryAxis : list Point2f -> Vec4f) (distance : Point2f -> Vec4f -> R)
    (catmullRomSpline : R -> Point2f -> Point2f -> Point2f -> Point2f -> Point2f)
    (points : list Point2f) (right : bool) :
  landmarks_ok Feature_COUNT points ->
  landmark points 53 <> landmark points 56 ->
  let dx := (x (landmark points 56) - x (landmark points 53))%R in
  let dy := (y (landmark points 56) - y (landmark points 53))%R in
  let ux := (dx / sqrt (dx * dx + dy * dy))%R in
  let uy := (dy / sqrt (dx * dx + dy * dy))%R in
  let side := fun k_right k_left : Z => if right then k_right else k_left in
  let carriage := landmark points (side 42 43) in
  let moved := fun (factor : R) (k : Z) =>
    let dot := ((x carriage - x (landmark points k)) * ux
                + (y carriage - y (landmark points k)) * uy)%R in
    mkPoint2f (x (landmark points k) + factor * (dot * ux))%R
              (y (landmark points k) + factor * (dot * uy))%R in
  (ux * ux + uy * uy = 1)%R /\
  createPolygon Feature_COUNT calculateBlushPolygon getSymmetryAxis distance
    catmullRomSpline points SEAGULL right
  = Done [ landmark points (side 1 11);
           moved 3%R (side 22 29); moved 3%R (side 23 30);
           moved 3%R (side 24 31); moved 3%R (side 25 26);
           landmark points (side 54 52);
           moved 2%R (side 25 26); moved 2%R (side 24 31);
           moved 2%R (side 23 30); moved 2%R (side 22 29) ].
Proof.
  intros Hok Hne dx dy ux uy side carriage moved. split.
  - pose proof (down_norm_pos _ _ Hne) as Hpos. fold dx in Hpos. fold dy in Hpos.
    assert (Hn2 : (sqrt (dx * dx + dy * dy) * sqrt (dx * dx + dy * dy)
                   = dx * dx + dy * dy)%R) by (apply sqrt_sqrt; nra).
    unfold ux, uy.
    transitivity ((dx * dx + dy * dy)
                  / (sqrt (dx * dx + dy * dy) * sqrt (dx * dx + dy * dy)))%R.
    + field. lra.
    + rewrite Hn2. field. rewrite <- Hn2. nra.
  - rewrite createPolygon_SEAGULL_points by assumption.
    destruct right; reflexivity.
Qed.

Lemma seagull_content_witness :
  let dx := (x (landmark ex_sym_landmarks 56) - x (landmark ex_sym_landmarks 53))%R in
  let dy := (y (landmark ex_sym_landmarks 56) - y (landmark ex_sym_landmarks 53))%R in
  let ux := (dx / sqrt (dx * dx + dy * dy))%R in
  let uy := (dy / sqrt (dx * dx + dy * dy))%R in
  let carriage := landmark ex_sym_landmarks 42 in
  let moved := fun (factor : R) (k : Z) =>
    let dot := ((x carriage - x (landmark ex_sym_landmarks k)) * ux
                + (y carriage - y (landmark ex_sym_landmarks k)) * uy)%R in
    mkPoint2f (x (landmark ex_sym_landmarks k) + factor * (dot * ux))%R
              (y (landmark ex_sym_landmarks k) + factor * (dot * uy))%R in
  (ux * ux + uy * uy = 1)%R /\
  ex_createPolygon ex_sym_landmarks SEAGULL true
  = Done [ landmark ex_sym_landmarks 1;
           moved 3%R 22; moved 3%R 23; moved 3%R 24; moved 3%R 25;
           landmark ex_sym_landmarks 54;
           moved 2%R 25; moved 2%R 24; moved 2%R 23; moved 2%R 22 ].
Proof.
  exact (seagull_content 81 ex_calculateBlushPolygon ex_getSymmetryAxis ex_distance
           ex_catmullRomSpline ex_sym_landmarks true ex_sym_landmarks_ok ex_sym_down).
Defined.

Lemma seagull_point_mirror (points : list Point2f) (m : R) (carriage : Point2f)
    (factor : R) (k k' : Z) :
  x (seagull_down points) = 0%R ->
  landmark points k' = mirror_x m (landmark points k) ->
  seagull_point points (mirror_x m carriage) factor k'
  = mirror_x m (seagull_point points carriage factor k).
Proof.
  intros Hx Hk. unfold seagull_point. cbv zeta. rewrite Hk.
  destruct (seagull_down points) as [dx dy]. simpl in Hx. subst dx.
  unfold mirror_x, padd, pscale, psub. simpl. f_equal; ring.
Qed.

(** X12: for a landmark set that is symmetric in a vertical line through
    landmarks 53 and 56, which are two different points, the SEAGULL polygon
    of the left side is the mirror image, point by point, of the SEAGULL
    polygon of the right side. *)
Theorem seagull_mirror (Feature_COUNT : nat)
    (calculateBlushPolygon : list Point2f -> bool -> list Point2f)
    (getSymmetryAxis : list Point2f -> Vec4f) (distance : Point2f -> Vec4f -> R)
    (catmullRomSpline : R -> Point2f -> Point2f -> Point2f -> Point2f -> Point2f)
    (points : list Point2f) (m : R) :
  landmarks_ok Feature_COUNT points -> seagull_symmetric m points ->
  landmark points 53 <> landmark points 56 ->
  exists polygon_r polygon_l,
    createPolygon Feature_COUNT calculateBlushPolygon getSymmetryAxis distance
      catmullRomSpline points SEAGULL true = Done polygon_r /\
    createPolygon Feature_COUNT calculateBlushPolygon getSymmetryAxis distance
      catmullRomSpline points SEAGULL false = Done polygon_l /\
    polygon_l = map (mirror_x m) polygon_r.
Proof.
  intros Hok (H11 & H52 & H43 & H29 & H30 & H31 & H26 & H53 & H56) Hne.
  rewrite !createPolygon_SEAGULL_points by assumption.
  eexists. eexists. split; [reflexivity |]. split; [reflexivity |].
  assert (Hx : x (seagull_down points) = 0%R).
  { unfold seagull_down, pdiv, psub. simpl. rewrite H53, H56.
    unfold Rdiv, Rminus. rewrite Rplus_opp_r, Rmult_0_l. reflexivity. }
  unfold seagull_polygon. cbv zeta. rewrite H43, H11, H52.
  rewrite !(seagull_point_mirror points m (landmark points 42) _ 22 29 Hx H29).
  rewrite !(seagull_point_mirror points m (landmark points 42) _ 23 30 Hx H30).
  rewrite !(seagull_point_mirror points m (landmark points 42) _ 24 31 Hx H31).
  rewrite !(seagull_point_mirror points m (landmark points 42) _ 25 26 Hx H26).
  reflexivity.
Qed.

Lemma ex_sym_seagull : seagull_symmetric 100 ex_sym_landmarks.
Proof. unfold seagull_symmetric. repeat split; reflexivity. Qed.

Lemma seagull_mirror_witness :
  exists polygon_r polygon_l,
    ex_createPolygon ex_sym_landmarks SEAGULL true = Done polygon_r /\
    ex_createPolygon ex_sym_landmarks SEAGULL false = Done polygon_l /\
    polygon_l = map (mirror_x 100) polygon_r.
Proof.
  exact (seagull_mirror 81 ex_calculateBlushPolygon ex_getSymmetryAxis ex_distance
           ex_catmullRomSpline ex_sym_landmarks 100 ex_sym_landmarks_ok ex_sym_seagull
           ex_sym_down).
Defined.

(** ** Makeup::applyEye: the eye parameters and the flipped contour *)

Section EyeParamsProofs.

Local Open Scope R_scope.

Variable distance_points : Point2f -> Point2f -> R.

Lemma atan2_right_half (b a : R) : 0 <= a -> - (PI / 2) <= atan2 b a <= PI / 2.
Proof.
  intros Ha. pose proof PI_RGT_0 as Hp. unfold atan2.
  destruct (Rlt_dec 0 a) as [Hpos | Hn].
  - pose proof (atan_bound (b / a)). lra.
  - destruct (Rlt_dec a 0) as [Hneg | _]; [lra |].
    destruct (Rlt_dec 0 b); [lra |]. destruct (Rlt_dec b 0); lra.
Qed.

Lemma eye_delta (right left : Point2f) :
  x right <> x left ->
  (if Rlt_dec (x (psub right left)) 0 then pneg (psub right left) else psub right left)
  = (if Rlt_dec (x (psub left right)) 0 then pneg (psub left right) else psub left right).
Proof.
  intros Hne. unfold psub, pneg. simpl.
  destruct (Rlt_dec (x right - x left) 0), (Rlt_dec (x left - x right) 0);
    try lra; f_equal; ring.
Qed.

End EyeParamsProofs.

(** X13: the eye parameters computed by [calcuateEyeParams] have the
    midpoint of the two corners as pivot and an angle in [[-pi/2, pi/2]];
    pivot and, for corners that are not on one vertical line, angle do not
    depend on the order in which the corners are given. *)
Theorem eye_params_range (distance_points : Point2f -> Point2f -> R)
    (right left : Point2f) :
  f4_0 (calcuateEyeParams distance_points right left) = ((x right + x left) / 2)%R /\
  f4_1 (calcuateEyeParams distance_points right left) = ((y right + y left) / 2)%R /\
  (- (PI / 2) <= f4_3 (calcuateEyeParams distance_points right left) <= PI / 2)%R /\
  f4_0 (calcuateEyeParams distance_points left right)
  = f4_0 (calcuateEyeParams distance_points right left) /\
  f4_1 (calcuateEyeParams distance_points left right)
  = f4_1 (calcuateEyeParams distance_points right left) /\
  (x right <> x left ->
   f4_3 (calcuateEyeParams distance_points left right)
   = f4_3 (calcuateEyeParams distance_points right left)).
Proof.
  unfold calcuateEyeParams. cbv zeta. cbn [f4_0 f4_1 f4_3].
  split; [reflexivity |]. split; [reflexivity |]. split.
  - apply atan2_right_half.
    unfold psub, pneg. simpl.
    destruct (Rlt_dec (x right - x left) 0); simpl; lra.
  - split; [unfold padd, pdiv; simpl; lra |].
    split; [unfold padd, pdiv; simpl; lra |].
    intros Hne. rewrite (eye_delta right left Hne). reflexivity.
Qed.

Lemma eye_params_range_witness :
  f4_3 (calcuateEyeParams ex_distance_points (mkPoint2f 290 287) (mkPoint2f 633 287))
  = f4_3 (calcuateEyeParams ex_distance_points (mkPoint2f 633 287) (mkPoint2f 290 287)).
Proof.
  apply (eye_params_range ex_distance_points (mkPoint2f 633 287) (mkPoint2f 290 287)).
  simpl. lra.
Defined.

Lemma eye_dst_points_right (points dst_points : list Point2f) :
  (51 < length points)%nat -> length dst_points = 8%nat ->
  exists l,
    eye_dst_points points true dst_points = Done l /\ length l = 8%nat /\
    forall i : nat, (i < 8)%nat -> l !! i = Some (landmark points (34 + Z.of_nat i)).
Proof.
  intros Hp Hd. unfold eye_dst_points.
  apply (fill_loop _ (fun i => landmark points (34 + i))); [assumption |].
  intros i buf Hi. rewrite buf_get_landmark by lia. reflexivity.
Qed.

Lemma eye_dst_points_left (points dst_points : list Point2f) :
  (51 < length points)%nat -> length dst_points = 8%nat ->
  exists l,
    eye_dst_points points false dst_points = Done l /\ length l = 8%nat /\
    forall i : nat, (i < 8)%nat ->
      l !! i = Some (mkPoint2f (x (landmark points 44) + x (landmark points 48)
                                - x (landmark points (44 + Z.of_nat i)))
                               (y (landmark points (44 + Z.of_nat i)))).
Proof.
  intros Hp Hd. unfold eye_dst_points.
  rewrite !buf_get_landmark by lia. cbn [bind]. cbv zeta.
  apply (fill_loop _
           (fun i => mkPoint2f (x (landmark points 44) + x (landmark points 48)
                                - x (landmark points (44 + i)))
                               (y (landmark points (44 + i))))); [assumption |].
  intros i buf Hi. rewrite buf_get_landmark by lia. reflexivity.
Qed.

(** X14: in [applyEye] the contour of the right eye is landmarks 34 to 41 as
    they are; the contour of the left eye is landmarks 44 to 51 mirrored in
    the vertical line through the midpoint of the corners 44 and 48, so the
    x-coordinates of the two corners are exchanged and the pivot computed
    from the flipped corners is the pivot of the eye itself. *)
Theorem eye_contour_flip (distance_points : Point2f -> Point2f -> R)
    (points dst_points : list Point2f) :
  (51 < length points)%nat -> length dst_points = 8%nat ->
  (exists l,
      eye_dst_points points true dst_points = Done l /\ length l = 8%nat /\
      forall i : nat, (i < 8)%nat -> l !! i = Some (landmark points (34 + Z.of_nat i))) /\
  (exists l d0 d4,
      eye_dst_points points false dst_points = Done l /\ length l = 8%nat /\
      (forall i : nat, (i < 8)%nat ->
         l !! i
         = Some (mirror_x ((x (landmark points 44) + x (landmark points 48)) / 2)
                          (landmark points (44 + Z.of_nat i)))) /\
      l !! 0%nat = Some d0 /\ l !! 4%nat = Some d4 /\
      x d0 = x (landmark points 48) /\ x d4 = x (landmark points 44) /\
      f4_0 (calcuateEyeParams distance_points d0 d4)
      = f4_0 (calcuateEyeParams distance_points (landmark points 44) (landmark points 48)) /\
      f4_1 (calcuateEyeParams distance_points d0 d4)
      = f4_1 (calcuateEyeParams distance_points (landmark points 44) (landmark points 48))).
Proof.
  intros Hp Hd. split; [apply eye_dst_points_right; assumption |].
  destruct (eye_dst_points_left points dst_points Hp Hd) as (l & E & Hl & Hpt).
  exists l. eexists. eexists. split; [exact E |]. split; [exact Hl |].
  split.
  { intros i Hi. rewrite (Hpt i Hi). unfold mirror_x. f_equal. f_equal. field. }
  split; [apply (Hpt 0%nat); lia |]. split; [apply (Hpt 4%nat); lia |].
  unfold calcuateEyeParams, padd, pdiv. cbn.
  change (44 + Z.of_nat 0) with 44. change (44 + Z.of_nat 4) with 48.
  repeat split; lra.
Qed.

Lemma eye_contour_flip_witness :
  (exists l,
      eye_dst_points ex_landmarks true (replicate 8 Point2f_zero) = Done l /\
      length l = 8%nat /\
      forall i : nat, (i < 8)%nat ->
        l !! i = Some (landmark ex_landmarks (34 + Z.of_nat i))) /\
  (exists l d0 d4,
      eye_dst_points ex_landmarks false (replicate 8 Point2f_zero) = Done l /\
      length l = 8%nat /\
      (forall i : nat, (i < 8)%nat ->
         l !! i
         = Some (mirror_x ((x (landmark ex_landmarks 44) + x (landmark ex_landmarks 48)) / 2)
                          (landmark ex_landmarks (44 + Z.of_nat i)))) /\
      l !! 0%nat = Some d0 /\ l !! 4%nat = Some d4 /\
      x d0 = x (landmark ex_landmarks 48) /\ x d4 = x (landmark ex_landmarks 44) /\
      f4_0 (calcuateEyeParams ex_distance_points d0 d4)
      = f4_0 (calcuateEyeParams ex_distance_points (landmark ex_landmarks 44)
                (landmark ex_landmarks 48)) /\
      f4_1 (calcuateEyeParams ex_distance_points d0 d4)
      = f4_1 (calcuateEyeParams ex_distance_points (landmark ex_landmarks 44)
                (landmark ex_landmarks 48))).
Proof.
  apply (eye_contour_flip ex_distance_points ex_landmarks (replicate 8 Point2f_zero)).
  - simpl. lia.
  - reflexivity.
Defined.

(** ** Makeup::applyLip *)

Lemma fill_color_loop {A : Type} (N : nat) (z color : A) :
  exists buf,
    for_loop N 0 (fun i lip_data => buf_set lip_data i color) (replicate N z) = Done buf /\
    length buf = N /\
    forall i : nat, (i < N)%nat -> buf !! i = Some color.
Proof.
  apply (fill_loop _ (fun _ => color)).
  - apply length_replicate.
  - intros i buf _. reflexivity.
Qed.

Section LipProofs.

Variable mix : Z -> Z -> R -> Z.
Variable calculateLipshRegion : Mat Z -> list Point2f -> Region.
Variable cvRound : R -> Z.

Lemma applyLip_unfold (src : Mat Z) (points : list Point2f) (color : Z) (amount : R) :
  Mat_empty src = false -> channels (type src) = 4 ->
  let region := calculateLipshRegion src points in
  let mask := region_mask region in
  exists lip,
    applyLip mix calculateLipshRegion cvRound src points color amount
    = blend_masked mix src lip mask (lip_origin cvRound region) amount /\
    rows lip = rows mask /\ cols lip = cols mask /\ type lip = CV_8UC4 /\
    (0 <= rows mask -> 0 <= cols mask -> Mat_wf lip) /\
    forall r c, in_bounds lip r c = true -> 0 <= rows mask -> 0 <= cols mask ->
                Mat_at lip r c = Done color.
Proof.
  intros He Hc region mask. unfold applyLip. rewrite He, Hc. simpl.
  fold region. fold mask.
  destruct (fill_color_loop (Z.to_nat (rows mask * cols mask)) 0 color)
    as (buf & E & Hl & Hpt).
  rewrite E. cbn [bind].
  exists (mkMat (rows mask) (cols mask) CV_8UC4 buf).
  split; [reflexivity |]. repeat (split; [reflexivity |]).
  split.
  - intros Hr Hcl. unfold Mat_wf. simpl. rewrite Hl. nia.
  - intros r c Hb Hr Hcl. unfold Mat_at. rewrite Hb. simpl.
    apply in_bounds_true in Hb. simpl in Hb.
    rewrite Hpt; [reflexivity |]. nia.
Qed.

End LipProofs.

(** X15: [applyLip] fails an assertion on every image that is not of type
    CV_8UC4: its own assertion admits any four-channel image, but the solid
    colour buffer it blends is CV_8UC4, so a four-channel float image is
    refused by the masked blend. *)
Theorem applyLip_only_8UC4 (mix : Z -> Z -> R -> Z)
    (calculateLipshRegion : Mat Z -> list Point2f -> Region) (cvRound : R -> Z)
    (src : Mat Z) (points : list Point2f) (color : Z) (amount : R) :
  type src <> CV_8UC4 ->
  applyLip mix calculateLipshRegion cvRound src points color amount = AssertionFailed.
Proof.
  intros Hne.
  destruct (Mat_empty src) eqn:He;
    [unfold applyLip; rewrite He; reflexivity |].
  destruct (Z.eqb_spec (channels (type src)) 4) as [Hc | Hc];
    [| unfold applyLip; rewrite He; simpl;
       destruct (Z.eqb_spec (channels (type src)) 4); [contradiction | reflexivity]].
  destruct (applyLip_unfold mix calculateLipshRegion cvRound src points color amount He Hc)
    as (lip & E & _ & _ & Ht & _).
  rewrite E. unfold blend_masked. rewrite Ht, Hc. simpl.
  destruct (type src) as [d ch] eqn:Ety. simpl in *. subst ch.
  destruct d; try reflexivity. exfalso. apply Hne. reflexivity.
Qed.

Lemma applyLip_only_8UC4_witness :
  applyLip ex_mix_packed ex_calculateLipshRegion ex_cvRound
    (mkMat 1 1 CV_32FC4 [0]) [] 0xFF0000FF 1%R = AssertionFailed.
Proof.
  apply (applyLip_only_8UC4 ex_mix_packed ex_calculateLipshRegion ex_cvRound
           (mkMat 1 1 CV_32FC4 [0]) [] 0xFF0000FF 1%R).
  discriminate.
Defined.



(** ** Makeup::applyBlush *)

Lemma createPolygon_Done (Feature_COUNT : nat)
    (calculateBlushPolygon : list Point2f -> bool -> list Point2f)
    (getSymmetryAxis : list Point2f -> Vec4f) (distance : Point2f -> Vec4f -> R)
    (catmullRomSpline : R -> Point2f -> Point2f -> Point2f -> Point2f -> Point2f)
    (points : list Point2f) (shape : BlushShape) (right : bool) :
  landmarks_ok Feature_COUNT points ->
  exists polygon,
    createPolygon Feature_COUNT calculateBlushPolygon getSymmetryAxis distance
      catmullRomSpline points shape right = Done polygon.
Proof.
  intros Hok. destruct shape.
  - rewrite createPolygon_DEFAULT by assumption. eauto.
  - destruct (createPolygon_DISK Feature_COUNT calculateBlushPolygon getSymmetryAxis
                distance catmullRomSpline points right Hok) as (l & E & _). eauto.
  - destruct (createPolygon_OVAL Feature_COUNT calculateBlushPolygon getSymmetryAxis
                distance catmullRomSpline points right Hok) as (l & E & _). eauto.
  - destruct (createPolygon_TRIANGLE Feature_COUNT calculateBlushPolygon getSymmetryAxis
                distance catmullRomSpline points right Hok) as (l & E & _). eauto.
  - destruct (createPolygon_HEART Feature_COUNT calculateBlushPolygon getSymmetryAxis
                distance catmullRomSpline points right Hok) as (l & E & _). eauto.
  - destruct (createPolygon_SEAGULL Feature_COUNT calculateBlushPolygon getSymmetryAxis
                distance catmullRomSpline points right Hok) as (l & E & _). eauto.
Qed.

Lemma Rleb_true (a b : R) : (a <= b)%R -> Rleb a b = true.
Proof. intros H. unfold Rleb. destruct (Rle_dec a b); [reflexivity | contradiction]. Qed.

Section BlushProofs.

Variable mix : Z -> Z -> R -> Z.
Variable USE_BGRA_LAYOUT : bool.
Variable Feature_COUNT : nat.
Variable calculateBlushPolygon : list Point2f -> bool -> list Point2f.
Variable getSymmetryAxis : list Point2f -> Vec4f.
Variable distance : Point2f -> Vec4f -> R.
Variable catmullRomSpline : R -> Point2f -> Point2f -> Point2f -> Point2f -> Point2f.
Variable boundingRect : list Point2f -> Rect.
Variable maskPolygonSmooth : Rect -> list Point2f -> Z -> Mat Z.

Lemma applyBlush_side_spec (points : list Point2f) (shape : BlushShape) (color : Z)
    (amount : R) (i : Z) (dst : Mat Z) (polygon : list Point2f) :
  Mat_wf dst -> type dst = CV_8UC4 ->
  createPolygon Feature_COUNT calculateBlushPolygon getSymmetryAxis distance
    catmullRomSpline points shape (negb (i =? 0)) = Done polygon ->
  let rect := boundingRect polygon in
  let mask := maskPolygonSmooth rect polygon 8 in
  good_mask mask -> Mat_empty mask = false ->
  exists dst',
    applyBlush_side mix USE_BGRA_LAYOUT Feature_COUNT calculateBlushPolygon
      getSymmetryAxis distance catmullRomSpline boundingRect maskPolygonSmooth
      points shape color amount i dst = Done dst' /\
    Mat_wf dst' /\ same_shape dst' dst /\
    forall r c, ~ blush_covers rect mask r c -> Mat_at dst' r c = Mat_at dst r c.
Proof.
  intros Hd Ht Ep rect mask (Hm & Hmt) Hne.
  unfold applyBlush_side. rewrite Ep. cbn [bind]. fold rect. fold mask.
  destruct (pack_pixels USE_BGRA_LAYOUT mask color Hm Hmt)
    as (blush & Eb & Hbwf & Hbr & Hbc & Hbt & _).
  rewrite Eb. cbn [bind].
  assert (Hbe : Mat_empty blush = false).
  { unfold Mat_empty in *. rewrite Hbr, Hbc. exact Hne. }
  rewrite (blend_supported Z mix dst blush _ amount Hbe) by (try left; congruence).
  destruct (blend_loop_spec Z mix dst blush (mkPoint2i (rect_x rect) (rect_y rect)) amount
              Hd Hbwf) as (dst' & E & Hwf' & Hsh & Hpt).
  exists dst'. split; [exact E |]. split; [assumption |]. split; [assumption |].
  intros r c Hnc.
  destruct (Mat_at_cases dst r c Hd) as [[d Hdv] | [Hb Hoob]].
  - rewrite Hdv. apply (Hpt r c d Hdv). intros Hr.
    destruct (overlap_spec dst blush (mkPoint2i (rect_x rect) (rect_y rect)))
      as (_ & _ & Hov).
    apply Hov in Hr. destruct Hr as [_ Hbb]. apply Hnc.
    unfold blush_covers. unfold in_bounds in *. simpl in Hbb.
    rewrite <- Hbr, <- Hbc. exact Hbb.
  - rewrite Hoob. apply Mat_at_oob_shape with dst; assumption.
Qed.

End BlushProofs.

(** X17: on a well-formed, non-empty CV_8UC4 image, a landmark set of the
    required length and an amount in [[0, 1]], with masks from the polygon
    rasteriser that are well-formed, non-empty and of type CV_8UC1,
    [applyBlush] returns an image of the same size and type in which every
    pixel that neither cheek's mask covers, placed at the corner of the
    bounding rectangle of its polygon, is the source pixel. *)
Theorem applyBlush_frame (mix : Z -> Z -> R -> Z) (USE_BGRA_LAYOUT : bool)
    (Feature_COUNT : nat)
    (calculateBlushPolygon : list Point2f -> bool -> list Point2f)
    (getSymmetryAxis : list Point2f -> Vec4f) (distance : Point2f -> Vec4f -> R)
    (catmullRomSpline : R -> Point2f -> Point2f -> Point2f -> Point2f -> Point2f)
    (boundingRect : list Point2f -> Rect)
    (maskPolygonSmooth : Rect -> list Point2f -> Z -> Mat Z)
    (src : Mat Z) (points : list Point2f) (shape : BlushShape) (color : Z) (amount : R) :
  good_image src -> landmarks_ok Feature_COUNT points ->
  (0 <= amount <= 1)%R ->
  (forall right polygon,
     createPolygon Feature_COUNT calculateBlushPolygon getSymmetryAxis distance
       catmullRomSpline points shape right = Done polygon ->
     good_mask (maskPolygonSmooth (boundingRect polygon) polygon 8) /\
     Mat_empty (maskPolygonSmooth (boundingRect polygon) polygon 8) = false) ->
  exists dst,
    applyBlush mix USE_BGRA_LAYOUT Feature_COUNT calculateBlushPolygon getSymmetryAxis
      distance catmullRomSpline boundingRect maskPolygonSmooth src points shape color amount
    = Done dst /\
    Mat_wf dst /\ same_shape dst src /\
    forall r c,
      (forall right polygon,
         createPolygon Feature_COUNT calculateBlushPolygon getSymmetryAxis distance
           catmullRomSpline points shape right = Done polygon ->
         ~ blush_covers (boundingRect polygon)
             (maskPolygonSmooth (boundingRect polygon) polygon 8) r c) ->
      Mat_at dst r c = Mat_at src r c.
Proof.
  intros (Hs & He & Ht) Hok [Ha0 Ha1] Hmasks.
  destruct (createPolygon_Done Feature_COUNT calculateBlushPolygon getSymmetryAxis distance
              catmullRomSpline points shape false Hok) as (pl & Epl).
  destruct (createPolygon_Done Feature_COUNT calculateBlushPolygon getSymmetryAxis distance
              catmullRomSpline points shape true Hok) as (pr & Epr).
  destruct (Hmasks false pl Epl) as [Hml Hnl].
  destruct (Hmasks true pr Epr) as [Hmr Hnr].
  destruct (applyBlush_side_spec mix USE_BGRA_LAYOUT Feature_COUNT calculateBlushPolygon
              getSymmetryAxis distance catmullRomSpline boundingRect maskPolygonSmooth
              points shape color amount 0 src pl Hs Ht Epl Hml Hnl)
    as (d1 & E1 & Hwf1 & Hsh1 & Hpt1).
  assert (Ht1 : type d1 = CV_8UC4) by (destruct Hsh1 as (_ & _ & ->); exact Ht).
  destruct (applyBlush_side_spec mix USE_BGRA_LAYOUT Feature_COUNT calculateBlushPolygon
              getSymmetryAxis distance catmullRomSpline boundingRect maskPolygonSmooth
              points shape color amount 1 d1 pr Hwf1 Ht1 Epr Hmr Hnr)
    as (d2 & E2 & Hwf2 & Hsh2 & Hpt2).
  exists d2. split.
  { unfold applyBlush. rewrite He. destruct Hok as [Hlen _].
    rewrite Hlen, Nat.eqb_refl, (Rleb_true 0 amount Ha0), (Rleb_true amount 1 Ha1).
    cbn [negb andb assert bind for_loop].
    rewrite E1. cbn [bind]. change (0 + 1) with 1. rewrite E2. reflexivity. }
  split; [assumption |]. split.
  { destruct Hsh1 as (? & ? & ?), Hsh2 as (? & ? & ?). unfold same_shape.
    repeat split; congruence. }
  intros r c Hnc. rewrite (Hpt2 r c (Hnc true pr Epr)). apply Hpt1. apply (Hnc false pl Epl).
Qed.

Lemma applyBlush_frame_witness :
  exists dst,
    applyBlush ex_mix_packed false 81 ex_calculateBlushPolygon ex_getSymmetryAxis
      ex_distance ex_catmullRomSpline ex_boundingRect ex_maskPolygonSmooth
      ex_image ex_landmarks DISK 0xFF0000FF 1%R = Done dst /\
    Mat_wf dst /\ same_shape dst ex_image /\
    forall r c,
      (forall right polygon,
         createPolygon 81 ex_calculateBlushPolygon ex_getSymmetryAxis ex_distance
           ex_catmullRomSpline ex_landmarks DISK right = Done polygon ->
         ~ blush_covers (ex_boundingRect polygon)
             (ex_maskPolygonSmooth (ex_boundingRect polygon) polygon 8) r c) ->
      Mat_at dst r c = Mat_at ex_image r c.
Proof.
  apply (applyBlush_frame ex_mix_packed false 81 ex_calculateBlushPolygon
           ex_getSymmetryAxis ex_distance ex_catmullRomSpline ex_boundingRect
           ex_maskPolygonSmooth ex_image ex_landmarks DISK 0xFF0000FF 1%R).
  - repeat split; simpl; lia.
  - split; [reflexivity | lia].
  - lra.
  - intros right polygon _. repeat split; simpl; lia.
Defined.

(** X18: when the mask rasterised for the left cheek, the first one
    [applyBlush] handles, is empty, [applyBlush] fails an assertion although
    its own preconditions hold: the packed blush is empty and the blend
    refuses an empty source. *)
Theorem applyBlush_empty_mask (mix : Z -> Z -> R -> Z) (USE_BGRA_LAYOUT : bool)
    (Feature_COUNT : nat)
    (calculateBlushPolygon : list Point2f -> bool -> list Point2f)
    (getSymmetryAxis : list Point2f -> Vec4f) (distance : Point2f -> Vec4f -> R)
    (catmullRomSpline : R -> Point2f -> Point2f -> Point2f -> Point2f -> Point2f)
    (boundingRect : list Point2f -> Rect)
    (maskPolygonSmooth : Rect -> list Point2f -> Z -> Mat Z)
    (src : Mat Z) (points : list Point2f) (shape : BlushShape) (color : Z) (amount : R)
    (polygon : list Point2f) :
  Mat_empty src = false -> landmarks_ok Feature_COUNT points ->
  (0 <= amount <= 1)%R ->
  createPolygon Feature_COUNT calculateBlushPolygon getSymmetryAxis distance
    catmullRomSpline points shape false = Done polygon ->
  good_mask (maskPolygonSmooth (boundingRect polygon) polygon 8) ->
  Mat_empty (maskPolygonSmooth (boundingRect polygon) polygon 8) = true ->
  applyBlush mix USE_BGRA_LAYOUT Feature_COUNT calculateBlushPolygon getSymmetryAxis
    distance catmullRomSpline boundingRect maskPolygonSmooth src points shape color amount
  = AssertionFailed.
Proof.
  intros He [Hlen _] [Ha0 Ha1] Ep (Hm & Hmt) Hempty.
  unfold applyBlush. rewrite He, Hlen, Nat.eqb_refl.
  rewrite (Rleb_true 0 amount Ha0), (Rleb_true amount 1 Ha1).
  cbn [negb andb assert bind for_loop].
  unfold applyBlush_side at 1. change (negb (0 =? 0)) with false. rewrite Ep. cbn [bind].
  destruct (pack_pixels USE_BGRA_LAYOUT _ color Hm Hmt)
    as (blush & Eb & _ & Hbr & Hbc & _ & _).
  rewrite Eb. cbn [bind].
  assert (Hbe : Mat_empty blush = true).
  { unfold Mat_empty in *. rewrite Hbr, Hbc. exact Hempty. }
  unfold blend. rewrite Hbe. reflexivity.
Qed.

Lemma applyBlush_empty_mask_witness :
  applyBlush ex_mix_packed false 81 ex_calculateBlushPolygon ex_getSymmetryAxis
    ex_distance ex_catmullRomSpline (fun _ => mkRect 0 0 0 0) ex_maskPolygonSmooth
    ex_image ex_landmarks DEFAULT 0xFF0000FF 1%R = AssertionFailed.
Proof.
  apply (applyBlush_empty_mask ex_mix_packed false 81 ex_calculateBlushPolygon
           ex_getSymmetryAxis ex_distance ex_catmullRomSpline (fun _ => mkRect 0 0 0 0)
           ex_maskPolygonSmooth ex_image ex_landmarks DEFAULT 0xFF0000FF 1%R
           (ex_calculateBlushPolygon ex_landmarks false)).
  - reflexivity.
  - split; [reflexivity | lia].
  - lra.
  - reflexivity.
  - repeat split; simpl; lia.
  - reflexivity.
Defined.

(** ** Makeup::applyEye, applyEyeLash and applyEyeShadow *)

Lemma eye_dst_points_Done (points : list Point2f) (right : bool)
    (dst_points : list Point2f) :
  (51 < length points)%nat -> length dst_points = 8%nat ->
  exists l, eye_dst_points points right dst_points = Done l /\ length l = 8%nat.
Proof.
  intros Hp Hd. destruct right.
  - destruct (eye_dst_points_right points dst_points Hp Hd) as (l & E & L & _). eauto.
  - destruct (eye_dst_points_left points dst_points Hp Hd) as (l & E & L & _). eauto.
Qed.

Lemma offset_loop_Done (offset : Point2f) (dst_points : list Point2f) :
  length dst_points = 8%nat ->
  exists l,
    for_loop 8 0
      (fun i dst_points =>
         p <- buf_get dst_points i ;;
         buf_set dst_points i (padd p offset))
      dst_points = Done l /\
    length l = 8%nat.
Proof.
  intros Hl.
  destruct (for_loop_inv (fun (_ : Z) (l : list Point2f) => length l = 8%nat)
              (fun i dst_points =>
                 p <- buf_get dst_points i ;;
                 buf_set dst_points i (padd p offset))
              8 0 dst_points Hl) as (l & E & L).
  - intros i s Hi Hs. rewrite buf_get_landmark by lia. cbn [bind].
    destruct (buf_set_Done s i (padd (landmark s i) offset)) as (s' & E' & L'); [lia |].
    exists s'. split; [exact E' | congruence].
  - eauto.
Qed.

Lemma ex_EyeWarp_ok (Pixel : Type) : EyeWarp_ok (ex_EyeWarp Pixel).
Proof. unfold EyeWarp_ok, ex_EyeWarp. simpl. auto. Qed.

Section EyeProofs.

Variable Pixel : Type.
Variable mix : Pixel -> Pixel -> R -> Pixel.
Variable W : EyeWarp Pixel.
Variable distance_points : Point2f -> Point2f -> R.
Variable cvRound : R -> Z.

Lemma applyEye_side_spec (points : list Point2f) (cosmetic : Mat Pixel) (amount : R)
    (PARAMS : Vec4f) (j : Z) (dst : Mat Pixel) (dst_points : list Point2f) :
  EyeWarp_ok W -> good_image cosmetic -> (51 < length points)%nat ->
  Mat_wf dst -> type dst = CV_8UC4 -> length dst_points = 8%nat ->
  exists dst' dst_points',
    applyEye_side mix W distance_points cvRound points cosmetic amount PARAMS j
      (dst, dst_points) = Done (dst', dst_points') /\
    Mat_wf dst' /\ same_shape dst' dst /\ length dst_points' = 8%nat.
Proof.
  intros (Hwarp & Hrigid & Hflip & Hlen) Hc Hp Hd Ht Hl.
  unfold applyEye_side. cbn [fst snd].
  destruct (eye_dst_points_Done points (j =? 0) dst_points Hp Hl) as (l1 & E1 & L1).
  rewrite E1. cbn [bind].
  rewrite (buf_get_landmark l1 0), (buf_get_landmark l1 4) by lia. cbn [bind]. cbv zeta.
  rewrite (buf_get_landmark points (if j =? 0 then 34 else 44))
    by (destruct (j =? 0); lia).
  cbn [bind].
  rewrite (buf_get_landmark points ((if j =? 0 then 34 else 44) + 4))
    by (destruct (j =? 0); lia).
  cbn [bind].
  rewrite (buf_get_landmark (cv_transform W src_points _) 0)
    by (rewrite Hlen; simpl; lia).
  cbn [bind].
  rewrite (buf_get_landmark (cv_transform W src_points _) 4)
    by (rewrite Hlen; simpl; lia).
  cbn [bind].
  match goal with
  | |- context [buf_set _ _ (padd _ ?o)] =>
      destruct (offset_loop_Done o l1 L1) as (l2 & E2 & L2)
  end.
  rewrite E2. cbn [bind].
  match goal with
  | |- context [blend mix dst ?c ?o amount] => set (cosmetic_j := c); set (origin := o)
  end.
  assert (Hg : good_image cosmetic_j).
  { subst cosmetic_j. destruct (negb (j =? 0)); [apply Hflip |];
      apply Hrigid; apply Hwarp; exact Hc. }
  destruct Hg as (Hgw & Hge & Hgt).
  rewrite (blend_supported Pixel mix dst cosmetic_j origin amount Hge)
    by (try left; congruence).
  destruct (blend_loop_spec Pixel mix dst cosmetic_j origin amount Hd Hgw)
    as (dst' & E & Hwf' & Hsh & _).
  rewrite E. cbn [bind]. exists dst', l2. auto.
Qed.

Lemma applyEye_spec (src : Mat Pixel) (points : list Point2f) (cosmetic : Mat Pixel)
    (amount : R) :
  EyeWarp_ok W -> good_image cosmetic -> Mat_wf src -> type src = CV_8UC4 ->
  (51 < length points)%nat ->
  exists dst,
    applyEye mix W distance_points cvRound src points cosmetic amount = Done dst /\
    Mat_wf dst /\ same_shape dst src.
Proof.
  intros HW Hc Hs Ht Hp. pose proof Hc as (_ & _ & Hct).
  unfold applyEye. rewrite Ht, Hct.
  change (MatType_eqb CV_8UC4 CV_8UC4) with true. cbn [andb assert bind].
  rewrite (buf_get_landmark src_points 0), (buf_get_landmark src_points 4)
    by (simpl; lia).
  cbn [bind]. cbv zeta.
  destruct (for_loop_inv
              (fun (_ : Z) (s : Mat Pixel * list Point2f) =>
                 Mat_wf (fst s) /\ same_shape (fst s) src /\ length (snd s) = 8%nat)
              (applyEye_side mix W distance_points cvRound points cosmetic amount
                 (calcuateEyeParams distance_points (landmark src_points 0)
                    (landmark src_points 4)))
              2 0 (src, replicate 8 Point2f_zero)) as (s & E & Hwf & Hsh & _).
  - cbn [fst snd]. split; [assumption |]. split; [| reflexivity].
    unfold same_shape. auto.
  - intros i [d l] _ (Hwf & Hsh & Hl). cbn [fst snd] in *.
    assert (Htd : type d = CV_8UC4) by (destruct Hsh as (_ & _ & ->); exact Ht).
    destruct (applyEye_side_spec points cosmetic amount
                (calcuateEyeParams distance_points (landmark src_points 0)
                   (landmark src_points 4)) i d l HW Hc Hp Hwf Htd Hl)
      as (d' & l' & E' & Hwf' & Hsh' & Hl').
    exists (d', l'). split; [exact E' |]. cbn [fst snd].
    split; [assumption |]. split; [| assumption].
    destruct Hsh as (? & ? & ?), Hsh' as (? & ? & ?). unfold same_shape.
    repeat split; congruence.
  - rewrite E. cbn [bind]. exists (fst s). auto.
Qed.

End EyeProofs.

Section EyeShadowShape.

Variable USE_BGRA_LAYOUT : bool.
Variable int_div : Z -> Z -> Z.
Hypothesis int_div_near : near_quotient int_div.

Lemma createEyeShadow_wf (m0 m1 m2 : Mat Z) (color_0 color_1 color_2 : Z) :
  masks_ok m0 m1 m2 ->
  exists bitmap,
    createEyeShadow USE_BGRA_LAYOUT int_div [m0; m1; m2] [color_0; color_1; color_2]
    = Done bitmap /\
    Mat_wf bitmap /\ rows bitmap = rows m0 /\ cols bitmap = cols m0 /\
    type bitmap = CV_8UC4.
Proof.
  intros Hok. pose proof Hok as (W0 & _).
  destruct W0 as (Hr & Hc & Hl).
  unfold createEyeShadow.
  change (buf_get [m0; m1; m2] 0) with (Done m0).
  change (buf_get [color_0; color_1; color_2] 0) with (Done color_0).
  change (buf_get [color_0; color_1; color_2] 1) with (Done color_1).
  change (buf_get [color_0; color_1; color_2] 2) with (Done color_2).
  cbn [bind].
  set (bitmap0 := mkMat (rows m0) (cols m0) CV_8UC4
                    (replicate (Z.to_nat (rows m0 * cols m0)) (mkVec4b 0 0 0 0))).
  assert (Hwf0 : Mat_wf bitmap0).
  { unfold Mat_wf, bitmap0. simpl. rewrite length_replicate. nia. }
  assert (Hwin : forall r c,
             in_window 0 0 (Z.to_nat (rows m0)) (Z.to_nat (cols m0)) r c <->
             in_bounds m0 r c = true).
  { intros r c. unfold in_window. rewrite in_bounds_true, !Z2Nat.id by assumption. lia. }
  destruct (pixel_loop
              (fun r c bitmap =>
                 acc <- accumulate [m0; m1; m2]
                          [unpack color_0; unpack color_1; unpack color_2] r c ;;
                 px <- merge_pixel USE_BGRA_LAYOUT int_div acc ;;
                 Mat_set bitmap r c px)
              (fun r c _ => eye_pixel USE_BGRA_LAYOUT int_div m0 m1 m2
                              color_0 color_1 color_2 r c)
              0 0 0 0 (Z.to_nat (rows m0)) (Z.to_nat (cols m0)) bitmap0 Hwf0)
    as (bitmap & E & Hwf & Hsh & _).
  - intros r c Hrc. apply Hwin in Hrc. rewrite !Z.add_0_r. exact Hrc.
  - intros r c m v Hrc Hm Hshape Hv. apply Hwin in Hrc. rewrite !Z.add_0_r.
    destruct (eye_pixel_body USE_BGRA_LAYOUT int_div int_div_near
                m0 m1 m2 color_0 color_1 color_2 r c Hok Hrc)
      as (a0 & a1 & a2 & acc & _ & _ & _ & _ & _ & _ & Eacc & _ & _ & Epx).
    rewrite Eacc. cbn [bind]. rewrite Epx. reflexivity.
  - exists bitmap. split; [exact E |]. destruct Hsh as (Sr & Sc & St).
    repeat (split; [assumption |]). assumption.
Qed.

End EyeShadowShape.

(** X19: with collaborators that return a non-empty CV_8UC4 image when
    given one and as many points as they are given, [applyEye] on a CV_8UC4
    image, a non-empty CV_8UC4 cosmetic and a landmark set that reaches index
    51 returns, after both eyes, an image of the size and type of the
    source. *)
Theorem applyEye_keeps_shape (Pixel : Type) (mix : Pixel -> Pixel -> R -> Pixel)
    (W : EyeWarp Pixel) (distance_points : Point2f -> Point2f -> R) (cvRound : R -> Z)
    (src : Mat Pixel) (points : list Point2f) (cosmetic : Mat Pixel) (amount : R) :
  EyeWarp_ok W -> good_image cosmetic -> Mat_wf src -> type src = CV_8UC4 ->
  (51 < length points)%nat ->
  exists dst,
    applyEye mix W distance_points cvRound src points cosmetic amount = Done dst /\
    Mat_wf dst /\ same_shape dst src.
Proof. apply applyEye_spec. Qed.

Lemma applyEye_keeps_shape_witness :
  exists dst,
    applyEye ex_mix_packed (ex_EyeWarp Z) ex_distance_points ex_cvRound
      ex_image ex_landmarks ex_image 1%R = Done dst /\
    Mat_wf dst /\ same_shape dst ex_image.
Proof.
  apply (applyEye_keeps_shape Z ex_mix_packed (ex_EyeWarp Z) ex_distance_points ex_cvRound
           ex_image ex_landmarks ex_image 1%R).
  - apply ex_EyeWarp_ok.
  - repeat split; simpl; lia.
  - repeat split; simpl; lia.
  - reflexivity.
  - simpl. lia.
Defined.

(** X20: [applyEyeLash] never trips the type assertion of [applyEye] on the
    cosmetic: for a well-formed, non-empty CV_8UC1 mask the packed lash is a
    non-empty CV_8UC4 image, and the call returns an image of the size and
    type of the source, under the conditions of [applyEye] on the source, the
    landmarks and the collaborators. *)
Theorem applyEyeLash_composes (USE_BGRA_LAYOUT : bool) (mix : Z -> Z -> R -> Z)
    (W : EyeWarp Z) (distance_points : Point2f -> Point2f -> R) (cvRound : R -> Z)
    (src : Mat Z) (points : list Point2f) (mask : Mat Z) (color : Z) (amount : R) :
  EyeWarp_ok W -> good_mask mask -> Mat_empty mask = false ->
  Mat_wf src -> type src = CV_8UC4 -> (51 < length points)%nat ->
  exists dst,
    applyEyeLash USE_BGRA_LAYOUT mix W distance_points cvRound src points mask color amount
    = Done dst /\
    Mat_wf dst /\ same_shape dst src.
Proof.
  intros HW (Hm & Hmt) Hne Hs Ht Hp. unfold applyEyeLash. rewrite Hmt.
  change (MatType_eqb CV_8UC1 CV_8UC1) with true. cbn [assert bind].
  destruct (pack_pixels USE_BGRA_LAYOUT mask color Hm Hmt)
    as (eye_lash & E & Hwf & Hr & Hc & Hty & _).
  rewrite E. cbn [bind].
  apply applyEye_spec; try assumption.
  split; [assumption |]. split; [| assumption].
  unfold Mat_empty in *. rewrite Hr, Hc. exact Hne.
Qed.

Lemma applyEyeLash_composes_witness :
  exists dst,
    applyEyeLash true ex_mix_packed (ex_EyeWarp Z) ex_distance_points ex_cvRound
      ex_image ex_landmarks ex_eye_m0 0xFF102030 1%R = Done dst /\
    Mat_wf dst /\ same_shape dst ex_image.
Proof.
  apply (applyEyeLash_composes true ex_mix_packed (ex_EyeWarp Z) ex_distance_points
           ex_cvRound ex_image ex_landmarks ex_eye_m0 0xFF102030 1%R).
  - apply ex_EyeWarp_ok.
  - repeat split; simpl; lia.
  - reflexivity.
  - repeat split; simpl; lia.
  - reflexivity.
  - simpl. lia.
Defined.

(** X21: [applyEyeShadow] never trips an assertion of [createEyeShadow] or
    of [applyEye]: for three well-formed, non-empty byte masks of one size
    the merged shadow is a non-empty CV_8UC4 image, and the call returns an
    image of the size and type of the source, under the conditions of
    [applyEye] on the source, the landmarks and the collaborators. *)
Theorem applyEyeShadow_composes (USE_BGRA_LAYOUT : bool) (int_div : Z -> Z -> Z)
    (mix : Vec4b -> Vec4b -> R -> Vec4b) (W : EyeWarp Vec4b)
    (distance_points : Point2f -> Point2f -> R) (cvRound : R -> Z)
    (src : Mat Vec4b) (points : list Point2f) (m0 m1 m2 : Mat Z)
    (color_0 color_1 color_2 : Z) (amount : R) :
  near_quotient int_div -> EyeWarp_ok W ->
  masks_ok m0 m1 m2 -> Mat_empty m0 = false ->
  Mat_wf src -> type src = CV_8UC4 -> (51 < length points)%nat ->
  exists dst,
    applyEyeShadow USE_BGRA_LAYOUT int_div mix W distance_points cvRound src points
      [m0; m1; m2] [color_0; color_1; color_2] amount = Done dst /\
    Mat_wf dst /\ same_shape dst src.
Proof.
  intros Hnear HW Hok Hne Hs Ht Hp. unfold applyEyeShadow.
  destruct (createEyeShadow_wf USE_BGRA_LAYOUT int_div Hnear m0 m1 m2
              color_0 color_1 color_2 Hok) as (eye_shadow & E & Hwf & Hr & Hc & Hty).
  rewrite E. cbn [bind].
  apply applyEye_spec; try assumption.
  split; [assumption |]. split; [| assumption].
  unfold Mat_empty in *. rewrite Hr, Hc. exact Hne.
Qed.

Lemma applyEyeShadow_composes_witness :
  exists dst,
    applyEyeShadow false Z.quot (fun d s _ => s) (ex_EyeWarp Vec4b) ex_distance_points
      ex_cvRound (mkMat 1 1 CV_8UC4 [mkVec4b 1 2 3 4]) ex_landmarks
      [ex_eye_m0; ex_eye_m1; ex_eye_m2] [0x0000FF; 0x00FF00; 0xFF0000] 1%R = Done dst /\
    Mat_wf dst /\ same_shape dst (mkMat 1 1 CV_8UC4 [mkVec4b 1 2 3 4]).
Proof.
  apply (applyEyeShadow_composes false Z.quot (fun d s _ => s) (ex_EyeWarp Vec4b)
           ex_distance_points ex_cvRound (mkMat 1 1 CV_8UC4 [mkVec4b 1 2 3 4])
           ex_landmarks ex_eye_m0 ex_eye_m1 ex_eye_m2 0x0000FF 0x00FF00 0xFF0000 1%R).
  - exact quot_near_quotient.
  - apply ex_EyeWarp_ok.
  - exact ex_eye_masks_ok.
  - reflexivity.
  - repeat split; simpl; lia.
  - reflexivity.
  - simpl. lia.
Defined.

(** ** Makeup::blend off the frame *)

(** X22: a source placed wholly outside the destination, to its left, right,
    top or bottom, is not an error for the rectangular [blend]: the loop runs
    over an empty rectangle and the destination is returned as it was. *)
Theorem blend_off_frame (Pixel : Type) (mix : Pixel -> Pixel -> R -> Pixel)
    (dst src : Mat Pixel) (origin : Point2i) (amount : R) :
  Mat_wf dst -> Mat_wf src -> Mat_empty src = false ->
  type src = type dst -> type dst = CV_8UC4 \/ type dst = CV_32FC4 ->
  ix origin + cols src <= 0 \/ cols dst <= ix origin \/
  iy origin + rows src <= 0 \/ rows dst <= iy origin ->
  blend mix dst src origin amount = Done dst.
Proof.
  intros Hd Hs He Ht Hty Hoff.
  rewrite (blend_supported Pixel mix dst src origin amount He Ht Hty).
  destruct (blend_loop_spec Pixel mix dst src origin amount Hd Hs)
    as (result & E & Hwf & Hsh & Hpt).
  rewrite E. f_equal. apply Mat_ext; try assumption.
  intros r c Hb.
  assert (Hbd : in_bounds dst r c = true).
  { destruct Hsh as (Sr & Sc & _). unfold in_bounds in *. rewrite <- Sr, <- Sc. exact Hb. }
  destruct (Mat_at_Done dst r c Hd Hbd) as [d Hdv].
  rewrite Hdv. apply (Hpt r c d Hdv). intros Hin.
  destruct (overlap_spec dst src origin) as (_ & _ & Hov).
  apply Hov in Hin. destruct Hin as [H1 H2].
  apply in_bounds_true in H1. apply in_bounds_true in H2. lia.
Qed.

Lemma blend_off_frame_witness :
  blend ex_mix_packed ex_image ex_image (mkPoint2i 2 0) 1%R = Done ex_image.
Proof.
  apply (blend_off_frame Z ex_mix_packed ex_image ex_image (mkPoint2i 2 0) 1%R).
  - repeat split; simpl; lia.
  - repeat split; simpl; lia.
  - reflexivity.
  - reflexivity.
  - left. reflexivity.
  - simpl. lia.
Defined.
